(** * src/shared/openssl-util.c: the crypto-provider wrapper layer

    A shallow embedding of the functions of [openssl-util.c] over an abstract
    crypto provider, and the properties of the layer that follow from the
    code: error codes, output discipline, size bookkeeping and the
    component round trips of RSA and elliptic-curve public keys.

    Conventions of the embedding
    - C integers are [Z]; conversions between [int], [unsigned] and [size_t]
      are written out ([to_int], [to_uint], [to_size_t]).
    - A (pointer, length) pair naming input bytes is a [list byte]; a
      nullable pointer is an [option].
    - An output parameter [T *ret] is an [outp T]: [NULL], or [Loc v] for a
      location that currently holds [v]. A function returns its [int]
      result together with the final state of its output parameters.
    - The provider library is a [Provider]: opaque object types and
      operations acting on the library state and on the thread's error
      queue. An operation that mutates an object returns the new object.
    - An array of [struct iovec] with its count is a list of byte lists.
    - [assert] failure and undefined behaviour (a store through NULL, a
      write past a buffer) end the run with [Abort]. An [assert] on an
      input pointer that the embedding makes non-null by its type has no
      counterpart.
    - [malloc] succeeds or fails as the allocator decides; the scoped
      cleanup of local objects ([_cleanup_free_] and the like) releases
      what no result depends on and is not represented. *)

From Stdlib Require Import ZArith NArith List String Strings.Byte Bool Lia.
From Stdlib Require Import DecimalString.
Import ListNotations.

Local Open Scope string_scope.
Local Open Scope list_scope.
Local Open Scope Z_scope.

(** ** C integer types and errno values *)

Definition SIZE_MAX : Z := 2 ^ 64 - 1.
Definition INT_MAX : Z := 2 ^ 31 - 1.
Definition INT_MIN : Z := - 2 ^ 31.

(** Conversion to [size_t] (64 bit, unsigned). *)
Definition to_size_t (z : Z) : Z := z mod 2 ^ 64.
(** Conversion to [unsigned int]. *)
Definition to_uint (z : Z) : Z := z mod 2 ^ 32.
(** Conversion to [int] (two's complement). *)
Definition to_int (z : Z) : Z := (z + 2 ^ 31) mod 2 ^ 32 - 2 ^ 31.

Definition EIO : Z := 5.
Definition ENOMEM : Z := 12.
Definition EBADMSG : Z := 74.
Definition EOPNOTSUPP : Z := 95.

Definition LOG_DEBUG : Z := 7.

(** The error kinds of the specification and the errno value with which
    the code reports each. The code has no value of its own for
    [BadInput]: a derived key size under one byte is reported with [EIO]. *)
Inductive error_kind : Type :=
| Unsupported
| IoError
| OutOfMemory
| WrongKeyType
| BadInput.

Definition errno_of (k : error_kind) : Z :=
  match k with
  | Unsupported => EOPNOTSUPP
  | IoError => EIO
  | OutOfMemory => ENOMEM
  | WrongKeyType => EBADMSG
  | BadInput => EIO
  end.

(** Provider constants used by the layer. *)
Definition EVP_PKEY_RSA : Z := 6.
Definition EVP_PKEY_EC : Z := 408.
Definition NID_undef : Z := 0.
Definition RSA_PKCS1_PADDING : Z := 1.
Definition EVP_PKEY_PUBLIC_KEY : Z := 134.
Definition POINT_CONVERSION_UNCOMPRESSED : Z := 4.
Definition OSSL_MAC_PARAM_DIGEST : string := "digest".
Definition OSSL_PKEY_PARAM_RSA_N : string := "n".
Definition OSSL_PKEY_PARAM_RSA_E : string := "e".
Definition OSSL_PKEY_PARAM_GROUP_NAME : string := "group".
Definition OSSL_PKEY_PARAM_PUB_KEY : string := "pub".
Definition OSSL_PKEY_PARAM_EC_PUB_X : string := "qx".
Definition OSSL_PKEY_PARAM_EC_PUB_Y : string := "qy".

(** ** Bytes and big-endian numbers *)

Definition bytes : Type := list byte.

(** Value of a big-endian byte string, most significant byte first
    (what [BN_bin2bn] computes). *)
Definition be_value (bs : bytes) : N :=
  fold_left (fun acc b => (acc * 256 + Byte.to_N b)%N) bs 0%N.

(** The byte holding [n mod 256]. *)
Definition low_byte (n : N) : byte :=
  match Byte.of_N (n mod 256) with
  | Some b => b
  | None => x00
  end.

(** Little-endian digits of [n], least significant first; [fuel] bounds the
    number of digits. *)
Fixpoint le_digits (fuel : nat) (n : N) : bytes :=
  match fuel with
  | O => []
  | S fuel' =>
      if (n =? 0)%N then [] else low_byte n :: le_digits fuel' (n / 256)%N
  end.

(** Minimal big-endian encoding (what [BN_bn2bin] writes): no leading zero
    byte, and the empty string for zero. *)
Definition be_minimal (n : N) : bytes :=
  rev (le_digits (N.to_nat (N.size n)) n).

(** [strlen]: index of the first NUL byte of the region at the pointer;
    [None] when the region holds no NUL (the read runs past it). *)
Fixpoint strlen (region : bytes) : option Z :=
  match region with
  | [] => None
  | b :: rest =>
      if Byte.eqb b x00 then Some 0
      else match strlen rest with
           | Some n => Some (n + 1)
           | None => None
           end
  end.

(** ** Output parameters *)

Inductive outp (A : Type) : Type :=
| NULL : outp A
| Loc (cur : A) : outp A.
Arguments NULL {A}.
Arguments Loc {A} cur.

Definition nonnull {A} (p : outp A) : bool :=
  match p with NULL => false | Loc _ => true end.

(** [if (p) *p = v;] *)
Definition store_opt {A} (p : outp A) (v : A) : outp A :=
  match p with NULL => NULL | Loc _ => Loc v end.

(** ** Log records *)

Inductive fmt_arg : Type :=
| StrArg (s : string)
| IntArg (z : Z).

Record log_entry : Type := LogEntry {
  log_level : Z;
  log_errno : Z;
  log_format : string;
  log_args : list fmt_arg
}.

(** ** The provider interface *)

(** A provider call: reads and updates the library state and the calling
    thread's error queue. *)
Definition ossl_call (S A : Type) : Type := S -> list Z -> A * S * list Z.

Class Provider : Type := {
  ossl_state : Type;
  OPENSSL_VERSION_MAJOR : Z;

  EVP_MD : Type;
  EVP_MD_CTX : Type;
  EVP_MAC : Type;
  EVP_MAC_CTX : Type;
  HMAC_CTX : Type;
  OSSL_PARAM_BLD : Type;
  OSSL_PARAM : Type;
  EVP_PKEY : Type;
  EVP_PKEY_CTX : Type;
  BIGNUM : Type;
  RSA : Type;
  EC_GROUP : Type;
  EC_POINT : Type;
  EC_KEY : Type;

  (* error strings: code, buffer size *)
  ERR_error_string_n : Z -> Z -> string;

  (* PEM *)
  PEM_read_PUBKEY : bytes -> ossl_call ossl_state (option EVP_PKEY);

  (* digests *)
  EVP_MD_fetch : string -> ossl_call ossl_state (option EVP_MD);
  EVP_get_digestbyname : string -> ossl_call ossl_state (option EVP_MD);
  EVP_MD_get_size : EVP_MD -> Z;
  EVP_MD_size : EVP_MD -> Z;
  EVP_MD_name : EVP_MD -> string;
  EVP_MD_CTX_new : ossl_call ossl_state (option EVP_MD_CTX);
  EVP_DigestInit_ex : EVP_MD_CTX -> EVP_MD -> ossl_call ossl_state (Z * EVP_MD_CTX);
  EVP_DigestUpdate : EVP_MD_CTX -> bytes -> ossl_call ossl_state (Z * EVP_MD_CTX);
  (* result, bytes written to the buffer, value stored in the size *)
  EVP_DigestFinal_ex : EVP_MD_CTX -> ossl_call ossl_state (Z * bytes * Z);

  (* MAC, provider generation 3 *)
  EVP_MAC_fetch : string -> ossl_call ossl_state (option EVP_MAC);
  EVP_MAC_CTX_new : EVP_MAC -> ossl_call ossl_state (option EVP_MAC_CTX);
  EVP_MAC_init : EVP_MAC_CTX -> bytes -> OSSL_PARAM -> ossl_call ossl_state (Z * EVP_MAC_CTX);
  EVP_MAC_update : EVP_MAC_CTX -> bytes -> ossl_call ossl_state (Z * EVP_MAC_CTX);
  EVP_MAC_CTX_get_mac_size : EVP_MAC_CTX -> Z;
  (* context, buffer size; result, bytes written, value stored in the size *)
  EVP_MAC_final : EVP_MAC_CTX -> Z -> ossl_call ossl_state (Z * bytes * Z);

  (* HMAC, older generation *)
  HMAC_CTX_new : ossl_call ossl_state (option HMAC_CTX);
  HMAC_Init_ex : HMAC_CTX -> bytes -> EVP_MD -> ossl_call ossl_state (Z * HMAC_CTX);
  HMAC_Update : HMAC_CTX -> bytes -> ossl_call ossl_state (Z * HMAC_CTX);
  HMAC_size : HMAC_CTX -> Z;
  HMAC_Final : HMAC_CTX -> ossl_call ossl_state (Z * bytes * Z);

  (* parameter builder *)
  OSSL_PARAM_BLD_new : ossl_call ossl_state (option OSSL_PARAM_BLD);
  OSSL_PARAM_BLD_push_utf8_string :
    OSSL_PARAM_BLD -> string -> option string -> ossl_call ossl_state (Z * OSSL_PARAM_BLD);
  OSSL_PARAM_BLD_push_BN :
    OSSL_PARAM_BLD -> string -> BIGNUM -> ossl_call ossl_state (Z * OSSL_PARAM_BLD);
  OSSL_PARAM_BLD_push_octet_string :
    OSSL_PARAM_BLD -> string -> option bytes -> Z ->
    ossl_call ossl_state (Z * OSSL_PARAM_BLD);
  OSSL_PARAM_BLD_to_param : OSSL_PARAM_BLD -> ossl_call ossl_state (option OSSL_PARAM);

  (* big numbers *)
  BN_bin2bn : bytes -> ossl_call ossl_state (option BIGNUM);
  BN_new : ossl_call ossl_state (option BIGNUM);
  BN_num_bytes : BIGNUM -> Z;
  (* result, bytes written *)
  BN_bn2bin : BIGNUM -> Z * bytes;

  (* keys *)
  EVP_PKEY_base_id : EVP_PKEY -> Z;
  EVP_PKEY_bits : EVP_PKEY -> Z;
  EVP_PKEY_new : ossl_call ossl_state (option EVP_PKEY);
  EVP_PKEY_CTX_new : EVP_PKEY -> ossl_call ossl_state (option EVP_PKEY_CTX);
  EVP_PKEY_CTX_new_id : Z -> ossl_call ossl_state (option EVP_PKEY_CTX);
  EVP_PKEY_fromdata_init : EVP_PKEY_CTX -> ossl_call ossl_state (Z * EVP_PKEY_CTX);
  (* context, current key pointer, selection, parameters; result, key pointer *)
  EVP_PKEY_fromdata :
    EVP_PKEY_CTX -> option EVP_PKEY -> Z -> OSSL_PARAM ->
    ossl_call ossl_state (Z * option EVP_PKEY);
  (* key, name, current number pointer; result, number pointer *)
  EVP_PKEY_get_bn_param :
    EVP_PKEY -> string -> option BIGNUM -> ossl_call ossl_state (Z * option BIGNUM);
  (* key, name, buffer size (None: no buffer); result, text written, length *)
  EVP_PKEY_get_utf8_string_param :
    EVP_PKEY -> string -> option Z -> ossl_call ossl_state (Z * string * Z);

  (* RSA encryption *)
  EVP_PKEY_encrypt_init : EVP_PKEY_CTX -> ossl_call ossl_state (Z * EVP_PKEY_CTX);
  EVP_PKEY_CTX_set_rsa_padding : EVP_PKEY_CTX -> Z -> ossl_call ossl_state (Z * EVP_PKEY_CTX);
  (* context, output buffer size (None: no buffer), input;
     result, bytes written, value stored in the length *)
  EVP_PKEY_encrypt : EVP_PKEY_CTX -> option Z -> bytes -> ossl_call ossl_state (Z * bytes * Z);

  (* RSA objects, older generation *)
  RSA_new : ossl_call ossl_state (option RSA);
  RSA_set0_key : RSA -> BIGNUM -> BIGNUM -> ossl_call ossl_state (Z * RSA);
  EVP_PKEY_assign_RSA : EVP_PKEY -> RSA -> ossl_call ossl_state (Z * EVP_PKEY);
  EVP_PKEY_get0_RSA : EVP_PKEY -> ossl_call ossl_state (option RSA);
  RSA_get0_n : RSA -> option BIGNUM;
  RSA_get0_e : RSA -> option BIGNUM;

  (* elliptic curves *)
  EC_GROUP_new_by_curve_name : Z -> ossl_call ossl_state (option EC_GROUP);
  EC_POINT_new : EC_GROUP -> ossl_call ossl_state (option EC_POINT);
  EC_POINT_set_affine_coordinates :
    EC_GROUP -> EC_POINT -> BIGNUM -> BIGNUM -> ossl_call ossl_state (Z * EC_POINT);
  OSSL_EC_curve_nid2name : Z -> option string;
  (* result length, buffer *)
  EC_POINT_point2buf : EC_GROUP -> EC_POINT -> Z -> ossl_call ossl_state (Z * option bytes);
  OBJ_sn2nid : string -> Z;

  (* elliptic curve objects, older generation *)
  EC_KEY_new : ossl_call ossl_state (option EC_KEY);
  EC_KEY_set_group : EC_KEY -> EC_GROUP -> ossl_call ossl_state (Z * EC_KEY);
  EC_KEY_set_public_key : EC_KEY -> EC_POINT -> ossl_call ossl_state (Z * EC_KEY);
  EVP_PKEY_assign_EC_KEY : EVP_PKEY -> EC_KEY -> ossl_call ossl_state (Z * EVP_PKEY);
  EVP_PKEY_get0_EC_KEY : EVP_PKEY -> ossl_call ossl_state (option EC_KEY);
  EC_KEY_get0_group : EC_KEY -> option EC_GROUP;
  EC_GROUP_get_curve_name : EC_GROUP -> Z;
  EC_KEY_get0_public_key : EC_KEY -> option EC_POINT;
  (* group, point, the two numbers; result, the two numbers *)
  EC_POINT_get_affine_coordinates :
    EC_GROUP -> EC_POINT -> BIGNUM -> BIGNUM -> ossl_call ossl_state (Z * BIGNUM * BIGNUM);

  (* DER, signing *)
  (* key, output buffer present; result, bytes written *)
  i2d_PublicKey : EVP_PKEY -> bool -> ossl_call ossl_state (Z * bytes);
  EVP_DigestSignInit :
    EVP_MD_CTX -> option EVP_MD -> EVP_PKEY -> ossl_call ossl_state (Z * EVP_MD_CTX);
  (* context, signature buffer size (None: no buffer), data pointer, size;
     result, bytes written, value stored in the length, context *)
  EVP_DigestSign :
    EVP_MD_CTX -> option Z -> option bytes -> Z ->
    ossl_call ossl_state (Z * bytes * Z * EVP_MD_CTX)
}.

(** ** The world of a call and the monad of the layer *)

Section Layer.

Context {prov : Provider}.

Record World : Type := mkWorld {
  ossl : ossl_state;            (* state of the provider library *)
  err_queue : list Z;           (* the thread's provider error queue, oldest first *)
  journal : list log_entry;     (* what has been logged, oldest first *)
  heap : list bool              (* allocator: [true] makes the next allocation fail *)
}.

Inductive outcome (A : Type) : Type :=
| Ret (a : A) (w : World)
| Abort.
Arguments Ret {A} a w.
Arguments Abort {A}.

Definition M (A : Type) : Type := World -> outcome A.

Definition ret {A} (a : A) : M A := fun w => Ret a w.

Definition bind {A B} (m : M A) (k : A -> M B) : M B :=
  fun w => match m w with
           | Ret a w' => k a w'
           | Abort => Abort
           end.

Notation "x <- m ;; k" := (bind m (fun x => k))
  (at level 61, m at next level, right associativity).
Notation "' pat <- m ;; k" := (bind m (fun x => match x with pat => k end))
  (at level 61, pat pattern, m at next level, right associativity).
Notation "m ;;; k" := (bind m (fun _ => k))
  (at level 61, right associativity).

(** [assert(c)] *)
Definition assert (c : bool) : M unit :=
  fun w => if c then Ret tt w else Abort.

(** A call into the provider. *)
Definition call {A} (op : ossl_call ossl_state A) : M A :=
  fun w =>
    match op (ossl w) (err_queue w) with
    | (a, s, q) => Ret a (mkWorld s q (journal w) (heap w))
    end.

(** [malloc(size)]: fails when the allocator says so; the fresh block is
    modelled as [size] zero bytes. *)
Definition malloc (size : Z) : M (option bytes) :=
  fun w =>
    match heap w with
    | true :: h => Ret None (mkWorld (ossl w) (err_queue w) (journal w) h)
    | false :: h =>
        Ret (Some (repeat x00 (Z.to_nat size)))
            (mkWorld (ossl w) (err_queue w) (journal w) h)
    | [] => Ret (Some (repeat x00 (Z.to_nat size))) w
    end.

(** [fmemopen(pem, pem_size, "r")]: a stream over the bytes; needs an
    allocation. *)
Definition fmemopen (buf : bytes) : M (option bytes) :=
  b <- malloc 0 ;;
  match b with
  | None => ret None
  | Some _ => ret (Some buf)
  end.

(** Writing [data] at the start of the block [buf]; past its end is
    undefined behaviour. *)
Definition write_buf (buf data : bytes) : M bytes :=
  if (List.length data <=? List.length buf)%nat
  then ret (data ++ skipn (List.length data) buf)
  else fun _ => Abort.

(** [*p = v;] *)
Definition store {A} (p : outp A) (v : A) : M (outp A) :=
  match p with
  | NULL => fun _ => Abort
  | Loc _ => ret (Loc v)
  end.

(** Modelled from the spec: the logging macros of [log.h], which are not in
    this file. [log_debug_errno(SYNTHETIC_ERRNO(e), ...)] logs at debug
    level and evaluates to [-e]; [log_oom_debug()] reports out-of-memory
    and evaluates to [-ENOMEM]; [log_debug] only logs. *)
Definition log_debug_errno (e : Z) (fmt : string) (args : list fmt_arg) : M Z :=
  fun w =>
    Ret (- e)
        (mkWorld (ossl w) (err_queue w)
                 (journal w ++ [LogEntry LOG_DEBUG e fmt args]) (heap w)).

Definition log_oom_debug : M Z :=
  log_debug_errno ENOMEM "Out of memory." [].

Definition log_debug (fmt : string) (args : list fmt_arg) : M unit :=
  log_debug_errno 0 fmt args ;;; ret tt.

(** [return m;] on a path that has written none of the outputs [outs]. *)
Definition leave {O} (outs : O) (m : M Z) : M (Z * O) :=
  r <- m ;; ret (r, outs).

(** ** log_openssl_errors (lines 9-33) *)

(** The loop of [__log_openssl_errors], by recursion on the error queue:
    [ERR_get_error] pops the oldest record and yields 0 on an empty
    queue. [R] is the value of the last [log_debug_errno]. *)
Fixpoint drain_queue (q : list Z) (max : Z) (fmt : string) (args : list fmt_arg)
    (R : Z) (jr : list log_entry) : Z * list Z * list log_entry :=
  match q with
  | [] => (R, [], jr)
  | E :: q' =>
      if E =? 0 then (R, q', jr)
      else
        let buf := ERR_error_string_n E max in
        drain_queue q' max fmt args (- EIO)
          (jr ++ [LogEntry LOG_DEBUG EIO (fmt ++ ": %s")%string (args ++ [StrArg buf])])
  end.

Definition __log_openssl_errors (buf : bytes) (max : Z) (fmt : string)
    (args : list fmt_arg) : M Z :=
  fun w =>
    match drain_queue (err_queue w) max fmt args 0 (journal w) with
    | (R, q, jr) => Ret R (mkWorld (ossl w) q jr (heap w))
    end.

Definition log_openssl_errors (fmt : string) (args : list fmt_arg) : M Z :=
  let MAX := 512 in
  BUF <- malloc MAX ;;
  match BUF with
  | None => log_oom_debug
  | Some BUF =>
      R <- __log_openssl_errors BUF MAX fmt args ;;
      if R =? 0
      then log_debug_errno EIO (fmt ++ ": No openssl errors.")%string args
      else ret R
  end.

(** ** openssl_pkey_from_pem (lines 35-51) *)

(** [pem] is a byte list: the [assert(pem)] of line 36 requires the caller's
    pointer to be non-null and has no counterpart here. *)
Definition openssl_pkey_from_pem (pem : bytes) (ret_ : outp (option EVP_PKEY))
  : M (Z * outp (option EVP_PKEY)) :=
  assert (nonnull ret_) ;;;
  f <- fmemopen pem ;;
  match f with
  | None => leave ret_ log_oom_debug
  | Some f =>
      pkey <- call (PEM_read_PUBKEY f) ;;
      match pkey with
      | None => leave ret_ (log_openssl_errors "Failed to parse PEM" [])
      | Some pkey =>
          ret_ <- store ret_ (Some pkey) ;;
          ret (0, ret_)
      end
  end.

(** ** openssl_digest_size (lines 57-82) *)

Definition md_fetch (digest_alg : string) : M (option EVP_MD) :=
  if 3 <=? OPENSSL_VERSION_MAJOR
  then call (EVP_MD_fetch digest_alg)
  else call (EVP_get_digestbyname digest_alg).

Definition md_size (md : EVP_MD) : Z :=
  if 3 <=? OPENSSL_VERSION_MAJOR then EVP_MD_get_size md else EVP_MD_size md.

(** [digest_alg] is a string: the [assert(digest_alg)] of line 58 has no
    counterpart here. *)
Definition openssl_digest_size (digest_alg : string) (ret_digest_size : outp Z)
  : M (Z * outp Z) :=
  assert (nonnull ret_digest_size) ;;;
  md <- md_fetch digest_alg ;;
  match md with
  | None =>
      leave ret_digest_size
        (log_debug_errno EOPNOTSUPP "Digest algorithm '%s' not supported."
           [StrArg digest_alg])
  | Some md =>
      let digest_size := to_size_t (md_size md) in
      if digest_size =? 0
      then leave ret_digest_size (log_openssl_errors "Failed to get Digest size" [])
      else
        ret_digest_size <- store ret_digest_size digest_size ;;
        ret (0, ret_digest_size)
  end.

(** ** openssl_digest_many (lines 86-140) *)

(** The update loop over the descriptors, in order; [false] when an update
    failed (the loop is left at once). *)
Fixpoint update_all {C : Type} (update : C -> bytes -> ossl_call ossl_state (Z * C))
    (ctx : C) (data : list bytes) : M (bool * C) :=
  match data with
  | [] => ret (true, ctx)
  | d :: rest =>
      '(r, ctx) <- call (update ctx d) ;;
      if r =? 0 then ret (false, ctx) else update_all update ctx rest
  end.

(** The value a local [size_t] holds after a call that took its address. *)
Definition local {A} (dflt : A) (p : outp A) : A :=
  match p with Loc v => v | NULL => dflt end.

Definition openssl_digest_many (digest_alg : string) (data : list bytes)
    (ret_digest : outp (option bytes)) (ret_digest_size : outp Z)
  : M (Z * (outp (option bytes) * outp Z)) :=
  let outs := (ret_digest, ret_digest_size) in
  assert (nonnull ret_digest) ;;;
  md <- md_fetch digest_alg ;;
  match md with
  | None =>
      leave outs
        (log_debug_errno EOPNOTSUPP "Digest algorithm '%s' not supported."
           [StrArg digest_alg])
  | Some md =>
  ctx <- call EVP_MD_CTX_new ;;
  match ctx with
  | None => leave outs (log_openssl_errors "Failed to create new EVP_MD_CTX" [])
  | Some ctx =>
  '(r, ctx) <- call (EVP_DigestInit_ex ctx md) ;;
  if r =? 0
  then leave outs (log_openssl_errors "Failed to initializate EVP_MD_CTX" [])
  else
  '(ok, ctx) <- update_all EVP_DigestUpdate ctx data ;;
  if negb ok
  then leave outs (log_openssl_errors "Failed to update Digest" [])
  else
  '(r, digest_size) <- openssl_digest_size digest_alg (Loc 0) ;;
  if r <? 0 then ret (r, outs)
  else
  let digest_size := local 0 digest_size in
  buf <- malloc digest_size ;;
  match buf with
  | None => leave outs log_oom_debug
  | Some buf =>
  '(r, written, size) <- call (EVP_DigestFinal_ex ctx) ;;
  buf <- write_buf buf written ;;
  if r =? 0
  then leave outs (log_openssl_errors "Failed to finalize Digest" [])
  else
  assert (size =? digest_size) ;;;
  ret_digest <- store ret_digest (Some buf) ;;
  ret (0, (ret_digest, store_opt ret_digest_size size))
  end end end.

(** ** openssl_hmac_many (lines 145-237) *)

(** Lines 208-236, common to both provider generations: [digest_size] is
    the size the MAC context reports, [final] the finalising call. *)
Definition hmac_finish (digest_size : Z) (final : ossl_call ossl_state (Z * bytes * Z))
    (ret_digest : outp (option bytes)) (ret_digest_size : outp Z)
  : M (Z * (outp (option bytes) * outp Z)) :=
  let outs := (ret_digest, ret_digest_size) in
  if digest_size =? 0
  then leave outs (log_openssl_errors "Failed to get HMAC digest size" [])
  else
  buf <- malloc digest_size ;;
  match buf with
  | None => leave outs log_oom_debug
  | Some buf =>
  '(r, written, size) <- call final ;;
  buf <- write_buf buf written ;;
  if r =? 0
  then leave outs (log_openssl_errors "Failed to finalize HMAC" [])
  else
  assert (size =? digest_size) ;;;
  ret_digest <- store ret_digest (Some buf) ;;
  ret (0, (ret_digest, store_opt ret_digest_size size))
  end.

Definition openssl_hmac_many (digest_alg : string) (key : bytes) (data : list bytes)
    (ret_digest : outp (option bytes)) (ret_digest_size : outp Z)
  : M (Z * (outp (option bytes) * outp Z)) :=
  let outs := (ret_digest, ret_digest_size) in
  assert (nonnull ret_digest) ;;;
  md <- md_fetch digest_alg ;;
  match md with
  | None =>
      leave outs
        (log_debug_errno EOPNOTSUPP "Digest algorithm '%s' not supported."
           [StrArg digest_alg])
  | Some md =>
  if 3 <=? OPENSSL_VERSION_MAJOR then
    mac <- call (EVP_MAC_fetch "HMAC") ;;
    match mac with
    | None => leave outs (log_openssl_errors "Failed to create new EVP_MAC" [])
    | Some mac =>
    ctx <- call (EVP_MAC_CTX_new mac) ;;
    match ctx with
    | None => leave outs (log_openssl_errors "Failed to create new EVP_MAC_CTX" [])
    | Some ctx =>
    bld <- call OSSL_PARAM_BLD_new ;;
    match bld with
    | None => leave outs (log_openssl_errors "Failed to create new OSSL_PARAM_BLD" [])
    | Some bld =>
    '(r, bld) <- call (OSSL_PARAM_BLD_push_utf8_string bld OSSL_MAC_PARAM_DIGEST
                         (Some digest_alg)) ;;
    if r =? 0
    then leave outs (log_openssl_errors "Failed to set HMAC OSSL_MAC_PARAM_DIGEST" [])
    else
    params <- call (OSSL_PARAM_BLD_to_param bld) ;;
    match params with
    | None => leave outs (log_openssl_errors "Failed to build HMAC OSSL_PARAM" [])
    | Some params =>
    '(r, ctx) <- call (EVP_MAC_init ctx key params) ;;
    if r =? 0
    then leave outs (log_openssl_errors "Failed to initializate EVP_MAC_CTX" [])
    else
    '(ok, ctx) <- update_all EVP_MAC_update ctx data ;;
    if negb ok
    then leave outs (log_openssl_errors "Failed to update HMAC" [])
    else
    let digest_size := to_size_t (EVP_MAC_CTX_get_mac_size ctx) in
    hmac_finish digest_size (EVP_MAC_final ctx digest_size) ret_digest ret_digest_size
    end end end end
  else
    ctx <- call HMAC_CTX_new ;;
    match ctx with
    | None => leave outs (log_openssl_errors "Failed to create new HMAC_CTX" [])
    | Some ctx =>
    '(r, ctx) <- call (HMAC_Init_ex ctx key md) ;;
    if r =? 0
    then leave outs (log_openssl_errors "Failed to initialize HMAC_CTX" [])
    else
    '(ok, ctx) <- update_all HMAC_Update ctx data ;;
    if negb ok
    then leave outs (log_openssl_errors "Failed to update HMAC" [])
    else
    let digest_size := to_size_t (HMAC_size ctx) in
    hmac_finish digest_size (HMAC_Final ctx) ret_digest ret_digest_size
    end
  end.

(** ** rsa_encrypt_bytes (lines 239-274) *)

Definition rsa_encrypt_bytes (pkey : EVP_PKEY) (decrypted_key : bytes)
    (ret_encrypt_key : outp (option bytes)) (ret_encrypt_key_size : outp Z)
  : M (Z * (outp (option bytes) * outp Z)) :=
  let outs := (ret_encrypt_key, ret_encrypt_key_size) in
  ctx <- call (EVP_PKEY_CTX_new pkey) ;;
  match ctx with
  | None => leave outs (log_openssl_errors "Failed to allocate public key context" [])
  | Some ctx =>
  '(r, ctx) <- call (EVP_PKEY_encrypt_init ctx) ;;
  if r <=? 0
  then leave outs (log_openssl_errors "Failed to initialize public key context" [])
  else
  '(r, ctx) <- call (EVP_PKEY_CTX_set_rsa_padding ctx RSA_PKCS1_PADDING) ;;
  if r <=? 0
  then leave outs (log_openssl_errors "Failed to configure PKCS#1 padding" [])
  else
  '(r, _, l) <- call (EVP_PKEY_encrypt ctx None decrypted_key) ;;
  if r <=? 0
  then leave outs (log_openssl_errors "Failed to determine encrypted key size" [])
  else
  b <- malloc l ;;
  match b with
  | None => ret (- ENOMEM, outs)
  | Some b =>
  '(r, written, l) <- call (EVP_PKEY_encrypt ctx (Some l) decrypted_key) ;;
  b <- write_buf b written ;;
  if r <=? 0
  then leave outs (log_openssl_errors "Failed to determine encrypted key size" [])
  else
  ret_encrypt_key <- store ret_encrypt_key (Some b) ;;
  ret_encrypt_key_size <- store ret_encrypt_key_size l ;;
  ret (0, (ret_encrypt_key, ret_encrypt_key_size))
  end end.

(** ** rsa_pkey_to_suitable_key_size (lines 276-304) *)

(** [pkey] is a key object: the [assert(pkey)] of line 283 has no
    counterpart here. *)
Definition rsa_pkey_to_suitable_key_size (pkey : EVP_PKEY)
    (ret_suitable_key_size : outp Z) : M (Z * outp Z) :=
  assert (nonnull ret_suitable_key_size) ;;;
  if negb (EVP_PKEY_base_id pkey =? EVP_PKEY_RSA)
  then leave ret_suitable_key_size
         (log_debug_errno EBADMSG "X.509 certificate does not refer to RSA key." [])
  else
  let bits := EVP_PKEY_bits pkey in
  log_debug "Bits in RSA key: %i" [IntArg bits] ;;;
  (* int division, then conversion to size_t *)
  let suitable_key_size := to_size_t (Z.quot (Z.quot bits 8) 2) in
  if suitable_key_size <? 1
  then leave ret_suitable_key_size
         (log_debug_errno EIO "Uh, RSA key size too short?" [])
  else
  ret_suitable_key_size <- store ret_suitable_key_size suitable_key_size ;;
  ret (0, ret_suitable_key_size).

(** ** rsa_pkey_from_n_e (lines 308-371) *)

(** [n] and [e] are byte lists: the [assert(n)] and [assert(e)] of lines
    311-312 have no counterpart here. *)
Definition rsa_pkey_from_n_e (n e : bytes) (ret_ : outp (option EVP_PKEY))
  : M (Z * outp (option EVP_PKEY)) :=
  assert (nonnull ret_) ;;;
  ctx <- call (EVP_PKEY_CTX_new_id EVP_PKEY_RSA) ;;
  match ctx with
  | None => leave ret_ (log_openssl_errors "Failed to create new EVP_PKEY_CTX" [])
  | Some ctx =>
  bn_n <- call (BN_bin2bn n) ;;
  match bn_n with
  | None => leave ret_ (log_openssl_errors "Failed to create BIGNUM for RSA n" [])
  | Some bn_n =>
  bn_e <- call (BN_bin2bn e) ;;
  match bn_e with
  | None => leave ret_ (log_openssl_errors "Failed to create BIGNUM for RSA e" [])
  | Some bn_e =>
  if 3 <=? OPENSSL_VERSION_MAJOR then
    '(r, ctx) <- call (EVP_PKEY_fromdata_init ctx) ;;
    if r <=? 0
    then leave ret_ (log_openssl_errors "Failed to initialize EVP_PKEY_CTX" [])
    else
    bld <- call OSSL_PARAM_BLD_new ;;
    match bld with
    | None => leave ret_ (log_openssl_errors "Failed to create new OSSL_PARAM_BLD" [])
    | Some bld =>
    '(r, bld) <- call (OSSL_PARAM_BLD_push_BN bld OSSL_PKEY_PARAM_RSA_N bn_n) ;;
    if r =? 0
    then leave ret_ (log_openssl_errors "Failed to set RSA OSSL_PKEY_PARAM_RSA_N" [])
    else
    '(r, bld) <- call (OSSL_PARAM_BLD_push_BN bld OSSL_PKEY_PARAM_RSA_E bn_e) ;;
    if r =? 0
    then leave ret_ (log_openssl_errors "Failed to set RSA OSSL_PKEY_PARAM_RSA_E" [])
    else
    params <- call (OSSL_PARAM_BLD_to_param bld) ;;
    match params with
    | None => leave ret_ (log_openssl_errors "Failed to build RSA OSSL_PARAM" [])
    | Some params =>
    '(r, pkey) <- call (EVP_PKEY_fromdata ctx None EVP_PKEY_PUBLIC_KEY params) ;;
    if r <=? 0
    then leave ret_ (log_openssl_errors "Failed to create RSA EVP_PKEY" [])
    else
    ret_ <- store ret_ pkey ;;
    ret (0, ret_)
    end end
  else
    rsa_key <- call RSA_new ;;
    match rsa_key with
    | None => leave ret_ (log_openssl_errors "Failed to create new RSA" [])
    | Some rsa_key =>
    '(r, rsa_key) <- call (RSA_set0_key rsa_key bn_n bn_e) ;;
    if r =? 0
    then leave ret_ (log_openssl_errors "Failed to set RSA n/e" [])
    else
    pkey <- call EVP_PKEY_new ;;
    match pkey with
    | None => leave ret_ (log_openssl_errors "Failed to create new EVP_PKEY" [])
    | Some pkey =>
    '(r, pkey) <- call (EVP_PKEY_assign_RSA pkey rsa_key) ;;
    if r =? 0
    then leave ret_ (log_openssl_errors "Failed to assign RSA key" [])
    else
    ret_ <- store ret_ (Some pkey) ;;
    ret (0, ret_)
    end end
  end end end.

(** ** rsa_pkey_to_n_e (lines 374-423) *)

(** Use of a pointer the code does not check: NULL is undefined behaviour. *)
Definition deref {A} (p : option A) : M A :=
  match p with
  | Some a => ret a
  | None => fun _ => Abort
  end.

(** [assert(BN_bn2bin(bn, buf) == (int) size)] *)
Definition bn2bin_into (bn : BIGNUM) (buf : bytes) (size : Z) : M bytes :=
  let '(r, written) := BN_bn2bin bn in
  buf <- write_buf buf written ;;
  assert (r =? to_int size) ;;;
  ret buf.

(** Lines 409-422: the two numbers are serialised and handed over. *)
Definition rsa_n_e_out (bn_n bn_e : BIGNUM)
    (ret_n : outp (option bytes)) (ret_n_size : outp Z)
    (ret_e : outp (option bytes)) (ret_e_size : outp Z)
  : M (Z * (outp (option bytes) * outp Z * outp (option bytes) * outp Z)) :=
  let outs := (ret_n, ret_n_size, ret_e, ret_e_size) in
  let n_size := to_size_t (BN_num_bytes bn_n) in
  let e_size := to_size_t (BN_num_bytes bn_e) in
  n <- malloc n_size ;;
  e <- malloc e_size ;;
  match n, e with
  | Some n, Some e =>
      n <- bn2bin_into bn_n n n_size ;;
      e <- bn2bin_into bn_e e e_size ;;
      ret_n <- store ret_n (Some n) ;;
      ret_n_size <- store ret_n_size n_size ;;
      ret_e <- store ret_e (Some e) ;;
      ret_e_size <- store ret_e_size e_size ;;
      ret (0, (ret_n, ret_n_size, ret_e, ret_e_size))
  | _, _ => leave outs log_oom_debug
  end.

Definition rsa_pkey_to_n_e (pkey : EVP_PKEY)
    (ret_n : outp (option bytes)) (ret_n_size : outp Z)
    (ret_e : outp (option bytes)) (ret_e_size : outp Z)
  : M (Z * (outp (option bytes) * outp Z * outp (option bytes) * outp Z)) :=
  let outs := (ret_n, ret_n_size, ret_e, ret_e_size) in
  assert (nonnull ret_n) ;;;
  assert (nonnull ret_n_size) ;;;
  assert (nonnull ret_e) ;;;
  assert (nonnull ret_e_size) ;;;
  if 3 <=? OPENSSL_VERSION_MAJOR then
    '(r, bn_n) <- call (EVP_PKEY_get_bn_param pkey OSSL_PKEY_PARAM_RSA_N None) ;;
    if r =? 0
    then leave outs (log_openssl_errors "Failed to get RSA n" [])
    else
    '(r, bn_e) <- call (EVP_PKEY_get_bn_param pkey OSSL_PKEY_PARAM_RSA_E None) ;;
    if r =? 0
    then leave outs (log_openssl_errors "Failed to get RSA e" [])
    else
    bn_n <- deref bn_n ;;
    bn_e <- deref bn_e ;;
    rsa_n_e_out bn_n bn_e ret_n ret_n_size ret_e ret_e_size
  else
    rsa <- call (EVP_PKEY_get0_RSA pkey) ;;
    match rsa with
    | None => leave outs (log_openssl_errors "Failed to get RSA key from public key" [])
    | Some rsa =>
    match RSA_get0_n rsa with
    | None => leave outs (log_openssl_errors "Failed to get RSA n" [])
    | Some bn_n =>
    match RSA_get0_e rsa with
    | None => leave outs (log_openssl_errors "Failed to get RSA e" [])
    | Some bn_e =>
    rsa_n_e_out bn_n bn_e ret_n ret_n_size ret_e ret_e_size
    end end end.

(** ** ecc_pkey_from_curve_x_y (lines 449-535) *)

(** [x] and [y] are byte lists: the [assert(x)] and [assert(y)] of lines
    457-458 have no counterpart here. *)
Definition ecc_pkey_from_curve_x_y (curve_id : Z) (x y : bytes)
    (ret_ : outp (option EVP_PKEY)) : M (Z * outp (option EVP_PKEY)) :=
  assert (nonnull ret_) ;;;
  ctx <- call (EVP_PKEY_CTX_new_id EVP_PKEY_EC) ;;
  match ctx with
  | None => leave ret_ (log_openssl_errors "Failed to create new EVP_PKEY_CTX" [])
  | Some ctx =>
  bn_x <- call (BN_bin2bn x) ;;
  match bn_x with
  | None => leave ret_ (log_openssl_errors "Failed to create BIGNUM x" [])
  | Some bn_x =>
  bn_y <- call (BN_bin2bn y) ;;
  match bn_y with
  | None => leave ret_ (log_openssl_errors "Failed to create BIGNUM y" [])
  | Some bn_y =>
  group <- call (EC_GROUP_new_by_curve_name curve_id) ;;
  match group with
  | None =>
      leave ret_ (log_openssl_errors "ECC curve id %d not supported" [IntArg curve_id])
  | Some group =>
  point <- call (EC_POINT_new group) ;;
  match point with
  | None => leave ret_ (log_openssl_errors "Failed to create new EC_POINT" [])
  | Some point =>
  '(r, point) <- call (EC_POINT_set_affine_coordinates group point bn_x bn_y) ;;
  if r =? 0
  then leave ret_ (log_openssl_errors "Failed to set ECC coordinates" [])
  else
  if 3 <=? OPENSSL_VERSION_MAJOR then
    '(r, ctx) <- call (EVP_PKEY_fromdata_init ctx) ;;
    if r <=? 0
    then leave ret_ (log_openssl_errors "Failed to initialize EVP_PKEY_CTX" [])
    else
    bld <- call OSSL_PARAM_BLD_new ;;
    match bld with
    | None => leave ret_ (log_openssl_errors "Failed to create new OSSL_PARAM_BLD" [])
    | Some bld =>
    '(r, bld) <- call (OSSL_PARAM_BLD_push_utf8_string bld OSSL_PKEY_PARAM_GROUP_NAME
                         (OSSL_EC_curve_nid2name curve_id)) ;;
    if r =? 0
    then leave ret_ (log_openssl_errors "Failed to add ECC OSSL_PKEY_PARAM_GROUP_NAME" [])
    else
    '(pbuf_len, pbuf) <- call (EC_POINT_point2buf group point
                                 POINT_CONVERSION_UNCOMPRESSED) ;;
    if pbuf_len =? 0
    then leave ret_ (log_openssl_errors "Failed to convert ECC point to buffer" [])
    else
    '(r, bld) <- call (OSSL_PARAM_BLD_push_octet_string bld OSSL_PKEY_PARAM_PUB_KEY
                         pbuf pbuf_len) ;;
    if r =? 0
    then leave ret_ (log_openssl_errors "Failed to add ECC OSSL_PKEY_PARAM_PUB_KEY" [])
    else
    params <- call (OSSL_PARAM_BLD_to_param bld) ;;
    match params with
    | None => leave ret_ (log_openssl_errors "Failed to build ECC OSSL_PARAM" [])
    | Some params =>
    '(r, pkey) <- call (EVP_PKEY_fromdata ctx None EVP_PKEY_PUBLIC_KEY params) ;;
    if r <=? 0
    then leave ret_ (log_openssl_errors "Failed to create ECC EVP_PKEY" [])
    else
    ret_ <- store ret_ pkey ;;
    ret (0, ret_)
    end end
  else
    eckey <- call EC_KEY_new ;;
    match eckey with
    | None => leave ret_ (log_openssl_errors "Failed to create new EC_KEY" [])
    | Some eckey =>
    '(r, eckey) <- call (EC_KEY_set_group eckey group) ;;
    if r =? 0
    then leave ret_ (log_openssl_errors "Failed to set ECC group" [])
    else
    '(r, eckey) <- call (EC_KEY_set_public_key eckey point) ;;
    if r =? 0
    then leave ret_ (log_openssl_errors "Failed to set ECC point" [])
    else
    pkey <- call EVP_PKEY_new ;;
    match pkey with
    | None => leave ret_ (log_openssl_errors "Failed to create new EVP_PKEY" [])
    | Some pkey =>
    '(r, pkey) <- call (EVP_PKEY_assign_EC_KEY pkey eckey) ;;
    if r =? 0
    then leave ret_ (log_openssl_errors "Failed to assign ECC key" [])
    else
    ret_ <- store ret_ (Some pkey) ;;
    ret (0, ret_)
    end end
  end end end end end.

(** ** ecc_pkey_to_curve_x_y (lines 537-617) *)

Definition ecc_outs : Type :=
  outp Z * outp (option bytes) * outp Z * outp (option bytes) * outp Z.

(** Lines 597-616: the coordinates are serialised; every output is
    optional. *)
Definition ecc_x_y_out (curve_id : Z) (bn_x bn_y : BIGNUM)
    (ret_curve_id : outp Z)
    (ret_x : outp (option bytes)) (ret_x_size : outp Z)
    (ret_y : outp (option bytes)) (ret_y_size : outp Z)
  : M (Z * ecc_outs) :=
  let outs := (ret_curve_id, ret_x, ret_x_size, ret_y, ret_y_size) in
  let x_size := to_size_t (BN_num_bytes bn_x) in
  let y_size := to_size_t (BN_num_bytes bn_y) in
  x <- malloc x_size ;;
  y <- malloc y_size ;;
  match x, y with
  | Some x, Some y =>
      x <- bn2bin_into bn_x x x_size ;;
      y <- bn2bin_into bn_y y y_size ;;
      ret (0, (store_opt ret_curve_id curve_id,
               store_opt ret_x (Some x), store_opt ret_x_size x_size,
               store_opt ret_y (Some y), store_opt ret_y_size y_size))
  | _, _ => leave outs log_oom_debug
  end.

Definition ecc_pkey_to_curve_x_y (pkey : EVP_PKEY)
    (ret_curve_id : outp Z)
    (ret_x : outp (option bytes)) (ret_x_size : outp Z)
    (ret_y : outp (option bytes)) (ret_y_size : outp Z)
  : M (Z * ecc_outs) :=
  let outs := (ret_curve_id, ret_x, ret_x_size, ret_y, ret_y_size) in
  if 3 <=? OPENSSL_VERSION_MAJOR then
    '(r, _, name_size) <- call (EVP_PKEY_get_utf8_string_param pkey
                                  OSSL_PKEY_PARAM_GROUP_NAME None) ;;
    if r =? 0
    then leave outs (log_openssl_errors "Failed to get ECC group name size" [])
    else
    name <- malloc (to_size_t (name_size + 1)) ;;
    match name with
    | None => leave outs log_oom_debug
    | Some _ =>
    '(r, name, _) <- call (EVP_PKEY_get_utf8_string_param pkey
                             OSSL_PKEY_PARAM_GROUP_NAME
                             (Some (to_size_t (name_size + 1)))) ;;
    if r =? 0
    then leave outs (log_openssl_errors "Failed to get ECC group name" [])
    else
    let curve_id := OBJ_sn2nid name in
    if curve_id =? NID_undef
    then leave outs (log_openssl_errors "Failed to get ECC curve id" [])
    else
    '(r, bn_x) <- call (EVP_PKEY_get_bn_param pkey OSSL_PKEY_PARAM_EC_PUB_X None) ;;
    if r =? 0
    then leave outs (log_openssl_errors "Failed to get ECC point x" [])
    else
    '(r, bn_y) <- call (EVP_PKEY_get_bn_param pkey OSSL_PKEY_PARAM_EC_PUB_Y None) ;;
    if r =? 0
    then leave outs (log_openssl_errors "Failed to get ECC point y" [])
    else
    bn_x <- deref bn_x ;;
    bn_y <- deref bn_y ;;
    ecc_x_y_out curve_id bn_x bn_y ret_curve_id ret_x ret_x_size ret_y ret_y_size
    end
  else
    eckey <- call (EVP_PKEY_get0_EC_KEY pkey) ;;
    match eckey with
    | None => leave outs (log_openssl_errors "Failed to get EC_KEY" [])
    | Some eckey =>
    match EC_KEY_get0_group eckey with
    | None => leave outs (log_openssl_errors "Failed to get EC_GROUP" [])
    | Some group =>
    let curve_id := EC_GROUP_get_curve_name group in
    if curve_id =? NID_undef
    then leave outs (log_openssl_errors "Failed to get ECC curve id" [])
    else
    match EC_KEY_get0_public_key eckey with
    | None => leave outs (log_openssl_errors "Failed to get EC_POINT" [])
    | Some point =>
    bn_x <- call BN_new ;;
    bn_y <- call BN_new ;;
    match bn_x, bn_y with
    | Some bn_x, Some bn_y =>
        '(r, bn_x, bn_y) <- call (EC_POINT_get_affine_coordinates group point
                                    bn_x bn_y) ;;
        if r =? 0
        then leave outs (log_openssl_errors "Failed to get ECC x/y." [])
        else
        ecc_x_y_out curve_id bn_x bn_y ret_curve_id ret_x ret_x_size ret_y ret_y_size
    | _, _ => leave outs (log_openssl_errors "Failed to create new BIGNUM" [])
    end end end end.

(** ** pubkey_fingerprint (lines 642-695) *)

Definition pubkey_fingerprint (pk : EVP_PKEY) (md : EVP_MD)
    (ret_ : outp (option bytes)) (ret_size : outp Z)
  : M (Z * (outp (option bytes) * outp Z)) :=
  let outs := (ret_, ret_size) in
  assert (nonnull ret_) ;;;
  assert (nonnull ret_size) ;;;
  '(sz, _) <- call (i2d_PublicKey pk false) ;;
  if sz <? 0
  then leave outs (log_openssl_errors "Unable to convert public key to DER format" [])
  else
  d <- malloc (to_size_t sz) ;;
  match d with
  | None => leave outs log_oom_debug
  | Some d =>
  '(lsz, written) <- call (i2d_PublicKey pk true) ;;
  d <- write_buf d written ;;
  if lsz <? 0
  then leave outs (log_openssl_errors "Unable to convert public key to DER format" [])
  else
  m <- call EVP_MD_CTX_new ;;
  match m with
  | None => leave outs (log_openssl_errors "Failed to create new EVP_MD_CTX" [])
  | Some m =>
  '(r, m) <- call (EVP_DigestInit_ex m md) ;;
  if negb (r =? 1)
  then leave outs (log_openssl_errors "Failed to initialize %s context"
                     [StrArg (EVP_MD_name md)])
  else
  '(r, m) <- call (EVP_DigestUpdate m (firstn (Z.to_nat lsz) d)) ;;
  if negb (r =? 1)
  then leave outs (log_openssl_errors "Failed to run %s context"
                     [StrArg (EVP_MD_name md)])
  else
  let msz := EVP_MD_size md in
  assert (0 <? msz) ;;;
  h <- malloc (to_size_t msz) ;;
  match h with
  | None => leave outs log_oom_debug
  | Some h =>
  '(r, written, umsz) <- call (EVP_DigestFinal_ex m) ;;
  h <- write_buf h written ;;
  if negb (r =? 1)
  then leave outs (log_openssl_errors "Failed to finalize hash context" [])
  else
  assert (umsz =? to_uint msz) ;;;
  ret_ <- store ret_ (Some h) ;;
  ret_size <- store ret_size (to_size_t msz) ;;
  ret (0, (ret_, ret_size))
  end end end.

(** ** digest_and_sign (lines 697-738) *)

(** Lines 707-714: the data pointer and the size handed to the provider. *)
Definition sign_input (data : option bytes) (size : Z) : M (option bytes * Z) :=
  if size =? 0
  then ret (Some [x00], size)   (* data = "" *)
  else
    assert (match data with Some _ => true | None => false end) ;;;
    if size =? SIZE_MAX
    then
      region <- deref data ;;
      size <- deref (strlen region) ;;
      ret (data, size)
    else ret (data, size).

(** Lines 716-737: the provider is driven with the pointer and size
    computed above. *)
Definition sign_with (md : option EVP_MD) (privkey : EVP_PKEY)
    (data : option bytes) (size : Z)
    (ret_ : outp (option bytes)) (ret_size : outp Z)
  : M (Z * (outp (option bytes) * outp Z)) :=
  let outs := (ret_, ret_size) in
  mdctx <- call EVP_MD_CTX_new ;;
  match mdctx with
  | None => leave outs (log_openssl_errors "Failed to create new EVP_MD_CTX" [])
  | Some mdctx =>
  '(r, mdctx) <- call (EVP_DigestSignInit mdctx md privkey) ;;
  if negb (r =? 1)
  then leave outs (log_openssl_errors "Failed to initialize signature context" [])
  else
  '(r, _, ss, mdctx) <- call (EVP_DigestSign mdctx None data size) ;;
  if negb (r =? 1)
  then leave outs (log_openssl_errors "Failed to determine size of signature" [])
  else
  sig <- malloc ss ;;
  match sig with
  | None => leave outs log_oom_debug
  | Some sig =>
  '(r, written, ss, mdctx) <- call (EVP_DigestSign mdctx (Some ss) data size) ;;
  sig <- write_buf sig written ;;
  if negb (r =? 1)
  then leave outs (log_openssl_errors "Failed to sign data" [])
  else
  ret_ <- store ret_ (Some sig) ;;
  ret_size <- store ret_size ss ;;
  ret (0, (ret_, ret_size))
  end end.

Definition digest_and_sign (md : option EVP_MD) (privkey : EVP_PKEY)
    (data : option bytes) (size : Z)
    (ret_ : outp (option bytes)) (ret_size : outp Z)
  : M (Z * (outp (option bytes) * outp Z)) :=
  assert (nonnull ret_) ;;;
  assert (nonnull ret_size) ;;;
  '(data, size) <- sign_input data size ;;
  sign_with md privkey data size ret_ ret_size.

End Layer.

Arguments Ret {prov A} a w.
Arguments Abort {prov A}.

(** ** Key generation and the certificate fingerprint

    The provider operations that only [rsa_pkey_new], [ecc_pkey_new] and
    [x509_fingerprint] use. *)

Class KeygenProvider (prov : Provider) : Type := {
  EVP_PKEY_keygen_init : EVP_PKEY_CTX -> ossl_call ossl_state (Z * EVP_PKEY_CTX);
  EVP_PKEY_CTX_set_rsa_keygen_bits :
    EVP_PKEY_CTX -> Z -> ossl_call ossl_state (Z * EVP_PKEY_CTX);
  EVP_PKEY_CTX_set_ec_paramgen_curve_nid :
    EVP_PKEY_CTX -> Z -> ossl_call ossl_state (Z * EVP_PKEY_CTX);
  (* context, current key pointer; result, key pointer *)
  EVP_PKEY_keygen :
    EVP_PKEY_CTX -> option EVP_PKEY -> ossl_call ossl_state (Z * option EVP_PKEY)
}.

Class X509Provider (prov : Provider) : Type := {
  X509 : Type;
  (* certificate, current buffer pointer (NULL: the provider allocates);
     result, buffer pointer *)
  i2d_X509 : X509 -> option bytes -> ossl_call ossl_state (Z * option bytes)
}.

Section Generation.

Context {prov : Provider} {gen : KeygenProvider prov} {certs : X509Provider prov}.

Notation "x <- m ;; k" := (bind m (fun x => k))
  (at level 61, m at next level, right associativity).
Notation "' pat <- m ;; k" := (bind m (fun x => match x with pat => k end))
  (at level 61, pat pattern, m at next level, right associativity).
Notation "m ;;; k" := (bind m (fun _ => k))
  (at level 61, right associativity).

(** ** rsa_pkey_new (lines 426-446) *)

Definition rsa_pkey_new (bits : Z) (ret_ : outp (option EVP_PKEY))
  : M (Z * outp (option EVP_PKEY)) :=
  assert (nonnull ret_) ;;;
  ctx <- call (EVP_PKEY_CTX_new_id EVP_PKEY_RSA) ;;
  match ctx with
  | None => leave ret_ (log_openssl_errors "Failed to create new EVP_PKEY_CTX" [])
  | Some ctx =>
  '(r, ctx) <- call (EVP_PKEY_keygen_init ctx) ;;
  if r <=? 0
  then leave ret_ (log_openssl_errors "Failed to initialize EVP_PKEY_CTX" [])
  else
  '(r, ctx) <- call (EVP_PKEY_CTX_set_rsa_keygen_bits ctx (to_int bits)) ;;
  if r <=? 0
  then leave ret_ (log_openssl_errors "Failed to set RSA bits to %zu" [IntArg bits])
  else
  '(r, pkey) <- call (EVP_PKEY_keygen ctx None) ;;
  if r <=? 0
  then leave ret_ (log_openssl_errors "Failed to generate ECC key" [])
  else
  ret_ <- store ret_ pkey ;;
  ret (0, ret_)
  end.

(** ** ecc_pkey_new (lines 620-640) *)

Definition ecc_pkey_new (curve_id : Z) (ret_ : outp (option EVP_PKEY))
  : M (Z * outp (option EVP_PKEY)) :=
  assert (nonnull ret_) ;;;
  ctx <- call (EVP_PKEY_CTX_new_id EVP_PKEY_EC) ;;
  match ctx with
  | None => leave ret_ (log_openssl_errors "Failed to create new EVP_PKEY_CTX" [])
  | Some ctx =>
  '(r, ctx) <- call (EVP_PKEY_keygen_init ctx) ;;
  if r <=? 0
  then leave ret_ (log_openssl_errors "Failed to initialize EVP_PKEY_CTX" [])
  else
  '(r, ctx) <- call (EVP_PKEY_CTX_set_ec_paramgen_curve_nid ctx curve_id) ;;
  if r <=? 0
  then leave ret_ (log_openssl_errors "Failed to set ECC curve %d" [IntArg curve_id])
  else
  '(r, pkey) <- call (EVP_PKEY_keygen ctx None) ;;
  if r <=? 0
  then leave ret_ (log_openssl_errors "Failed to generate ECC key" [])
  else
  ret_ <- store ret_ pkey ;;
  ret (0, ret_)
  end.

(** ** x509_fingerprint (lines 770-786) *)

(** The [size] bytes at a pointer the code reads without a check: reading
    through NULL or past the block is undefined behaviour; no byte is read
    when [size] is 0. *)
Definition read_buf (p : option bytes) (size : Z) : M bytes :=
  if size =? 0 then ret []
  else
    match p with
    | Some b =>
        if (Z.to_nat size <=? List.length b)%nat
        then ret (firstn (Z.to_nat size) b)
        else fun _ => Abort
    | None => fun _ => Abort
    end.

(** [HAVE_OPENSSL] is the build option of that name. The direct hash
    [sha256_direct] of [sha256.h] is a parameter: a function from the bytes
    hashed to the bytes it writes at the start of the caller's buffer. *)
Definition x509_fingerprint (HAVE_OPENSSL : bool) (sha256_direct : bytes -> bytes)
    (cert : X509) (buffer : bytes) : M (Z * bytes) :=
  if HAVE_OPENSSL then
    '(dersz, der) <- call (i2d_X509 cert None) ;;
    if dersz <? 0
    then leave buffer
           (log_openssl_errors "Unable to convert PEM certificate to DER format" [])
    else
    der <- read_buf der (to_size_t dersz) ;;
    buffer <- write_buf buffer (sha256_direct der) ;;
    ret (0, buffer)
  else
    leave buffer
      (log_debug_errno EOPNOTSUPP
         "openssl is not supported, cannot calculate X509 fingerprint: %m" []).

End Generation.

(** ** Vocabulary of the statements *)

(** The outcome of a run with its result passed through [f]. *)
Definition map_out {prov : Provider} {A B} (f : A -> B) (o : outcome A) : outcome B :=
  match o with
  | Ret a w => Ret (f a) w
  | Abort => Abort
  end.

(** A run of [m] that returns an error has left the outputs as [outs]. *)
Definition unwritten_on_error {prov : Provider} {O} (outs : O) (m : M (Z * O)) : Prop :=
  forall w r outs' w', m w = Ret (r, outs') w' -> r <> 0 -> outs' = outs.

(** Every run of [m] returns: no assertion fails and nothing undefined
    happens. *)
Definition returns {prov : Provider} {A} (m : M A) : Prop :=
  forall w, exists a w', m w = Ret a w'.

(** Value of a byte string read least significant byte first. *)
Definition le_value (l : bytes) : N :=
  fold_right (fun b acc => (acc * 256 + Byte.to_N b)%N) 0%N l.

(** An optional output pointer: [p] when the caller gives it, else NULL. *)
Definition keep {A} (given : bool) (p : outp A) : outp A :=
  if given then p else NULL.

(** The results of a digest or HMAC call whose size pointer is NULL. *)
Definition without_size {A} (x : Z * (outp A * outp Z)) : Z * (outp A * outp Z) :=
  let '(r, (d, _)) := x in (r, (d, NULL)).

(** The results of [ecc_pkey_to_curve_x_y] at the pointers that are given. *)
Definition keep_ecc (gc gx gxs gy gys : bool) (x : Z * ecc_outs) : Z * ecc_outs :=
  let '(r, (c, x, xs, y, ys)) := x in
  (r, (keep gc c, keep gx x, keep gxs xs, keep gy y, keep gys ys)).

(** Between [w] and [w'] nothing was logged, and the allocator only
    advanced. *)
Definition hushed {prov : Provider} (w w' : World) : Prop :=
  journal w' = journal w /\ exists n, heap w' = skipn n (heap w).

(** Between [w] and [w'] diagnostics were logged, the last of them with the
    errno of the result [r]. *)
Definition logged {prov : Provider} (r : Z) (w w' : World) : Prop :=
  exists l e, journal w' = journal w ++ l ++ [e] /\ log_errno e = - r.

(** A run from [w] to [w'] with the result [r]: success without a
    diagnostic, or one of the errnos [codes], negated, with diagnostics. *)
Definition report {prov : Provider} (codes : list Z) (w : World) (r : Z) (w' : World)
  : Prop :=
  (r = 0 /\ hushed w w') \/ (r < 0 /\ In (- r) codes /\ logged r w w').

(** No allocation fails from [w] on. *)
Definition steady {prov : Provider} (w : World) : Prop :=
  Forall (fun failing => failing = false) (heap w).

(** [m] returns 0 or one of the errnos [codes], negated. *)
Definition results_in {prov : Provider} {O} (codes : list Z) (m : M (Z * O)) : Prop :=
  forall w r o w', m w = Ret (r, o) w' -> r = 0 \/ In (- r) codes.

(** An error return of [m] has logged a diagnostic, the last one with the
    errno returned. *)
Definition logs_failure {prov : Provider} {O} (m : M (Z * O)) : Prop :=
  forall w r o w', m w = Ret (r, o) w' -> r <> 0 -> logged r w w'.

(** A successful run of [m] logs nothing. *)
Definition silent_on_success {prov : Provider} {O} (m : M (Z * O)) : Prop :=
  forall w r o w', m w = Ret (r, o) w' -> r = 0 -> journal w' = journal w.

(** [m] reports out-of-memory only when an allocation failed. *)
Definition oom_only_on_failed_allocation {prov : Provider} {O} (m : M (Z * O)) : Prop :=
  forall w r o w', m w = Ret (r, o) w' -> steady w -> r <> - ENOMEM.

(** What a run shows apart from the journal: the result, the provider
    state, the error queue and the allocator. *)
Definition effect {prov : Provider} {A} (o : outcome A)
  : option (A * ossl_state * list Z * list bool) :=
  match o with
  | Ret a w => Some (a, ossl w, err_queue w, heap w)
  | Abort => None
  end.

(** The diagnostic for a digest algorithm that the provider does not
    resolve. *)
Definition unsupported_entry (alg : string) : log_entry :=
  LogEntry LOG_DEBUG EOPNOTSUPP "Digest algorithm '%s' not supported." [StrArg alg].

(** The diagnostics of one drain of the error queue [q]. *)
Definition drain_entries {prov : Provider} (fmt : string) (args : list fmt_arg)
    (q : list Z) : list log_entry :=
  match q with
  | [] => [LogEntry LOG_DEBUG EIO (fmt ++ ": No openssl errors.")%string args]
  | _ =>
      map (fun E => LogEntry LOG_DEBUG EIO (fmt ++ ": %s")%string
                      (args ++ [StrArg (ERR_error_string_n E 512)])) q
  end.

(** The run of [openssl_digest_many] up to the second resolution of the
    name, the one [openssl_digest_size] makes at line 117: the name was
    resolved, the context created and initialised, every update succeeded,
    and the run has reached the world [w0]. *)
Definition reaches_size_query {prov : Provider} (alg : string) (data : list bytes) (w w0 : World) : Prop :=
  exists md wa ctx wb r1 ctx1 wc ctx2,
    md_fetch alg w = Ret (Some md) wa /\
    call EVP_MD_CTX_new wa = Ret (Some ctx) wb /\
    call (EVP_DigestInit_ex ctx md) wb = Ret (r1, ctx1) wc /\
    r1 <> 0 /\
    update_all EVP_DigestUpdate ctx1 data wc = Ret (true, ctx2) w0.

(** ** A provider that records what its signing call receives

    [spy P] is the provider [P] with a record added to its state: every
    call of [EVP_DigestSign] appends the data pointer and the size it was
    handed; nothing else changes. *)

Definition spied (S : Type) : Type := S * list (option bytes * Z).

(** A call that leaves the record alone. *)
Definition unseen {S A : Type} (op : ossl_call S A) : ossl_call (spied S) A :=
  fun st q => let '(a, s, q') := op (fst st) q in (a, (s, snd st), q').

Definition spy (P : Provider) : Provider := {|
  ossl_state := spied (@ossl_state P);
  OPENSSL_VERSION_MAJOR := @OPENSSL_VERSION_MAJOR P;
  EVP_MD := @EVP_MD P;
  EVP_MD_CTX := @EVP_MD_CTX P;
  EVP_MAC := @EVP_MAC P;
  EVP_MAC_CTX := @EVP_MAC_CTX P;
  HMAC_CTX := @HMAC_CTX P;
  OSSL_PARAM_BLD := @OSSL_PARAM_BLD P;
  OSSL_PARAM := @OSSL_PARAM P;
  EVP_PKEY := @EVP_PKEY P;
  EVP_PKEY_CTX := @EVP_PKEY_CTX P;
  BIGNUM := @BIGNUM P;
  RSA := @RSA P;
  EC_GROUP := @EC_GROUP P;
  EC_POINT := @EC_POINT P;
  EC_KEY := @EC_KEY P;
  ERR_error_string_n := @ERR_error_string_n P;
  PEM_read_PUBKEY := fun a1 => unseen (@PEM_read_PUBKEY P a1);
  EVP_MD_fetch := fun a1 => unseen (@EVP_MD_fetch P a1);
  EVP_get_digestbyname := fun a1 => unseen (@EVP_get_digestbyname P a1);
  EVP_MD_get_size := @EVP_MD_get_size P;
  EVP_MD_size := @EVP_MD_size P;
  EVP_MD_name := @EVP_MD_name P;
  EVP_MD_CTX_new := unseen (@EVP_MD_CTX_new P);
  EVP_DigestInit_ex := fun a1 a2 => unseen (@EVP_DigestInit_ex P a1 a2);
  EVP_DigestUpdate := fun a1 a2 => unseen (@EVP_DigestUpdate P a1 a2);
  EVP_DigestFinal_ex := fun a1 => unseen (@EVP_DigestFinal_ex P a1);
  EVP_MAC_fetch := fun a1 => unseen (@EVP_MAC_fetch P a1);
  EVP_MAC_CTX_new := fun a1 => unseen (@EVP_MAC_CTX_new P a1);
  EVP_MAC_init := fun a1 a2 a3 => unseen (@EVP_MAC_init P a1 a2 a3);
  EVP_MAC_update := fun a1 a2 => unseen (@EVP_MAC_update P a1 a2);
  EVP_MAC_CTX_get_mac_size := @EVP_MAC_CTX_get_mac_size P;
  EVP_MAC_final := fun a1 a2 => unseen (@EVP_MAC_final P a1 a2);
  HMAC_CTX_new := unseen (@HMAC_CTX_new P);
  HMAC_Init_ex := fun a1 a2 a3 => unseen (@HMAC_Init_ex P a1 a2 a3);
  HMAC_Update := fun a1 a2 => unseen (@HMAC_Update P a1 a2);
  HMAC_size := @HMAC_size P;
  HMAC_Final := fun a1 => unseen (@HMAC_Final P a1);
  OSSL_PARAM_BLD_new := unseen (@OSSL_PARAM_BLD_new P);
  OSSL_PARAM_BLD_push_utf8_string := fun a1 a2 a3 =>
    unseen (@OSSL_PARAM_BLD_push_utf8_string P a1 a2 a3);
  OSSL_PARAM_BLD_push_BN := fun a1 a2 a3 => unseen (@OSSL_PARAM_BLD_push_BN P a1 a2 a3);
  OSSL_PARAM_BLD_push_octet_string := fun a1 a2 a3 a4 =>
    unseen (@OSSL_PARAM_BLD_push_octet_string P a1 a2 a3 a4);
  OSSL_PARAM_BLD_to_param := fun a1 => unseen (@OSSL_PARAM_BLD_to_param P a1);
  BN_bin2bn := fun a1 => unseen (@BN_bin2bn P a1);
  BN_new := unseen (@BN_new P);
  BN_num_bytes := @BN_num_bytes P;
  BN_bn2bin := @BN_bn2bin P;
  EVP_PKEY_base_id := @EVP_PKEY_base_id P;
  EVP_PKEY_bits := @EVP_PKEY_bits P;
  EVP_PKEY_new := unseen (@EVP_PKEY_new P);
  EVP_PKEY_CTX_new := fun a1 => unseen (@EVP_PKEY_CTX_new P a1);
  EVP_PKEY_CTX_new_id := fun a1 => unseen (@EVP_PKEY_CTX_new_id P a1);
  EVP_PKEY_fromdata_init := fun a1 => unseen (@EVP_PKEY_fromdata_init P a1);
  EVP_PKEY_fromdata := fun a1 a2 a3 a4 => unseen (@EVP_PKEY_fromdata P a1 a2 a3 a4);
  EVP_PKEY_get_bn_param := fun a1 a2 a3 => unseen (@EVP_PKEY_get_bn_param P a1 a2 a3);
  EVP_PKEY_get_utf8_string_param := fun a1 a2 a3 =>
    unseen (@EVP_PKEY_get_utf8_string_param P a1 a2 a3);
  EVP_PKEY_encrypt_init := fun a1 => unseen (@EVP_PKEY_encrypt_init P a1);
  EVP_PKEY_CTX_set_rsa_padding := fun a1 a2 =>
    unseen (@EVP_PKEY_CTX_set_rsa_padding P a1 a2);
  EVP_PKEY_encrypt := fun a1 a2 a3 => unseen (@EVP_PKEY_encrypt P a1 a2 a3);
  RSA_new := unseen (@RSA_new P);
  RSA_set0_key := fun a1 a2 a3 => unseen (@RSA_set0_key P a1 a2 a3);
  EVP_PKEY_assign_RSA := fun a1 a2 => unseen (@EVP_PKEY_assign_RSA P a1 a2);
  EVP_PKEY_get0_RSA := fun a1 => unseen (@EVP_PKEY_get0_RSA P a1);
  RSA_get0_n := @RSA_get0_n P;
  RSA_get0_e := @RSA_get0_e P;
  EC_GROUP_new_by_curve_name := fun a1 => unseen (@EC_GROUP_new_by_curve_name P a1);
  EC_POINT_new := fun a1 => unseen (@EC_POINT_new P a1);
  EC_POINT_set_affine_coordinates := fun a1 a2 a3 a4 =>
    unseen (@EC_POINT_set_affine_coordinates P a1 a2 a3 a4);
  OSSL_EC_curve_nid2name := @OSSL_EC_curve_nid2name P;
  EC_POINT_point2buf := fun a1 a2 a3 => unseen (@EC_POINT_point2buf P a1 a2 a3);
  OBJ_sn2nid := @OBJ_sn2nid P;
  EC_KEY_new := unseen (@EC_KEY_new P);
  EC_KEY_set_group := fun a1 a2 => unseen (@EC_KEY_set_group P a1 a2);
  EC_KEY_set_public_key := fun a1 a2 => unseen (@EC_KEY_set_public_key P a1 a2);
  EVP_PKEY_assign_EC_KEY := fun a1 a2 => unseen (@EVP_PKEY_assign_EC_KEY P a1 a2);
  EVP_PKEY_get0_EC_KEY := fun a1 => unseen (@EVP_PKEY_get0_EC_KEY P a1);
  EC_KEY_get0_group := @EC_KEY_get0_group P;
  EC_GROUP_get_curve_name := @EC_GROUP_get_curve_name P;
  EC_KEY_get0_public_key := @EC_KEY_get0_public_key P;
  EC_POINT_get_affine_coordinates := fun a1 a2 a3 a4 =>
    unseen (@EC_POINT_get_affine_coordinates P a1 a2 a3 a4);
  i2d_PublicKey := fun a1 a2 => unseen (@i2d_PublicKey P a1 a2);
  EVP_DigestSignInit := fun a1 a2 a3 => unseen (@EVP_DigestSignInit P a1 a2 a3);
  EVP_DigestSign := fun ctx sig data size st q =>
    let '(a, s, q') := @EVP_DigestSign P ctx sig data size (fst st) q in
    (a, (s, snd st ++ [(data, size)]), q')
|}.

(** What the signing calls have received so far. *)
Definition seen {P : Provider} (w : World (prov := spy P)) : list (option bytes * Z) :=
  snd (ossl w).

(** The world and the outcome without the record. *)
Definition erase {P : Provider} (w : World (prov := spy P)) : World (prov := P) :=
  mkWorld (prov := P) (fst (ossl w)) (err_queue w) (journal w) (heap w).

Definition erase_out {P : Provider} {A : Type} (o : outcome (prov := spy P) A)
  : outcome (prov := P) A :=
  match o with
  | Ret a w => Ret a (erase w)
  | Abort => Abort
  end.

(** ** What the round trips assume of the provider

    The contents of provider objects are given by observation functions,
    and each law says what one provider call does to them when it reports
    success. Nothing is said about when a call succeeds. *)

Inductive param_value : Type :=
| PBN (n : N)
| PUtf8 (s : string)
| POctet (b : bytes).

Class KeyView (prov : Provider) : Type := {
  bn_val : BIGNUM -> N;
  bld_items : OSSL_PARAM_BLD -> list (string * param_value);
  param_items : OSSL_PARAM -> list (string * param_value);
  ctx_alg : EVP_PKEY_CTX -> Z;
  pkey_rsa : EVP_PKEY -> option (N * N);
  pkey_ec : EVP_PKEY -> option (Z * N * N);
  rsa_n_e : RSA -> option (N * N);
  group_nid : EC_GROUP -> Z;
  point_xy : EC_POINT -> option (N * N);
  eckey_nid : EC_KEY -> option Z;
  eckey_xy : EC_KEY -> option (N * N);
  (* the provider's test that a point lies on a named curve *)
  ec_on_curve : Z -> N -> N -> bool;
  (* the representative the provider keeps of a coordinate *)
  ec_canon : Z -> N -> N;
  (* the uncompressed encoding of a point of a named curve *)
  ec_octets : Z -> N -> N -> bytes
}.

Class KeyContract (prov : Provider) (view : KeyView prov) : Prop := {
  (* big numbers *)
  BN_bin2bn_val : forall bs s q b s' q',
    BN_bin2bn bs s q = (Some b, s', q') -> bn_val b = be_value bs;
  BN_num_bytes_val : forall b,
    BN_num_bytes b = Z.of_nat (List.length (be_minimal (bn_val b)));
  BN_bn2bin_val : forall b,
    BN_bn2bin b = (Z.of_nat (List.length (be_minimal (bn_val b))), be_minimal (bn_val b));

  (* parameter lists *)
  BLD_new_items : forall s q b s' q',
    OSSL_PARAM_BLD_new s q = (Some b, s', q') -> bld_items b = [];
  BLD_push_BN_items : forall b k bn s q r b' s' q',
    OSSL_PARAM_BLD_push_BN b k bn s q = (r, b', s', q') -> r <> 0 ->
    bld_items b' = bld_items b ++ [(k, PBN (bn_val bn))];
  BLD_push_utf8_items : forall b k v s q r b' s' q',
    OSSL_PARAM_BLD_push_utf8_string b k (Some v) s q = (r, b', s', q') -> r <> 0 ->
    bld_items b' = bld_items b ++ [(k, PUtf8 v)];
  BLD_push_octet_items : forall b k v s q r b' s' q',
    OSSL_PARAM_BLD_push_octet_string b k (Some v) (Z.of_nat (List.length v)) s q
      = (r, b', s', q') -> r <> 0 ->
    bld_items b' = bld_items b ++ [(k, POctet v)];
  BLD_to_param_items : forall b s q p s' q',
    OSSL_PARAM_BLD_to_param b s q = (Some p, s', q') -> param_items p = bld_items b;

  (* key construction from parameters *)
  CTX_new_id_alg : forall id s q c s' q',
    EVP_PKEY_CTX_new_id id s q = (Some c, s', q') -> ctx_alg c = id;
  fromdata_init_alg : forall c s q r c' s' q',
    EVP_PKEY_fromdata_init c s q = (r, c', s', q') -> 0 < r -> ctx_alg c' = ctx_alg c;
  fromdata_rsa : forall c sel p n e s q r k s' q',
    EVP_PKEY_fromdata c None sel p s q = (r, k, s', q') -> 0 < r ->
    ctx_alg c = EVP_PKEY_RSA ->
    param_items p = [(OSSL_PKEY_PARAM_RSA_N, PBN n); (OSSL_PKEY_PARAM_RSA_E, PBN e)] ->
    exists key, k = Some key /\ pkey_rsa key = Some (n, e);
  fromdata_ec : forall c sel p nid name x y s q r k s' q',
    EVP_PKEY_fromdata c None sel p s q = (r, k, s', q') -> 0 < r ->
    ctx_alg c = EVP_PKEY_EC ->
    OSSL_EC_curve_nid2name nid = Some name ->
    ec_canon nid x = x -> ec_canon nid y = y ->
    param_items p = [(OSSL_PKEY_PARAM_GROUP_NAME, PUtf8 name);
                     (OSSL_PKEY_PARAM_PUB_KEY, POctet (ec_octets nid x y))] ->
    exists key, k = Some key /\ pkey_ec key = Some (nid, x, y);

  (* key parameters read back *)
  get_bn_rsa_n : forall key n e s q r b s' q',
    EVP_PKEY_get_bn_param key OSSL_PKEY_PARAM_RSA_N None s q = (r, b, s', q') ->
    r <> 0 -> pkey_rsa key = Some (n, e) ->
    exists bn, b = Some bn /\ bn_val bn = n;
  get_bn_rsa_e : forall key n e s q r b s' q',
    EVP_PKEY_get_bn_param key OSSL_PKEY_PARAM_RSA_E None s q = (r, b, s', q') ->
    r <> 0 -> pkey_rsa key = Some (n, e) ->
    exists bn, b = Some bn /\ bn_val bn = e;
  get_bn_ec_x : forall key nid x y s q r b s' q',
    EVP_PKEY_get_bn_param key OSSL_PKEY_PARAM_EC_PUB_X None s q = (r, b, s', q') ->
    r <> 0 -> pkey_ec key = Some (nid, x, y) ->
    exists bn, b = Some bn /\ bn_val bn = x;
  get_bn_ec_y : forall key nid x y s q r b s' q',
    EVP_PKEY_get_bn_param key OSSL_PKEY_PARAM_EC_PUB_Y None s q = (r, b, s', q') ->
    r <> 0 -> pkey_ec key = Some (nid, x, y) ->
    exists bn, b = Some bn /\ bn_val bn = y;
  get_group_name : forall key nid x y cap s q r name len s' q',
    EVP_PKEY_get_utf8_string_param key OSSL_PKEY_PARAM_GROUP_NAME (Some cap) s q
      = (r, name, len, s', q') ->
    r <> 0 -> pkey_ec key = Some (nid, x, y) ->
    OSSL_EC_curve_nid2name nid = Some name;

  (* RSA objects of the older generation *)
  RSA_set0_key_n_e : forall rsa bn_n bn_e s q r rsa' s' q',
    RSA_set0_key rsa bn_n bn_e s q = (r, rsa', s', q') -> r <> 0 ->
    rsa_n_e rsa' = Some (bn_val bn_n, bn_val bn_e);
  assign_RSA_key : forall pkey rsa ne s q r pkey' s' q',
    EVP_PKEY_assign_RSA pkey rsa s q = (r, pkey', s', q') -> r <> 0 ->
    rsa_n_e rsa = Some ne -> pkey_rsa pkey' = Some ne;
  get0_RSA_key : forall key ne s q rsa s' q',
    EVP_PKEY_get0_RSA key s q = (Some rsa, s', q') ->
    pkey_rsa key = Some ne -> rsa_n_e rsa = Some ne;
  RSA_get0_n_val : forall rsa n e bn,
    RSA_get0_n rsa = Some bn -> rsa_n_e rsa = Some (n, e) -> bn_val bn = n;
  RSA_get0_e_val : forall rsa n e bn,
    RSA_get0_e rsa = Some bn -> rsa_n_e rsa = Some (n, e) -> bn_val bn = e;

  (* curves and points *)
  group_by_name_nid : forall nid s q g s' q',
    EC_GROUP_new_by_curve_name nid s q = (Some g, s', q') -> group_nid g = nid;
  group_by_name_known : forall nid s q g s' q',
    EC_GROUP_new_by_curve_name nid s q = (Some g, s', q') ->
    exists name, OSSL_EC_curve_nid2name nid = Some name;
  curve_name_nid : forall nid name,
    OSSL_EC_curve_nid2name nid = Some name -> OBJ_sn2nid name = nid;
  group_curve_name : forall g, EC_GROUP_get_curve_name g = group_nid g;
  ec_canon_idem : forall nid x, ec_canon nid (ec_canon nid x) = ec_canon nid x;
  set_affine_point : forall g pt bx by_ s q r pt' s' q',
    EC_POINT_set_affine_coordinates g pt bx by_ s q = (r, pt', s', q') -> r <> 0 ->
    ec_on_curve (group_nid g) (bn_val bx) (bn_val by_) = true /\
    point_xy pt' = Some (ec_canon (group_nid g) (bn_val bx),
                         ec_canon (group_nid g) (bn_val by_));
  point2buf_octets : forall g pt form s q len buf x y s' q',
    EC_POINT_point2buf g pt form s q = (len, buf, s', q') -> len <> 0 ->
    form = POINT_CONVERSION_UNCOMPRESSED ->
    point_xy pt = Some (x, y) ->
    buf = Some (ec_octets (group_nid g) x y) /\
    len = Z.of_nat (List.length (ec_octets (group_nid g) x y));

  (* curve objects of the older generation *)
  set_group_key : forall ek g s q r ek' s' q',
    EC_KEY_set_group ek g s q = (r, ek', s', q') -> r <> 0 ->
    eckey_nid ek' = Some (group_nid g);
  set_public_key_key : forall ek pt s q r ek' s' q',
    EC_KEY_set_public_key ek pt s q = (r, ek', s', q') -> r <> 0 ->
    eckey_nid ek' = eckey_nid ek /\ eckey_xy ek' = point_xy pt;
  assign_EC_KEY_key : forall pkey ek nid xy s q r pkey' s' q',
    EVP_PKEY_assign_EC_KEY pkey ek s q = (r, pkey', s', q') -> r <> 0 ->
    eckey_nid ek = Some nid -> eckey_xy ek = Some xy ->
    pkey_ec pkey' = Some (nid, fst xy, snd xy);
  get0_EC_KEY_key : forall key nid x y s q ek s' q',
    EVP_PKEY_get0_EC_KEY key s q = (Some ek, s', q') ->
    pkey_ec key = Some (nid, x, y) ->
    eckey_nid ek = Some nid /\ eckey_xy ek = Some (x, y);
  get0_group_nid : forall ek g nid,
    EC_KEY_get0_group ek = Some g -> eckey_nid ek = Some nid -> group_nid g = nid;
  get0_public_key_xy : forall ek pt xy,
    EC_KEY_get0_public_key ek = Some pt -> eckey_xy ek = Some xy ->
    point_xy pt = Some xy;
  get_affine_xy : forall g pt bx by_ x y s q r bx' by' s' q',
    EC_POINT_get_affine_coordinates g pt bx by_ s q = (r, bx', by', s', q') ->
    r <> 0 -> point_xy pt = Some (x, y) ->
    bn_val bx' = x /\ bn_val by' = y
}.

(** ** A reference provider

    An executable provider used to run the layer on concrete inputs. Its
    bookkeeping is meant seriously: big numbers, parameter lists, key
    components, named curves, sizes, and failures injected from a plan.
    The cryptographic transformations themselves (digest values,
    ciphertexts, signatures, DER and PEM coding) are placeholders of the
    right length.

    The library state is a failure plan: every fallible call consumes its
    head; a nonzero head makes the call fail and queues that error code. *)

Module Ref.

Definition state : Type := list Z.

(** Error code queued when a call fails for a reason of its own. *)
Definition ERR_REASON : Z := 101.

Definition attempt {A : Type} (failure : A) (result : option A) : ossl_call state A :=
  fun s q =>
    let '(fault, s') := match s with [] => (0, []) | e :: s' => (e, s') end in
    if fault =? 0
    then match result with
         | Some a => (a, s', q)
         | None => (failure, s', q ++ [ERR_REASON])
         end
    else (failure, s', q ++ [fault]).

(** Digest algorithms: name and output size; size 0 stands for a
    variable-length algorithm. *)
Definition digest_sizes : list (string * Z) :=
  [("md5", 16); ("sha1", 20); ("sha256", 32); ("sha384", 48); ("sha512", 64);
   ("shake128", 0)].

Fixpoint assoc {A : Type} (k : string) (l : list (string * A)) : option A :=
  match l with
  | [] => None
  | (k', v) :: rest => if String.eqb k k' then Some v else assoc k rest
  end.

Definition md_lookup (name : string) : option string :=
  match assoc name digest_sizes with
  | Some _ => Some name
  | None => None
  end.

Definition md_size_of (md : string) : Z :=
  match assoc md digest_sizes with
  | Some n => n
  | None => 0
  end.

(** Placeholder for a digest value: [size] bytes derived from the input. *)
Definition mix (data : bytes) (size : Z) : bytes :=
  map (fun i => low_byte (be_value data + N.of_nat i)%N) (seq 0 (Z.to_nat size)).

Record md_ctx : Type := MdCtx {
  md_alg : option string;
  md_key : bytes;
  md_data : bytes;
  md_sig_size : Z      (* signing contexts: size of a signature *)
}.

Inductive pkey : Type :=
| KeyEmpty
| KeyRSA (n e : N)
| KeyEC (nid : Z) (x y : N).

Inductive pkey_ctx : Type :=
| CtxId (id : Z)
| CtxKey (k : pkey).

(** Named curves: identifier, short name, and the field prime and
    coefficients of y^2 = x^3 + a x + b. *)
Record curve : Type := Curve {
  curve_nid : Z;
  curve_name : string;
  curve_p : N;
  curve_a : N;
  curve_b : N;
  curve_len : nat      (* bytes per coordinate *)
}.

Definition prime256v1 : curve :=
  Curve 415 "prime256v1"
    0xffffffff00000001000000000000000000000000ffffffffffffffffffffffff
    0xffffffff00000001000000000000000000000000fffffffffffffffffffffffc
    0x5ac635d8aa3a93e7b3ebbd55769886bc651d06b0cc53b0f63bce3c3e27d2604b
    32.

(** The base point of prime256v1. *)
Definition prime256v1_Gx : N :=
  0x6b17d1f2e12c4247f8bce6e563a440f277037d812deb33a0f4a13945d898c296.
Definition prime256v1_Gy : N :=
  0x4fe342e2fe1a7f9b8ee7eb4a7c0f9e162bce33576b315ececbb6406837bf51f5.

Definition curves : list curve := [prime256v1].

Definition curve_by_nid (nid : Z) : option curve :=
  find (fun c => curve_nid c =? nid) curves.

Definition curve_by_name (name : string) : option curve :=
  find (fun c => String.eqb (curve_name c) name) curves.

Definition canon (nid : Z) (x : N) : N :=
  match curve_by_nid nid with
  | Some c => (x mod curve_p c)%N
  | None => x
  end.

Definition on_curve (nid : Z) (x y : N) : bool :=
  match curve_by_nid nid with
  | Some c =>
      let p := curve_p c in
      let x := (x mod p)%N in
      let y := (y mod p)%N in
      ((y * y) mod p =? (x * x * x + curve_a c * x + curve_b c) mod p)%N
  | None => false
  end.

(** Big-endian encoding on exactly [len] bytes (longer when [n] does not
    fit). *)
Definition be_fixed (len : nat) (n : N) : bytes :=
  let d := be_minimal n in
  repeat x00 (len - List.length d) ++ d.

Definition octets (nid : Z) (x y : N) : bytes :=
  match curve_by_nid nid with
  | Some c => x04 :: be_fixed (curve_len c) x ++ be_fixed (curve_len c) y
  | None => []
  end.

(** Reading an uncompressed point of the curve [c]. *)
Definition point_of_octets (c : curve) (b : bytes) : option (N * N) :=
  match b with
  | tag :: rest =>
      if Byte.eqb tag x04 && (List.length rest =? 2 * curve_len c)%nat
      then
        let x := be_value (firstn (curve_len c) rest) in
        let y := be_value (skipn (curve_len c) rest) in
        if ((x <? curve_p c) && (y <? curve_p c))%N && on_curve (curve_nid c) x y
        then Some (x, y)
        else None
      else None
  | [] => None
  end.

Definition items : Type := list (string * param_value).

Definition item_bn (k : string) (l : items) : option N :=
  match assoc k l with Some (PBN n) => Some n | _ => None end.
Definition item_utf8 (k : string) (l : items) : option string :=
  match assoc k l with Some (PUtf8 s) => Some s | _ => None end.
Definition item_octet (k : string) (l : items) : option bytes :=
  match assoc k l with Some (POctet b) => Some b | _ => None end.

Definition key_of_items (id : Z) (l : items) : option pkey :=
  if id =? EVP_PKEY_RSA then
    match item_bn OSSL_PKEY_PARAM_RSA_N l, item_bn OSSL_PKEY_PARAM_RSA_E l with
    | Some n, Some e => Some (KeyRSA n e)
    | _, _ => None
    end
  else if id =? EVP_PKEY_EC then
    match item_utf8 OSSL_PKEY_PARAM_GROUP_NAME l, item_octet OSSL_PKEY_PARAM_PUB_KEY l with
    | Some name, Some b =>
        match curve_by_name name with
        | Some c =>
            match point_of_octets c b with
            | Some (x, y) => Some (KeyEC (curve_nid c) x y)
            | None => None
            end
        | None => None
        end
    | _, _ => None
    end
  else None.

Definition key_bn (k : pkey) (name : string) : option N :=
  match k with
  | KeyRSA n e =>
      if String.eqb name OSSL_PKEY_PARAM_RSA_N then Some n
      else if String.eqb name OSSL_PKEY_PARAM_RSA_E then Some e
      else None
  | KeyEC _ x y =>
      if String.eqb name OSSL_PKEY_PARAM_EC_PUB_X then Some x
      else if String.eqb name OSSL_PKEY_PARAM_EC_PUB_Y then Some y
      else None
  | KeyEmpty => None
  end.

Definition key_group_name (k : pkey) : option string :=
  match k with
  | KeyEC nid _ _ => option_map curve_name (curve_by_nid nid)
  | _ => None
  end.

Definition strlenZ (s : string) : Z := Z.of_nat (String.length s).

Definition base_id (k : pkey) : Z :=
  match k with
  | KeyEmpty => 0
  | KeyRSA _ _ => EVP_PKEY_RSA
  | KeyEC _ _ _ => EVP_PKEY_EC
  end.

Definition bits (k : pkey) : Z :=
  match k with
  | KeyEmpty => 0
  | KeyRSA n _ => Z.of_N (N.size n)
  | KeyEC nid _ _ =>
      match curve_by_nid nid with
      | Some c => Z.of_N (N.size (curve_p c))
      | None => 0
      end
  end.

(** Size of what an asymmetric operation with the key produces. *)
Definition key_out_size (k : pkey) : Z :=
  match k with
  | KeyEmpty => 0
  | KeyRSA n _ => Z.of_nat (List.length (be_minimal n))
  | KeyEC nid _ _ =>
      match curve_by_nid nid with
      | Some c => 2 * Z.of_nat (curve_len c)
      | None => 0
      end
  end.

(** Placeholder for the DER form of a public key. *)
Definition der (k : pkey) : option bytes :=
  match k with
  | KeyEmpty => None
  | KeyRSA n e => Some (be_minimal n ++ be_minimal e)
  | KeyEC nid x y => Some (octets nid x y)
  end.

Definition ctx_key (c : pkey_ctx) : option pkey :=
  match c with CtxKey k => Some k | CtxId _ => None end.

Definition rsa_ctx_key (c : pkey_ctx) : option pkey :=
  match c with CtxKey (KeyRSA n e) => Some (KeyRSA n e) | _ => None end.

Definition provider (major : Z) : Provider := {|
  ossl_state := state;
  OPENSSL_VERSION_MAJOR := major;
  EVP_MD := string;
  EVP_MD_CTX := md_ctx;
  EVP_MAC := string;
  EVP_MAC_CTX := md_ctx;
  HMAC_CTX := md_ctx;
  OSSL_PARAM_BLD := items;
  OSSL_PARAM := items;
  EVP_PKEY := pkey;
  EVP_PKEY_CTX := pkey_ctx;
  BIGNUM := N;
  RSA := option (N * N);
  EC_GROUP := Z;
  EC_POINT := Z * option (N * N);
  EC_KEY := option Z * option (N * N);

  ERR_error_string_n := fun e _ =>
    ("error:" ++ NilZero.string_of_int (Z.to_int e))%string;

  (* placeholder for PEM decoding: the bytes are read as an RSA modulus *)
  PEM_read_PUBKEY := fun f =>
    attempt None
      (match f with [] => None | _ => Some (Some (KeyRSA (be_value f) 65537)) end);

  EVP_MD_fetch := fun name => attempt None (option_map Some (md_lookup name));
  EVP_get_digestbyname := fun name => attempt None (option_map Some (md_lookup name));
  EVP_MD_get_size := md_size_of;
  EVP_MD_size := md_size_of;
  EVP_MD_name := fun md => md;
  EVP_MD_CTX_new := attempt None (Some (Some (MdCtx None [] [] 0)));
  EVP_DigestInit_ex := fun ctx md =>
    attempt (0, ctx) (Some (1, MdCtx (Some md) [] [] 0));
  EVP_DigestUpdate := fun ctx d =>
    attempt (0, ctx)
      (match md_alg ctx with
       | Some _ => Some (1, MdCtx (md_alg ctx) (md_key ctx) (md_data ctx ++ d) 0)
       | None => None
       end);
  EVP_DigestFinal_ex := fun ctx =>
    attempt (0, [], 0)
      (match md_alg ctx with
       | Some md => Some (1, mix (md_data ctx) (md_size_of md), md_size_of md)
       | None => None
       end);

  EVP_MAC_fetch := fun name =>
    attempt None (if String.eqb name "HMAC" then Some (Some name) else None);
  EVP_MAC_CTX_new := fun _ => attempt None (Some (Some (MdCtx None [] [] 0)));
  EVP_MAC_init := fun ctx key params =>
    attempt (0, ctx)
      (match item_utf8 OSSL_MAC_PARAM_DIGEST params with
       | Some name =>
           match md_lookup name with
           | Some md => Some (1, MdCtx (Some md) key [] 0)
           | None => None
           end
       | None => None
       end);
  EVP_MAC_update := fun ctx d =>
    attempt (0, ctx)
      (match md_alg ctx with
       | Some _ => Some (1, MdCtx (md_alg ctx) (md_key ctx) (md_data ctx ++ d) 0)
       | None => None
       end);
  EVP_MAC_CTX_get_mac_size := fun ctx =>
    match md_alg ctx with Some md => md_size_of md | None => 0 end;
  EVP_MAC_final := fun ctx outsize =>
    attempt (0, [], 0)
      (match md_alg ctx with
       | Some md =>
           if md_size_of md <=? outsize
           then Some (1, mix (md_key ctx ++ md_data ctx) (md_size_of md), md_size_of md)
           else None
       | None => None
       end);

  HMAC_CTX_new := attempt None (Some (Some (MdCtx None [] [] 0)));
  HMAC_Init_ex := fun ctx key md => attempt (0, ctx) (Some (1, MdCtx (Some md) key [] 0));
  HMAC_Update := fun ctx d =>
    attempt (0, ctx)
      (match md_alg ctx with
       | Some _ => Some (1, MdCtx (md_alg ctx) (md_key ctx) (md_data ctx ++ d) 0)
       | None => None
       end);
  HMAC_size := fun ctx =>
    match md_alg ctx with Some md => md_size_of md | None => 0 end;
  HMAC_Final := fun ctx =>
    attempt (0, [], 0)
      (match md_alg ctx with
       | Some md => Some (1, mix (md_key ctx ++ md_data ctx) (md_size_of md), md_size_of md)
       | None => None
       end);

  OSSL_PARAM_BLD_new := attempt None (Some (Some []));
  OSSL_PARAM_BLD_push_utf8_string := fun bld k v =>
    attempt (0, bld)
      (match v with Some v => Some (1, bld ++ [(k, PUtf8 v)]) | None => None end);
  OSSL_PARAM_BLD_push_BN := fun bld k bn =>
    attempt (0, bld) (Some (1, bld ++ [(k, PBN bn)]));
  OSSL_PARAM_BLD_push_octet_string := fun bld k v len =>
    attempt (0, bld)
      (match v with
       | Some v => Some (1, bld ++ [(k, POctet (firstn (Z.to_nat len) v))])
       | None => None
       end);
  OSSL_PARAM_BLD_to_param := fun bld => attempt None (Some (Some bld));

  BN_bin2bn := fun bs => attempt None (Some (Some (be_value bs)));
  BN_new := attempt None (Some (Some 0%N));
  BN_num_bytes := fun bn => Z.of_nat (List.length (be_minimal bn));
  BN_bn2bin := fun bn => (Z.of_nat (List.length (be_minimal bn)), be_minimal bn);

  EVP_PKEY_base_id := base_id;
  EVP_PKEY_bits := bits;
  EVP_PKEY_new := attempt None (Some (Some KeyEmpty));
  EVP_PKEY_CTX_new := fun k => attempt None (Some (Some (CtxKey k)));
  EVP_PKEY_CTX_new_id := fun id =>
    attempt None
      (if (id =? EVP_PKEY_RSA) || (id =? EVP_PKEY_EC) then Some (Some (CtxId id))
       else None);
  EVP_PKEY_fromdata_init := fun c =>
    attempt (0, c) (match c with CtxId _ => Some (1, c) | CtxKey _ => None end);
  EVP_PKEY_fromdata := fun c cur _ params =>
    attempt (0, cur)
      (match c with
       | CtxId id => option_map (fun k => (1, Some k)) (key_of_items id params)
       | CtxKey _ => None
       end);
  EVP_PKEY_get_bn_param := fun k name cur =>
    attempt (0, cur) (option_map (fun n => (1, Some n)) (key_bn k name));
  EVP_PKEY_get_utf8_string_param := fun k name cap =>
    attempt (0, "", 0)
      (if String.eqb name OSSL_PKEY_PARAM_GROUP_NAME then
         match key_group_name k, cap with
         | Some g, None => Some (1, "", strlenZ g)
         | Some g, Some c => if strlenZ g <? c then Some (1, g, strlenZ g) else None
         | None, _ => None
         end
       else None);

  EVP_PKEY_encrypt_init := fun c =>
    attempt (0, c) (option_map (fun _ => (1, c)) (rsa_ctx_key c));
  EVP_PKEY_CTX_set_rsa_padding := fun c _ =>
    attempt (0, c) (option_map (fun _ => (1, c)) (rsa_ctx_key c));
  (* placeholder ciphertext, as long as the modulus *)
  EVP_PKEY_encrypt := fun c out input =>
    attempt (0, [], 0)
      (match rsa_ctx_key c with
       | Some k =>
           if Z.of_nat (List.length input) + 11 <=? key_out_size k then
             match out with
             | None => Some (1, [], key_out_size k)
             | Some cap =>
                 if key_out_size k <=? cap
                 then Some (1, mix input (key_out_size k), key_out_size k)
                 else None
             end
           else None
       | None => None
       end);

  RSA_new := attempt None (Some (Some None));
  RSA_set0_key := fun rsa bn_n bn_e => attempt (0, rsa) (Some (1, Some (bn_n, bn_e)));
  EVP_PKEY_assign_RSA := fun k rsa =>
    attempt (0, k)
      (match rsa with Some (n, e) => Some (1, KeyRSA n e) | None => None end);
  EVP_PKEY_get0_RSA := fun k =>
    attempt None
      (match k with KeyRSA n e => Some (Some (Some (n, e))) | _ => None end);
  RSA_get0_n := fun rsa => option_map fst rsa;
  RSA_get0_e := fun rsa => option_map snd rsa;

  EC_GROUP_new_by_curve_name := fun nid =>
    attempt None (option_map (fun c => Some (curve_nid c)) (curve_by_nid nid));
  EC_POINT_new := fun g => attempt None (Some (Some (g, None)));
  EC_POINT_set_affine_coordinates := fun g pt bx by_ =>
    attempt (0, pt)
      (if on_curve g bx by_ then Some (1, (g, Some (canon g bx, canon g by_)))
       else None);
  OSSL_EC_curve_nid2name := fun nid => option_map curve_name (curve_by_nid nid);
  EC_POINT_point2buf := fun g pt form =>
    attempt (0, None)
      (match snd pt with
       | Some (x, y) =>
           if form =? POINT_CONVERSION_UNCOMPRESSED
           then Some (Z.of_nat (List.length (octets g x y)), Some (octets g x y))
           else None
       | None => None
       end);
  OBJ_sn2nid := fun name =>
    match curve_by_name name with Some c => curve_nid c | None => NID_undef end;

  EC_KEY_new := attempt None (Some (Some (None, None)));
  EC_KEY_set_group := fun ek g => attempt (0, ek) (Some (1, (Some g, snd ek)));
  EC_KEY_set_public_key := fun ek pt => attempt (0, ek) (Some (1, (fst ek, snd pt)));
  EVP_PKEY_assign_EC_KEY := fun k ek =>
    attempt (0, k)
      (match ek with
       | (Some nid, Some (x, y)) => Some (1, KeyEC nid x y)
       | _ => None
       end);
  EVP_PKEY_get0_EC_KEY := fun k =>
    attempt None
      (match k with
       | KeyEC nid x y => Some (Some (Some nid, Some (x, y)))
       | _ => None
       end);
  EC_KEY_get0_group := fun ek => fst ek;
  EC_GROUP_get_curve_name := fun g => g;
  EC_KEY_get0_public_key := fun ek =>
    match ek with
    | (Some nid, Some xy) => Some (nid, Some xy)
    | _ => None
    end;
  EC_POINT_get_affine_coordinates := fun g pt bx by_ =>
    attempt (0, bx, by_)
      (match snd pt with Some (x, y) => Some (1, x, y) | None => None end);

  i2d_PublicKey := fun k has_buf =>
    attempt (-1, [])
      (match der k with
       | Some d => Some (Z.of_nat (List.length d), if has_buf then d else [])
       | None => None
       end);
  EVP_DigestSignInit := fun ctx md k =>
    attempt (0, ctx)
      (match k with
       | KeyEmpty => None
       | _ => Some (1, MdCtx md [] [] (key_out_size k))
       end);
  (* placeholder signature, of the size the key produces *)
  EVP_DigestSign := fun ctx sig data size =>
    attempt (0, [], 0, ctx)
      (match data with
       | Some region =>
           let ss := md_sig_size ctx in
           match sig with
           | None => Some (1, [], ss, ctx)
           | Some cap =>
               if ss <=? cap
               then Some (1, mix (firstn (Z.to_nat size) region) ss, ss, ctx)
               else None
           end
       | None => None
       end)
|}.

(** What the objects of this provider hold. *)
Definition alg_of_ctx (c : pkey_ctx) : Z :=
  match c with CtxId id => id | CtxKey _ => 0 end.

Definition rsa_of_key (k : pkey) : option (N * N) :=
  match k with KeyRSA n e => Some (n, e) | _ => None end.

Definition ec_of_key (k : pkey) : option (Z * N * N) :=
  match k with KeyEC nid x y => Some (nid, x, y) | _ => None end.

Definition view (major : Z) : KeyView (provider major) :=
  @Build_KeyView (provider major)
    (fun n => n)               (* bn_val *)
    (fun l => l)               (* bld_items *)
    (fun l => l)               (* param_items *)
    alg_of_ctx                 (* ctx_alg *)
    rsa_of_key                 (* pkey_rsa *)
    ec_of_key                  (* pkey_ec *)
    (fun r => r)               (* rsa_n_e *)
    (fun g => g)               (* group_nid *)
    snd                        (* point_xy *)
    fst                        (* eckey_nid *)
    snd                        (* eckey_xy *)
    on_curve                   (* ec_on_curve *)
    canon                      (* ec_canon *)
    octets                     (* ec_octets *).

(** A world with a failure plan for the provider, queued errors and an
    allocator plan. *)
Definition world (major : Z) (plan errors : list Z) (alloc : list bool)
  : @World (provider major) :=
  @mkWorld (provider major) plan errors [] alloc.

End Ref.

(** The reference provider's key generation and certificates. A context
    that has its parameters holds the key it will generate; the key
    material is a placeholder: for RSA the modulus [2^(bits-1) + 1], for a
    curve its base point. A certificate is its DER form. *)

Module RefGen.

Definition rsa_template (bits : Z) : option Ref.pkey :=
  if 512 <=? bits
  then Some (Ref.KeyRSA (2 ^ Z.to_N (bits - 1) + 1) 65537)
  else None.

Definition ec_template (nid : Z) : option Ref.pkey :=
  if nid =? 415
  then Some (Ref.KeyEC 415 Ref.prime256v1_Gx Ref.prime256v1_Gy)
  else None.

Definition with_template (c : Ref.pkey_ctx) (id : Z) (k : option Ref.pkey)
  : option (Z * Ref.pkey_ctx) :=
  match c, k with
  | Ref.CtxId id', Some k => if id' =? id then Some (1, Ref.CtxKey k) else None
  | _, _ => None
  end.

Definition keygen (major : Z) : KeygenProvider (Ref.provider major) :=
  @Build_KeygenProvider (Ref.provider major)
    (* EVP_PKEY_keygen_init *)
    (fun c =>
       Ref.attempt (0, c)
         (match c with Ref.CtxId _ => Some (1, c) | Ref.CtxKey _ => None end))
    (* EVP_PKEY_CTX_set_rsa_keygen_bits *)
    (fun c bits =>
       Ref.attempt (0, c) (with_template c EVP_PKEY_RSA (rsa_template bits)))
    (* EVP_PKEY_CTX_set_ec_paramgen_curve_nid *)
    (fun c nid =>
       Ref.attempt (0, c) (with_template c EVP_PKEY_EC (ec_template nid)))
    (* EVP_PKEY_keygen *)
    (fun c cur =>
       Ref.attempt (0, cur)
         (match c with
          | Ref.CtxKey k => Some (1, Some k)
          | Ref.CtxId _ => None
          end)).

Definition certs (major : Z) : X509Provider (Ref.provider major) :=
  @Build_X509Provider (Ref.provider major)
    bytes
    (fun cert cur =>
       Ref.attempt (-1, cur)
         (match cert with
          | [] => None
          | _ => Some (Z.of_nat (List.length cert), Some cert)
          end)).

(** Placeholder for SHA-256: 32 bytes derived from the input. *)
Definition sha256_direct (data : bytes) : bytes := Ref.mix data 32.

End RefGen.

Arguments Ref.curve_by_nid : simpl never.
Arguments Ref.curve_by_name : simpl never.
Arguments Ref.on_curve : simpl never.
Arguments Ref.canon : simpl never.
Arguments Ref.octets : simpl never.
Arguments Ref.point_of_octets : simpl never.
Arguments Ref.key_of_items : simpl never.

(** * Properties of the layer *)

(** ** Big-endian encoding *)

Lemma be_value_rev l : be_value (rev l) = le_value l.
Proof.
  unfold be_value, le_value. rewrite <- (rev_involutive l) at 2.
  rewrite fold_left_rev_right. reflexivity.
Qed.

Lemma low_byte_to_N n : Byte.to_N (low_byte n) = (n mod 256)%N.
Proof.
  unfold low_byte.
  destruct (Byte.of_N (n mod 256)) as [b|] eqn:E.
  - apply Byte.to_of_N in E. exact E.
  - apply Byte.of_N_None_iff in E.
    pose proof (N.mod_upper_bound n 256 ltac:(discriminate)). lia.
Qed.

Lemma le_digits_value fuel n :
  (n < 256 ^ N.of_nat fuel)%N -> le_value (le_digits fuel n) = n.
Proof.
  revert n. induction fuel as [|fuel IH]; intros n Hn.
  - simpl in *. lia.
  - cbn [le_digits]. destruct (N.eqb_spec n 0) as [->|Hz]; [reflexivity|].
    cbn [le_value fold_right]. fold (le_value (le_digits fuel (n / 256))).
    rewrite IH.
    + rewrite low_byte_to_N. rewrite N.mul_comm. symmetry.
      apply N.div_mod. discriminate.
    + apply N.Div0.div_lt_upper_bound.
      rewrite Nat2N.inj_succ, N.pow_succ_r' in Hn. exact Hn.
Qed.

(** The fuel of [be_minimal] is enough. *)
Lemma size_bound n : (n < 256 ^ N.of_nat (N.to_nat (N.size n)))%N.
Proof.
  rewrite N2Nat.id.
  apply N.lt_le_trans with (2 ^ N.size n)%N.
  - apply N.size_gt.
  - change 256%N with (2 ^ 8)%N. rewrite <- N.pow_mul_r.
    apply N.pow_le_mono_r; lia.
Qed.

Lemma be_value_minimal n : be_value (be_minimal n) = n.
Proof.
  unfold be_minimal. rewrite be_value_rev. apply le_digits_value. apply size_bound.
Qed.

Lemma le_digits_last fuel n :
  (n < 256 ^ N.of_nat fuel)%N ->
  hd_error (rev (le_digits fuel n)) <> Some x00.
Proof.
  revert n. induction fuel as [|fuel IH]; intros n Hn.
  - simpl. discriminate.
  - cbn [le_digits]. destruct (N.eqb_spec n 0) as [->|Hz]; [simpl; discriminate|].
    assert (Hq : (n / 256 < 256 ^ N.of_nat fuel)%N).
    { apply N.Div0.div_lt_upper_bound.
      rewrite Nat2N.inj_succ, N.pow_succ_r' in Hn. exact Hn. }
    specialize (IH _ Hq). cbn [rev].
    destruct (rev (le_digits fuel (n / 256))) as [|b l] eqn:E.
    + simpl. intros Hb. inversion Hb as [Hb'].
      assert (Hd : le_digits fuel (n / 256) = []).
      { apply (f_equal (@rev byte)) in E. rewrite rev_involutive in E. exact E. }
      pose proof (le_digits_value fuel (n / 256) Hq) as Hv. rewrite Hd in Hv.
      simpl in Hv.
      pose proof (low_byte_to_N n) as Hl. rewrite Hb' in Hl. simpl in Hl.
      pose proof (N.div_mod n 256 ltac:(discriminate)). lia.
    + simpl. exact IH.
Qed.

Lemma be_minimal_no_leading_zero n : hd_error (be_minimal n) <> Some x00.
Proof. unfold be_minimal. apply le_digits_last. apply size_bound. Qed.

Lemma le_digits_length fuel n len :
  (n < 256 ^ N.of_nat len)%N -> (List.length (le_digits fuel n) <= len)%nat.
Proof.
  revert n len. induction fuel as [|fuel IH]; intros n len Hn; [simpl; lia|].
  cbn [le_digits]. destruct (N.eqb_spec n 0) as [->|Hz]; [simpl; lia|].
  destruct len as [|len]; [simpl in Hn; lia|].
  cbn [List.length]. apply le_n_S. apply IH.
  apply N.Div0.div_lt_upper_bound.
  rewrite Nat2N.inj_succ, N.pow_succ_r' in Hn. exact Hn.
Qed.

Lemma be_minimal_length n len :
  (n < 256 ^ N.of_nat len)%N -> (List.length (be_minimal n) <= len)%nat.
Proof.
  intros H. unfold be_minimal. rewrite length_rev. apply le_digits_length. exact H.
Qed.

Lemma be_value_app a b :
  be_value (a ++ b) =
  fold_left (fun acc c => (acc * 256 + Byte.to_N c)%N) b (be_value a).
Proof. unfold be_value. apply fold_left_app. Qed.

Lemma be_value_zeros k : be_value (repeat x00 k) = 0%N.
Proof.
  induction k as [|k IH]; [reflexivity|].
  change (repeat x00 (S k)) with ([x00] ++ repeat x00 k).
  rewrite be_value_app. exact IH.
Qed.

Lemma to_int_range z : - 2 ^ 31 <= to_int z < 2 ^ 31.
Proof.
  unfold to_int. pose proof (Z.mod_pos_bound (z + 2 ^ 31) (2 ^ 32) ltac:(lia)). lia.
Qed.

(** ** Runs *)

Section Runs.

Context {prov : Provider}.

(** ** Stepping through a run *)

Lemma bind_Ret {A B} (m : M A) (k : A -> M B) w b w' :
  bind m k w = Ret b w' ->
  exists a w1, m w = Ret a w1 /\ k a w1 = Ret b w'.
Proof.
  unfold bind. destruct (m w) as [a w1|]; [|discriminate].
  intros H. exists a, w1. auto.
Qed.

Lemma leave_Ret {O} (outs : O) (m : M Z) w r o w' :
  leave outs m w = Ret (r, o) w' -> o = outs /\ m w = Ret r w'.
Proof.
  unfold leave. intros H. apply bind_Ret in H as (a & w1 & Hm & Hk).
  unfold ret in Hk. inversion Hk; subst. auto.
Qed.

Lemma assert_Ret c w u w' : assert c w = Ret u w' -> c = true /\ w' = w.
Proof. unfold assert. destruct c; [|discriminate]. intros H; inversion H; auto. Qed.

Lemma call_Ret {A} (op : ossl_call ossl_state A) w a w' :
  call op w = Ret a w' ->
  exists s q, op (ossl w) (err_queue w) = (a, s, q) /\
              w' = mkWorld s q (journal w) (heap w).
Proof.
  unfold call. destruct (op (ossl w) (err_queue w)) as [[a0 s] q].
  intros H; inversion H; subst. eauto.
Qed.

Lemma call_total {A} (op : ossl_call ossl_state A) w :
  exists a w', call op w = Ret a w' /\ heap w' = heap w /\ journal w' = journal w.
Proof.
  unfold call. destruct (op (ossl w) (err_queue w)) as [[a0 s] q].
  eexists _, _. split; [reflexivity|]. auto.
Qed.

Lemma store_Ret {A} (p : outp A) v w p' w' :
  store p v w = Ret p' w' -> p' = Loc v /\ w' = w /\ nonnull p = true.
Proof.
  destruct p; simpl; [discriminate|]. unfold ret. intros H; inversion H; auto.
Qed.

Lemma malloc_Ret size w b w' :
  malloc size w = Ret b w' ->
  (b = None \/ b = Some (repeat x00 (Z.to_nat size))) /\
  (b = None <-> hd false (heap w) = true) /\
  ossl w' = ossl w /\ err_queue w' = err_queue w /\ journal w' = journal w /\
  heap w' = tl (heap w).
Proof.
  unfold malloc. destruct (heap w) as [|[|] h] eqn:Hh; intros H; inversion H; subst;
    simpl; rewrite ?Hh; simpl; repeat split; auto; try discriminate.
Qed.

Lemma deref_Ret {A} (p : option A) w a w' :
  deref p w = Ret a w' -> p = Some a /\ w' = w.
Proof.
  destruct p; simpl; [|discriminate]. unfold ret. intros H; inversion H; auto.
Qed.

Lemma bind_map_out {A B C} (m : M A) (k1 : A -> M B) (k2 : A -> M C) (f : C -> B) w :
  (forall a w1, m w = Ret a w1 -> k1 a w1 = map_out f (k2 a w1)) ->
  bind m k1 w = map_out f (bind m k2 w).
Proof.
  intros H. unfold bind. destruct (m w) as [a w1|]; [|reflexivity].
  apply H. reflexivity.
Qed.

Lemma leave_map_out {O1 O2} (f : Z * O2 -> Z * O1) (o1 : O1) (o2 : O2) (m : M Z) w :
  (forall r, f (r, o2) = (r, o1)) ->
  leave o1 m w = map_out f (leave o2 m w).
Proof.
  intros H. unfold leave, bind. destruct (m w) as [r w1|]; [|reflexivity].
  unfold ret. simpl. rewrite H. reflexivity.
Qed.

Lemma write_buf_Ret buf data w b w' :
  write_buf buf data w = Ret b w' ->
  (b = data ++ skipn (List.length data) buf /\
   List.length b = List.length buf) /\ w' = w.
Proof.
  unfold write_buf. destruct (Nat.leb_spec (List.length data) (List.length buf)).
  - unfold ret. intros E; inversion E; subst. repeat split.
    rewrite length_app, length_skipn. lia.
  - discriminate.
Qed.

Lemma log_debug_errno_Ret e fmt args w r w' :
  log_debug_errno e fmt args w = Ret r w' ->
  r = - e /\ ossl w' = ossl w /\ err_queue w' = err_queue w /\ heap w' = heap w /\
  journal w' = journal w ++ [LogEntry LOG_DEBUG e fmt args].
Proof. unfold log_debug_errno. intros H; inversion H; subst; simpl; auto. Qed.

(** ** The error-queue drain *)

Lemma drain_queue_code q max fmt args R jr :
  fst (fst (drain_queue q max fmt args R jr)) = R \/
  fst (fst (drain_queue q max fmt args R jr)) = - EIO.
Proof.
  revert R jr. induction q as [|E q IH]; intros R jr; simpl; auto.
  destruct (E =? 0); simpl; auto.
  destruct (IH (- EIO) (jr ++ [LogEntry LOG_DEBUG EIO (fmt ++ ": %s")%string
                                 (args ++ [StrArg (ERR_error_string_n E max)])]));
    auto.
Qed.

(** Every queued record is popped when no record is the code 0. *)
Lemma drain_queue_empties q max fmt args R jr :
  Forall (fun E => E <> 0) q ->
  snd (fst (drain_queue q max fmt args R jr)) = [].
Proof.
  revert R jr. induction q as [|E q IH]; intros R jr Hq; simpl; auto.
  inversion Hq; subst. destruct (Z.eqb_spec E 0); [contradiction|]. auto.
Qed.

(** What one invocation of [log_openssl_errors] does, by the fate of its
    buffer. *)
Lemma log_openssl_errors_run fmt args (w : World) :
  exists r w',
    log_openssl_errors fmt args w = Ret r w' /\
    ossl w' = ossl w /\ heap w' = tl (heap w) /\
    (hd false (heap w) = true ->
       r = - ENOMEM /\ err_queue w' = err_queue w /\
       journal w' = journal w ++ [LogEntry LOG_DEBUG ENOMEM "Out of memory." []]) /\
    (hd false (heap w) = false ->
       r = - EIO /\
       (Forall (fun E => E <> 0) (err_queue w) -> err_queue w' = [])).
Proof.
  unfold log_openssl_errors, bind.
  destruct (malloc 512 w) as [b w1|] eqn:Hm.
  2:{ unfold malloc in Hm. destruct (heap w) as [|[|] ?]; discriminate. }
  apply malloc_Ret in Hm as (_ & Hnull & Ho & Hq & Hj & Hh).
  destruct b as [buf|].
  - assert (Hhd : hd false (heap w) = false).
    { destruct (hd false (heap w)); auto.
      destruct Hnull as [_ Hn]. specialize (Hn eq_refl). discriminate. }
    unfold __log_openssl_errors.
    pose proof (drain_queue_code (err_queue w1) 512 fmt args 0 (journal w1)) as Hc.
    pose proof (drain_queue_empties (err_queue w1) 512 fmt args 0 (journal w1)) as He.
    destruct (drain_queue (err_queue w1) 512 fmt args 0 (journal w1)) as [[R q] jr].
    simpl in Hc, He.
    destruct Hc as [-> | ->]; simpl.
    + unfold log_debug_errno. eexists _, _. split; [reflexivity|]. simpl.
      repeat split; auto; try congruence.
      intros Hq0. apply He. rewrite Hq. exact Hq0.
    + unfold ret. eexists _, _. split; [reflexivity|]. simpl.
      repeat split; auto; try congruence.
      intros Hq0. apply He. rewrite Hq. exact Hq0.
  - assert (Hhd : hd false (heap w) = true) by (apply Hnull; reflexivity).
    unfold log_oom_debug, log_debug_errno.
    eexists _, _. split; [reflexivity|]. simpl.
    repeat split; auto; try congruence.
Qed.

Lemma log_openssl_errors_Ret fmt args (w : World) r w' :
  log_openssl_errors fmt args w = Ret r w' ->
  r = (if hd false (heap w) then - ENOMEM else - EIO).
Proof.
  intros H.
  destruct (log_openssl_errors_run fmt args w) as (r0 & w0 & Hrun & _ & _ & Ht & Hf).
  rewrite Hrun in H. inversion H; subst.
  destruct (hd false (heap w)).
  - apply Ht; reflexivity.
  - apply Hf; reflexivity.
Qed.

(** C4 (as amended). [log_openssl_errors] always returns, and never
    success: its result is the I/O error code [-EIO] whenever its
    diagnostic buffer is allocated (and then every queued error record is
    popped), and [-ENOMEM] when the buffer cannot be allocated; in that case
    out-of-memory is reported and no queued error is popped. *)
Theorem log_openssl_errors_never_succeeds fmt args (w : World) :
  exists r w',
    log_openssl_errors fmt args w = Ret r w' /\
    r < 0 /\
    (hd false (heap w) = false ->
       r = - errno_of IoError /\
       (Forall (fun E => E <> 0) (err_queue w) -> err_queue w' = [])) /\
    (hd false (heap w) = true ->
       r = - errno_of OutOfMemory /\
       err_queue w' = err_queue w /\
       journal w' = journal w ++ [LogEntry LOG_DEBUG ENOMEM "Out of memory." []]).
Proof.
  destruct (log_openssl_errors_run fmt args w) as (r & w' & Hrun & _ & _ & Ht & Hf).
  exists r, w'. split; [exact Hrun|]. split.
  - destruct (hd false (heap w)).
    + destruct Ht as [-> _]; [reflexivity|]. reflexivity.
    + destruct Hf as [-> _]; [reflexivity|]. reflexivity.
  - split; [exact Hf | exact Ht].
Qed.

Lemma log_openssl_errors_neg fmt args (w : World) r w' :
  log_openssl_errors fmt args w = Ret r w' -> r < 0.
Proof.
  intros H. apply log_openssl_errors_Ret in H. subst r.
  destruct (hd false (heap w)); reflexivity.
Qed.

Lemma log_oom_debug_Ret (w : World) r w' :
  log_oom_debug w = Ret r w' -> r = - ENOMEM.
Proof. unfold log_oom_debug. intros H. apply log_debug_errno_Ret in H. tauto. Qed.

Lemma malloc_length size (w : World) buf w' :
  malloc size w = Ret (Some buf) w' -> 0 <= size ->
  Z.of_nat (List.length buf) = size.
Proof.
  intros H Hs. apply malloc_Ret in H as ([H|H] & _); [discriminate|].
  inversion H; subst. rewrite repeat_length. lia.
Qed.

Lemma md_fetch_total digest_alg (w : World) :
  exists md w1, md_fetch digest_alg w = Ret md w1 /\ heap w1 = heap w.
Proof.
  unfold md_fetch. destruct (3 <=? OPENSSL_VERSION_MAJOR).
  - destruct (call_total (EVP_MD_fetch digest_alg) w) as (a & w1 & H & Hh & _). eauto.
  - destruct (call_total (EVP_get_digestbyname digest_alg) w) as (a & w1 & H & Hh & _).
    eauto.
Qed.

Lemma to_size_t_range z : 0 <= to_size_t z <= SIZE_MAX.
Proof.
  unfold to_size_t, SIZE_MAX.
  pose proof (Z.mod_pos_bound z (2 ^ 64) ltac:(lia)). lia.
Qed.

Lemma to_size_t_small z : 0 <= z <= SIZE_MAX -> to_size_t z = z.
Proof. unfold to_size_t, SIZE_MAX. intros H. apply Z.mod_small. lia. Qed.

Lemma malloc_Some size (w : World) buf w' :
  malloc size w = Ret (Some buf) w' -> buf = repeat x00 (Z.to_nat size).
Proof.
  intros H. apply malloc_Ret in H as ([H|H] & _); [discriminate|].
  inversion H; reflexivity.
Qed.

Lemma call_heap {A} (op : ossl_call ossl_state A) w a w' :
  call op w = Ret a w' -> heap w' = heap w.
Proof. intros H. apply call_Ret in H as (s & q & _ & ->). reflexivity. Qed.

(** Runs that always return. *)

Lemma returns_ret {A} (a : A) : returns (ret a).
Proof. intros w. unfold ret. eauto. Qed.

Lemma returns_bind {A B} (m : M A) (k : A -> M B) :
  returns m -> (forall a, returns (k a)) -> returns (bind m k).
Proof.
  intros Hm Hk w. unfold bind. destruct (Hm w) as (a & w1 & ->). apply Hk.
Qed.

Lemma returns_call {A} (op : ossl_call ossl_state A) : returns (call op).
Proof. intros w. destruct (call_total op w) as (a & w' & H & _). eauto. Qed.

Lemma returns_log_openssl_errors fmt args : returns (log_openssl_errors fmt args).
Proof.
  intros w. destruct (log_openssl_errors_run fmt args w) as (r & w' & H & _). eauto.
Qed.

Lemma returns_leave {O} (outs : O) m : returns m -> returns (leave outs m).
Proof.
  intros H. unfold leave. apply returns_bind; [exact H|].
  intros; apply returns_ret.
Qed.

Lemma returns_store {A} (cur v : A) : returns (store (Loc cur) v).
Proof. apply returns_ret. Qed.

Lemma returns_assert : returns (assert true).
Proof. intros w. unfold assert. eauto. Qed.

End Runs.

(** What a completed primitive step [Hm : prim w = Ret a w'] says. *)
Ltac digest Hm :=
  lazymatch type of Hm with
  | assert _ _ = Ret _ _ => apply assert_Ret in Hm as [Hm ?]; subst
  | store _ _ _ = Ret _ _ => apply store_Ret in Hm as (? & ? & Hm); subst
  | write_buf _ _ _ = Ret _ _ =>
      let Hb := fresh "Hb" in
      apply write_buf_Ret in Hm as [[Hb Hm] ?]; subst
  | deref _ _ = Ret _ _ => apply deref_Ret in Hm as [Hm ?]; subst
  | _ => idtac
  end.

(** One step of a run recorded in [H : prog w = Ret x w']. *)
Ltac step H :=
  lazymatch type of H with
  | bind _ _ _ = Ret _ _ =>
      let a := fresh "a" in
      let w1 := fresh "w" in
      let Hm := fresh "Hm" in
      apply bind_Ret in H as (a & w1 & Hm & H); cbv beta in H; digest Hm
  | leave _ _ _ = Ret _ _ =>
      let Ho := fresh "Ho" in apply leave_Ret in H as [Ho H]
  | ret _ _ = Ret _ _ => unfold ret in H; inversion H; subst; clear H
  | (if ?c then _ else _) _ = Ret _ _ => destruct c eqn:?
  | (match ?x with _ => _ end) _ = Ret _ _ => destruct x eqn:?
  | Abort = Ret _ _ => discriminate H
  | (fun _ => Abort) _ = Ret _ _ => discriminate H
  end.

Ltac run H := repeat (step H).

(** The result of the logging call that ends a failing path is negative. *)
Ltac failed :=
  match goal with
  | H : log_openssl_errors _ _ _ = Ret _ _ |- _ => apply log_openssl_errors_neg in H
  | H : log_oom_debug _ = Ret _ _ |- _ =>
      apply log_oom_debug_Ret in H; unfold ENOMEM in H
  | H : log_debug_errno _ _ _ _ = Ret _ _ |- _ =>
      apply log_debug_errno_Ret in H as [H _];
      unfold EOPNOTSUPP, EBADMSG, EIO in H
  end.

(** The provider calls of a path, as equations on the provider. *)
Ltac calls :=
  repeat match goal with
  | H : call _ _ = Ret _ _ |- _ =>
      let s := fresh "s" in
      let q := fresh "q" in
      apply call_Ret in H as (s & q & H & _)
  end.

(** The same, keeping that a provider call leaves the allocator alone. *)
Ltac calls_heap :=
  repeat match goal with
  | H : call _ _ = Ret _ _ |- _ =>
      let Hh := fresh "Hh" in
      pose proof (call_heap _ _ _ _ H) as Hh;
      let s := fresh "s" in
      let q := fresh "q" in
      apply call_Ret in H as (s & q & H & _)
  end.

(** The success condition of a provider call, from the test the path took. *)
Ltac nonzero :=
  match goal with
  | H : (?r =? 0) = false |- ?r <> 0 => apply Z.eqb_neq; exact H
  | H : (?r <=? 0) = false |- 0 < ?r => apply Z.leb_gt; exact H
  end.

(** A program whose every step returns. *)
Ltac returning :=
  repeat first
    [ apply returns_ret
    | apply returns_call
    | apply returns_store
    | apply returns_assert
    | apply returns_leave
    | apply returns_log_openssl_errors
    | apply returns_bind; [|intros ?]
    | match goal with
      | |- returns (if ?c then _ else _) => destruct c
      | |- returns (match ?x with _ => _ end) => destruct x
      end ].

(** An error return leaves the outputs: every path of [f]. *)
Ltac unwritten f :=
  let H := fresh "H" in
  let Hr := fresh "Hr" in
  intros ? ? ? ? H Hr; cbv beta zeta delta [f] in H; run H;
  try congruence.

(** Two runs of one program that differ in their output pointers only,
    stepped together. *)
Ltac both :=
  repeat first
    [ apply bind_map_out; intros ? ? ?; cbv beta
    | apply leave_map_out; intros ?; reflexivity
    | match goal with
      | |- (if ?c then _ else _) _ = map_out _ ((if ?c then _ else _) _) => destruct c
      | |- (match ?x with _ => _ end) _ = map_out _ ((match ?x with _ => _ end) _) =>
          destruct x
      | |- ret _ _ = map_out _ (ret _ _) => reflexivity
      end ].

Section Properties.

Context {prov : Provider}.

(** ** Digest size *)

(** C5 (as amended). [openssl_digest_size] always returns. It fails with
    [Unsupported] exactly when the provider cannot resolve the name. When
    the name resolves and the provider reports size zero it fails, never
    succeeds, and writes nothing: with [IoError], or with [OutOfMemory]
    when the diagnostic buffer of the error drain cannot be allocated. On
    success the size written is strictly positive. *)
Theorem openssl_digest_size_results digest_alg v (w : World) :
  exists r out w',
    openssl_digest_size digest_alg (Loc v) w = Ret (r, out) w' /\
    (r = - errno_of Unsupported <-> exists w1, md_fetch digest_alg w = Ret None w1) /\
    (forall md w1,
       md_fetch digest_alg w = Ret (Some md) w1 -> md_size md = 0 ->
       out = Loc v /\
       r = (if hd false (heap w)
            then - errno_of OutOfMemory else - errno_of IoError)) /\
    (r = 0 -> exists size, out = Loc size /\ 0 < size <= SIZE_MAX).
Proof.
  destruct (md_fetch_total digest_alg w) as (md & w1 & Hf & Hh).
  unfold openssl_digest_size, bind. simpl. rewrite Hf.
  destruct md as [md|].
  - destruct (Z.eqb_spec (to_size_t (md_size md)) 0) as [Hz|Hz].
    + unfold leave, bind.
      destruct (log_openssl_errors_run "Failed to get Digest size" [] w1)
        as (r & w' & Hrun & _).
      pose proof (log_openssl_errors_Ret _ _ _ _ _ Hrun) as Hr.
      rewrite Hrun. unfold ret. exists r, (Loc v), w'.
      split; [reflexivity|]. rewrite Hh in Hr.
      split; [|split].
      * split.
        -- intros E. rewrite E in Hr. destruct (hd false (heap w)); discriminate.
        -- intros (w2 & E). discriminate.
      * intros md' w2 E _. split; [reflexivity|]. exact Hr.
      * intros E. rewrite E in Hr. destruct (hd false (heap w)); discriminate.
    + unfold ret. eexists _, _, _. split; [reflexivity|].
      split; [|split].
      * split; [discriminate|]. intros (w2 & E). discriminate.
      * intros md' w2 E Hsz. inversion E; subst.
        rewrite Hsz in Hz. contradiction.
      * intros _. eexists. split; [reflexivity|].
        pose proof (to_size_t_range (md_size md)). lia.
  - unfold leave, bind, log_debug_errno, ret.
    eexists _, _, _. split; [reflexivity|].
    split; [|split].
    + split; [eauto | reflexivity].
    + intros md' w2 E. discriminate.
    + discriminate.
Qed.

(** ** Suitable key size *)

(** C6. [rsa_pkey_to_suitable_key_size] always returns. For a key that is
    not RSA it fails with [WrongKeyType]. For an RSA key of [b] bits
    ([b] a non-negative [int]) it succeeds with [b/8/2] when that is at
    least 1, so with 128 for 2048 bits, and fails with the code of
    [BadInput] (which is [EIO]) when [b/8/2] is less than 1. A failure
    writes nothing. *)
Theorem rsa_pkey_to_suitable_key_size_results pkey v (w : World) :
  exists r out w',
    rsa_pkey_to_suitable_key_size pkey (Loc v) w = Ret (r, out) w' /\
    (EVP_PKEY_base_id pkey <> EVP_PKEY_RSA ->
       r = - errno_of WrongKeyType /\ out = Loc v) /\
    (EVP_PKEY_base_id pkey = EVP_PKEY_RSA ->
     forall b, EVP_PKEY_bits pkey = b -> 0 <= b <= INT_MAX ->
       (1 <= b / 8 / 2 -> r = 0 /\ out = Loc (b / 8 / 2)) /\
       (b / 8 / 2 < 1 -> r = - errno_of BadInput /\ out = Loc v) /\
       (b = 2048 -> r = 0 /\ out = Loc 128)).
Proof.
  unfold rsa_pkey_to_suitable_key_size, bind. simpl.
  destruct (Z.eqb_spec (EVP_PKEY_base_id pkey) EVP_PKEY_RSA) as [Hid|Hid]; simpl.
  - unfold log_debug, bind, log_debug_errno, ret. simpl.
    assert (Hdiv : forall b, 0 <= b <= INT_MAX ->
              to_size_t (Z.quot (Z.quot b 8) 2) = b / 8 / 2 /\ 0 <= b / 8 / 2).
    { intros b Hb. unfold INT_MAX in Hb.
      rewrite (Z.quot_div_nonneg b 8) by lia.
      assert (0 <= b / 8 < 2 ^ 31).
      { split; [apply Z.div_pos; lia|]. apply Z.div_lt_upper_bound; lia. }
      rewrite (Z.quot_div_nonneg (b / 8) 2) by lia.
      assert (0 <= b / 8 / 2 < 2 ^ 31).
      { split; [apply Z.div_pos; lia|]. apply Z.div_lt_upper_bound; lia. }
      split; [|lia]. apply to_size_t_small. unfold SIZE_MAX. lia. }
    destruct (Z.ltb_spec (to_size_t (Z.quot (Z.quot (EVP_PKEY_bits pkey) 8) 2)) 1)
      as [Hlt|Hge].
    + unfold leave, bind, log_debug_errno, ret. simpl.
      eexists _, _, _. split; [reflexivity|].
      split; [intros Hn; contradiction|].
      intros _ b Hb Hrange. subst b.
      destruct (Hdiv _ Hrange) as [Hq Hpos]. rewrite Hq in Hlt.
      split; [lia|]. split; [auto|].
      intros E. rewrite E in Hlt. vm_compute in Hlt. discriminate.
    + eexists _, _, _. split; [reflexivity|].
      split; [intros Hn; contradiction|].
      intros _ b Hb Hrange. subst b.
      destruct (Hdiv _ Hrange) as [Hq Hpos]. rewrite Hq in *.
      split; [auto|]. split; [lia|].
      intros E. rewrite E. split; reflexivity.
  - unfold leave, bind, log_debug_errno, ret. simpl.
    eexists _, _, _. split; [reflexivity|].
    split; [auto|]. intros E; contradiction.
Qed.

(** ** Digest and HMAC sizes *)

Lemma openssl_digest_size_Ret digest_alg p (w : World) r out w' :
  openssl_digest_size digest_alg p w = Ret (r, out) w' ->
  (r < 0 /\ out = p) \/
  (r = 0 /\ exists size,
     out = Loc size /\ 0 < size <= SIZE_MAX /\
     forall v, openssl_digest_size digest_alg (Loc v) w = Ret (0, Loc size) w').
Proof.
  intros H. unfold openssl_digest_size in H. run H.
  all: try (left; split; [failed; lia | congruence]).
  right. split; [reflexivity|].
  match goal with
  | Hz : (to_size_t (md_size ?md) =? 0) = false,
    Hf : md_fetch _ _ = Ret (Some ?md) _ |- _ =>
      exists (to_size_t (md_size md)); split; [reflexivity|]; split;
      [ pose proof (to_size_t_range (md_size md)); apply Z.eqb_neq in Hz; lia
      | intros v; unfold openssl_digest_size, bind; simpl;
        rewrite Hf, Hz; reflexivity ]
  end.
Qed.

(** C1. When [openssl_digest_many] succeeds, the buffer it returns has
    exactly the length [size] that a successful [openssl_digest_size] call
    for the same algorithm returned, and [size] is what it reports through
    [ret_digest_size] (when that pointer is given). This holds for every
    input, the empty sequence of descriptors included. *)
Theorem openssl_digest_many_size digest_alg data rd rs (w : World) r rd' rs' w' :
  openssl_digest_many digest_alg data rd rs w = Ret (r, (rd', rs')) w' ->
  r = 0 ->
  exists buf size,
    rd' = Loc (Some buf) /\
    Z.of_nat (List.length buf) = size /\
    rs' = store_opt rs size /\
    exists w1 w2, forall v,
      openssl_digest_size digest_alg (Loc v) w1 = Ret (0, Loc size) w2.
Proof.
  intros H Hr. cbv beta zeta delta [openssl_digest_many] in H. run H.
  all: try (failed; lia).
  - discriminate.
  - match goal with
    | Hd : openssl_digest_size _ _ _ = Ret _ _ |- _ =>
        apply openssl_digest_size_Ret in Hd
          as [[Hneg _]|(_ & size & -> & Hsz & Hcall)]
    end.
    { match goal with Hlt : (_ <? 0) = false |- _ => apply Z.ltb_ge in Hlt end. lia. }
    simpl in *.
    match goal with Heq : (_ =? size) = true |- _ => apply Z.eqb_eq in Heq; subst end.
    match goal with Hml : malloc size _ = Ret (Some _) _ |- _ =>
      apply malloc_length in Hml; [|lia] end.
    eexists _, size. split; [reflexivity|]. split; [lia|].
    split; [reflexivity|]. eauto.
Qed.

Lemma hmac_finish_Ret digest_size final rd rs (w : World) r rd' rs' w' :
  hmac_finish digest_size final rd rs w = Ret (r, (rd', rs')) w' ->
  0 <= digest_size ->
  (r < 0 /\ rd' = rd /\ rs' = rs) \/
  (r = 0 /\ 0 < digest_size /\ exists buf,
     rd' = Loc (Some buf) /\ Z.of_nat (List.length buf) = digest_size /\
     rs' = store_opt rs digest_size).
Proof.
  intros H Hpos. cbv beta zeta delta [hmac_finish] in H. run H.
  all: try (left; split; [failed; lia | split; congruence]).
  right. split; [reflexivity|].
  match goal with Hz : (digest_size =? 0) = false |- _ => apply Z.eqb_neq in Hz end.
  split; [lia|].
  match goal with Heq : (_ =? digest_size) = true |- _ =>
    apply Z.eqb_eq in Heq; subst end.
  match goal with Hml : malloc _ _ = Ret (Some _) _ |- _ =>
    apply malloc_length in Hml; [|lia] end.
  eexists. split; [reflexivity|]. split; [lia|reflexivity].
Qed.

(** C7. Whenever [openssl_hmac_many] reports success, for any key (the
    empty key included) and any input, it has stored a non-null buffer,
    whose length is the strictly positive digest size, and that size is
    what it reports through [ret_digest_size] (when that pointer is
    given). *)
Theorem openssl_hmac_many_success digest_alg key data rd rs (w : World) r rd' rs' w' :
  openssl_hmac_many digest_alg key data rd rs w = Ret (r, (rd', rs')) w' ->
  r = 0 ->
  exists buf size,
    rd' = Loc (Some buf) /\
    0 < size /\
    Z.of_nat (List.length buf) = size /\
    rs' = store_opt rs size.
Proof.
  intros H Hr. cbv beta zeta delta [openssl_hmac_many] in H. run H.
  all: try (failed; lia).
  all: apply hmac_finish_Ret in H as [(Hneg & _)|(_ & Hpos & buf & -> & Hlen & ->)];
    [lia | | apply to_size_t_range].
  all: eexists buf, _; split; [reflexivity|]; split; [exact Hpos|];
    split; [exact Hlen | reflexivity].
Qed.

(** ** The input of digest_and_sign *)

Lemma sign_input_Ret data size (w : World) d s w' :
  sign_input data size w = Ret (d, s) w' ->
  w' = w /\ exists region, d = Some region.
Proof.
  intros H. unfold sign_input in H. run H; eauto.
  all: destruct d as [region|]; [eauto | discriminate].
Qed.

(** ** Outputs on error *)

Lemma pem_unwritten pem ret_ :
  unwritten_on_error ret_ (openssl_pkey_from_pem pem ret_).
Proof. unwritten @openssl_pkey_from_pem. Qed.

Lemma digest_many_unwritten alg data rd rs :
  unwritten_on_error (rd, rs) (openssl_digest_many alg data rd rs).
Proof. unwritten @openssl_digest_many. Qed.

Lemma hmac_finish_unwritten sz final rd rs :
  unwritten_on_error (rd, rs) (hmac_finish sz final rd rs).
Proof. unwritten @hmac_finish. Qed.

Lemma hmac_many_unwritten alg key data rd rs :
  unwritten_on_error (rd, rs) (openssl_hmac_many alg key data rd rs).
Proof.
  unwritten @openssl_hmac_many.
  all: eapply hmac_finish_unwritten; eauto.
Qed.

Lemma rsa_encrypt_unwritten pkey key rk rs :
  unwritten_on_error (rk, rs) (rsa_encrypt_bytes pkey key rk rs).
Proof. unwritten @rsa_encrypt_bytes. Qed.

Lemma rsa_from_unwritten n e ret_ :
  unwritten_on_error ret_ (rsa_pkey_from_n_e n e ret_).
Proof. unwritten @rsa_pkey_from_n_e. Qed.

Lemma rsa_n_e_out_unwritten bn_n bn_e rn rns re res :
  unwritten_on_error (rn, rns, re, res) (rsa_n_e_out bn_n bn_e rn rns re res).
Proof. unwritten @rsa_n_e_out. Qed.

Lemma rsa_to_unwritten pkey rn rns re res :
  unwritten_on_error (rn, rns, re, res) (rsa_pkey_to_n_e pkey rn rns re res).
Proof.
  unwritten @rsa_pkey_to_n_e.
  all: eapply rsa_n_e_out_unwritten; eauto.
Qed.

Lemma ecc_from_unwritten curve_id x y ret_ :
  unwritten_on_error ret_ (ecc_pkey_from_curve_x_y curve_id x y ret_).
Proof. unwritten @ecc_pkey_from_curve_x_y. Qed.

Lemma ecc_x_y_out_unwritten c bx by_ rc rx rxs ry rys :
  unwritten_on_error (rc, rx, rxs, ry, rys)
    (ecc_x_y_out c bx by_ rc rx rxs ry rys).
Proof. unwritten @ecc_x_y_out. Qed.

Lemma ecc_to_unwritten pkey rc rx rxs ry rys :
  unwritten_on_error (rc, rx, rxs, ry, rys)
    (ecc_pkey_to_curve_x_y pkey rc rx rxs ry rys).
Proof.
  unwritten @ecc_pkey_to_curve_x_y.
  all: eapply ecc_x_y_out_unwritten; eauto.
Qed.

Lemma fingerprint_unwritten pk md ret_ rs :
  unwritten_on_error (ret_, rs) (pubkey_fingerprint pk md ret_ rs).
Proof. unwritten @pubkey_fingerprint. Qed.

Lemma sign_with_unwritten md pk data size ret_ rs :
  unwritten_on_error (ret_, rs) (sign_with md pk data size ret_ rs).
Proof. unwritten @sign_with. Qed.

Lemma sign_unwritten md pk data size ret_ rs :
  unwritten_on_error (ret_, rs) (digest_and_sign md pk data size ret_ rs).
Proof.
  unwritten @digest_and_sign.
  all: eapply sign_with_unwritten; eauto.
Qed.

(** C9. Each of the ten operations writes its outputs on the success path
    only: whenever one of them returns an error (a nonzero result), every
    output location is as it was before the call. *)
Theorem outputs_unwritten_on_error :
  (forall pem ret_,
     unwritten_on_error ret_ (openssl_pkey_from_pem pem ret_)) /\
  (forall digest_alg data ret_digest ret_digest_size,
     unwritten_on_error (ret_digest, ret_digest_size)
       (openssl_digest_many digest_alg data ret_digest ret_digest_size)) /\
  (forall digest_alg key data ret_digest ret_digest_size,
     unwritten_on_error (ret_digest, ret_digest_size)
       (openssl_hmac_many digest_alg key data ret_digest ret_digest_size)) /\
  (forall pkey decrypted_key ret_encrypt_key ret_encrypt_key_size,
     unwritten_on_error (ret_encrypt_key, ret_encrypt_key_size)
       (rsa_encrypt_bytes pkey decrypted_key ret_encrypt_key ret_encrypt_key_size)) /\
  (forall n e ret_,
     unwritten_on_error ret_ (rsa_pkey_from_n_e n e ret_)) /\
  (forall pkey ret_n ret_n_size ret_e ret_e_size,
     unwritten_on_error (ret_n, ret_n_size, ret_e, ret_e_size)
       (rsa_pkey_to_n_e pkey ret_n ret_n_size ret_e ret_e_size)) /\
  (forall curve_id x y ret_,
     unwritten_on_error ret_ (ecc_pkey_from_curve_x_y curve_id x y ret_)) /\
  (forall pkey ret_curve_id ret_x ret_x_size ret_y ret_y_size,
     unwritten_on_error (ret_curve_id, ret_x, ret_x_size, ret_y, ret_y_size)
       (ecc_pkey_to_curve_x_y pkey ret_curve_id ret_x ret_x_size ret_y ret_y_size)) /\
  (forall pk md ret_ ret_size,
     unwritten_on_error (ret_, ret_size) (pubkey_fingerprint pk md ret_ ret_size)) /\
  (forall md privkey data size ret_ ret_size,
     unwritten_on_error (ret_, ret_size)
       (digest_and_sign md privkey data size ret_ ret_size)).
Proof.
  repeat split; intros.
  - apply pem_unwritten.
  - apply digest_many_unwritten.
  - apply hmac_many_unwritten.
  - apply rsa_encrypt_unwritten.
  - apply rsa_from_unwritten.
  - apply rsa_to_unwritten.
  - apply ecc_from_unwritten.
  - apply ecc_to_unwritten.
  - apply fingerprint_unwritten.
  - apply sign_unwritten.
Qed.

(** ** Optional outputs *)

Lemma digest_many_optional alg data rd v w :
  openssl_digest_many alg data rd NULL w =
  map_out without_size (openssl_digest_many alg data rd (Loc v) w).
Proof. cbv beta zeta delta [openssl_digest_many]. both. Qed.

Lemma hmac_finish_optional sz final rd v w :
  hmac_finish sz final rd NULL w =
  map_out without_size (hmac_finish sz final rd (Loc v) w).
Proof. cbv beta zeta delta [hmac_finish]. both. Qed.

Lemma hmac_many_optional alg key data rd v w :
  openssl_hmac_many alg key data rd NULL w =
  map_out without_size (openssl_hmac_many alg key data rd (Loc v) w).
Proof.
  cbv beta zeta delta [openssl_hmac_many]. both.
  all: apply hmac_finish_optional.
Qed.

Lemma ecc_to_optional pkey gc gx gxs gy gys c x xs y ys w :
  ecc_pkey_to_curve_x_y pkey (keep gc (Loc c)) (keep gx (Loc x)) (keep gxs (Loc xs))
    (keep gy (Loc y)) (keep gys (Loc ys)) w =
  map_out (keep_ecc gc gx gxs gy gys)
    (ecc_pkey_to_curve_x_y pkey (Loc c) (Loc x) (Loc xs) (Loc y) (Loc ys) w).
Proof.
  cbv beta zeta delta [ecc_pkey_to_curve_x_y]. both.
  all: destruct gc, gx, gxs, gy, gys; reflexivity.
Qed.

(** C10. A NULL size pointer changes nothing in a run of
    [openssl_digest_many] or [openssl_hmac_many] but that the size is not
    delivered: the result code, the buffer stored and the effects are
    those of the run with the pointer given. Likewise
    [ecc_pkey_to_curve_x_y] with any of its five output pointers NULL
    runs as with all five given and delivers the values at the pointers
    that are given. So a NULL optional pointer never causes a failure. *)
Theorem optional_outputs :
  (forall digest_alg data ret_digest v (w : World),
     openssl_digest_many digest_alg data ret_digest NULL w =
     map_out without_size
       (openssl_digest_many digest_alg data ret_digest (Loc v) w)) /\
  (forall digest_alg key data ret_digest v (w : World),
     openssl_hmac_many digest_alg key data ret_digest NULL w =
     map_out without_size
       (openssl_hmac_many digest_alg key data ret_digest (Loc v) w)) /\
  (forall pkey gc gx gxs gy gys c x xs y ys (w : World),
     ecc_pkey_to_curve_x_y pkey
       (keep gc (Loc c)) (keep gx (Loc x)) (keep gxs (Loc xs))
       (keep gy (Loc y)) (keep gys (Loc ys)) w =
     map_out (keep_ecc gc gx gxs gy gys)
       (ecc_pkey_to_curve_x_y pkey (Loc c) (Loc x) (Loc xs) (Loc y) (Loc ys) w)).
Proof.
  split; [|split]; intros.
  - apply digest_many_optional.
  - apply hmac_many_optional.
  - apply ecc_to_optional.
Qed.

End Properties.

(** ** What the provider receives from digest_and_sign *)

Section Spy.

Variable P : Provider.

Let SW : Type := World (prov := spy P).

(** *** The record changes nothing else *)

Lemma erase_bind {A B} (m1 : M (prov := spy P) A) (m2 : M (prov := P) A)
    (k1 : A -> M (prov := spy P) B) (k2 : A -> M (prov := P) B) (w : SW) :
  erase_out (m1 w) = m2 (erase w) ->
  (forall a w1, erase_out (k1 a w1) = k2 a (erase w1)) ->
  erase_out (bind m1 k1 w) = bind m2 k2 (erase w).
Proof.
  intros Hm Hk. unfold bind. rewrite <- Hm.
  destruct (m1 w) as [a w1|]; simpl; [apply Hk | reflexivity].
Qed.

Lemma erase_call_unseen {A} (op : ossl_call (ossl_state (Provider := P)) A) (w : SW) :
  erase_out (call (prov := spy P) (unseen op) w) = call (prov := P) op (erase w).
Proof.
  unfold call, unseen, erase. simpl.
  destruct (op (fst (ossl w)) (err_queue w)) as [[a s] q]. reflexivity.
Qed.

Lemma erase_call_sign ctx sig data size (w : SW) :
  erase_out (call (prov := spy P) (EVP_DigestSign (Provider := spy P) ctx sig data size) w)
  = call (prov := P) (EVP_DigestSign (Provider := P) ctx sig data size) (erase w).
Proof.
  unfold call, erase. simpl.
  destruct (@EVP_DigestSign P ctx sig data size (fst (ossl w)) (err_queue w))
    as [[a s] q].
  reflexivity.
Qed.

Lemma erase_malloc size (w : SW) :
  erase_out (malloc (prov := spy P) size w) = malloc (prov := P) size (erase w).
Proof. destruct w as [s q j h]. destruct h as [|[|] h]; reflexivity. Qed.

Lemma erase_log_debug_errno e fmt args (w : SW) :
  erase_out (log_debug_errno (prov := spy P) e fmt args w)
  = log_debug_errno (prov := P) e fmt args (erase w).
Proof. reflexivity. Qed.

Lemma erase_log_openssl_errors fmt args (w : SW) :
  erase_out (log_openssl_errors (prov := spy P) fmt args w)
  = log_openssl_errors (prov := P) fmt args (erase w).
Proof.
  unfold log_openssl_errors. apply erase_bind; [apply erase_malloc|].
  intros [buf|] w1; [|apply erase_log_debug_errno].
  apply erase_bind.
  - unfold __log_openssl_errors, erase. simpl.
    change (@ERR_error_string_n (spy P)) with (@ERR_error_string_n P).
    destruct (drain_queue (prov := P) (err_queue w1) 512 fmt args 0 (journal w1))
      as [[R q] jr] eqn:Hd.
    change (drain_queue (prov := spy P) (err_queue w1) 512 fmt args 0 (journal w1))
      with (drain_queue (prov := P) (err_queue w1) 512 fmt args 0 (journal w1)).
    rewrite Hd. reflexivity.
  - intros R w2. destruct (R =? 0); [apply erase_log_debug_errno | reflexivity].
Qed.

Lemma erase_leave {O} (outs : O) (m1 : M (prov := spy P) Z) (m2 : M (prov := P) Z)
    (w : SW) :
  erase_out (m1 w) = m2 (erase w) ->
  erase_out (leave outs m1 w) = leave outs m2 (erase w).
Proof.
  intros H. unfold leave. apply erase_bind; [exact H|]. reflexivity.
Qed.

Lemma erase_assert c (w : SW) :
  erase_out (assert (prov := spy P) c w) = assert (prov := P) c (erase w).
Proof. destruct c; reflexivity. Qed.

Lemma erase_store {A} (p : outp A) v (w : SW) :
  erase_out (store (prov := spy P) p v w) = store (prov := P) p v (erase w).
Proof. destruct p; reflexivity. Qed.

Lemma erase_write_buf buf data (w : SW) :
  erase_out (write_buf (prov := spy P) buf data w)
  = write_buf (prov := P) buf data (erase w).
Proof.
  unfold write_buf. destruct (List.length data <=? List.length buf)%nat; reflexivity.
Qed.

Lemma erase_deref {A} (p : option A) (w : SW) :
  erase_out (deref (prov := spy P) p w) = deref (prov := P) p (erase w).
Proof. destruct p; reflexivity. Qed.

(** A run of the spy, without the record, is the run of the provider. *)
Ltac erasing :=
  repeat first
    [ apply erase_call_sign
    | apply erase_call_unseen
    | apply erase_malloc
    | apply erase_log_openssl_errors
    | apply erase_log_debug_errno
    | apply erase_leave
    | apply erase_assert
    | apply erase_store
    | apply erase_write_buf
    | apply erase_deref
    | reflexivity
    | apply erase_bind; [|intros ? ?]
    | match goal with
      | |- erase_out ((if ?c then _ else _) _) = _ => destruct c
      | |- erase_out ((match ?x with _ => _ end) _) = _ => destruct x
      | |- erase_out ((let (_, _) := ?x in _) _) = _ => destruct x
      end ].

Lemma erase_digest_and_sign md privkey data size ret_ ret_size (w : SW) :
  erase_out (digest_and_sign (prov := spy P) md privkey data size ret_ ret_size w)
  = digest_and_sign (prov := P) md privkey data size ret_ ret_size (erase w).
Proof.
  unfold digest_and_sign, sign_with, sign_input, log_oom_debug. erasing.
Qed.

(** *** What the record holds *)

Lemma seen_call_unseen {A} (op : ossl_call (ossl_state (Provider := P)) A) (w : SW)
    a w' :
  call (prov := spy P) (unseen op) w = Ret a w' -> seen w' = seen w.
Proof.
  unfold call, unseen, seen. simpl.
  destruct (op (fst (ossl w)) (err_queue w)) as [[a0 s] q].
  intros H; inversion H; subst. reflexivity.
Qed.

Lemma seen_call_sign ctx sig data size (w : SW) a w' :
  call (prov := spy P) (EVP_DigestSign (Provider := spy P) ctx sig data size) w
    = Ret a w' ->
  seen w' = seen w ++ [(data, size)].
Proof.
  unfold call, seen. simpl.
  destruct (@EVP_DigestSign P ctx sig data size (fst (ossl w)) (err_queue w))
    as [[a0 s] q].
  intros H; inversion H; subst. reflexivity.
Qed.

Lemma seen_malloc size (w : SW) b w' :
  malloc (prov := spy P) size w = Ret b w' -> seen w' = seen w.
Proof.
  intros H. apply malloc_Ret in H as (_ & _ & Ho & _). unfold seen. rewrite Ho.
  reflexivity.
Qed.

Lemma seen_log_openssl_errors fmt args (w : SW) r w' :
  log_openssl_errors (prov := spy P) fmt args w = Ret r w' -> seen w' = seen w.
Proof.
  intros H.
  destruct (log_openssl_errors_run fmt args w) as (r0 & w0 & Hrun & Ho & _).
  rewrite Hrun in H. inversion H; subst. unfold seen. rewrite Ho. reflexivity.
Qed.

Lemma seen_log_oom_debug (w : SW) r w' :
  log_oom_debug (prov := spy P) w = Ret r w' -> seen w' = seen w.
Proof.
  unfold log_oom_debug. intros H. apply log_debug_errno_Ret in H as (_ & Ho & _).
  unfold seen. rewrite Ho. reflexivity.
Qed.

(** The record of a path, from the calls made on it. *)
Ltac record :=
  repeat match goal with
  | H : call (EVP_DigestSign _ _ _ _) _ = Ret _ _ |- _ => apply seen_call_sign in H
  | H : call EVP_MD_CTX_new _ = Ret _ _ |- _ =>
      apply (seen_call_unseen (@EVP_MD_CTX_new P)) in H
  | H : call (EVP_DigestSignInit ?c ?m ?k) _ = Ret _ _ |- _ =>
      apply (seen_call_unseen (@EVP_DigestSignInit P c m k)) in H
  | H : malloc _ _ = Ret _ _ |- _ => apply seen_malloc in H
  | H : log_openssl_errors _ _ _ = Ret _ _ |- _ => apply seen_log_openssl_errors in H
  | H : log_oom_debug _ = Ret _ _ |- _ => apply seen_log_oom_debug in H
  end.

Lemma sign_with_seen md privkey d n ret_ ret_size (w : SW) r o w' :
  sign_with (prov := spy P) md privkey d n ret_ ret_size w = Ret (r, o) w' ->
  exists received,
    seen w' = seen w ++ received /\
    (received = [] \/ received = [(d, n)] \/ received = [(d, n); (d, n)]) /\
    (r = 0 -> received = [(d, n); (d, n)]).
Proof.
  intros H. cbv beta zeta delta [sign_with] in H. run H.
  all: try (assert (Hneg : r < 0) by (failed; lia)).
  all: record.
  all: repeat match goal with
       | Hs : seen ?b = seen ?a |- _ => rewrite Hs in *; clear Hs
       | Hs : seen ?b = seen ?a ++ _ |- _ => rewrite Hs in *; clear Hs
       end.
  all: try (exists []; rewrite app_nil_r;
            split; [reflexivity|]; split; [auto | intros; lia]).
  all: try (exists [(d, n)];
            split; [reflexivity|]; split; [auto | intros; lia]).
  all: try (exists [(d, n); (d, n)]; rewrite <- app_assoc;
            split; [reflexivity|]; split; [auto | intros; try lia; reflexivity]).
Qed.

End Spy.

Section SignInput.

Context {prov : Provider}.

Lemma sign_input_cases data size (w : World) d n w' :
  sign_input data size w = Ret (d, n) w' ->
  w' = w /\
  exists region,
    d = Some region /\
    (size = 0 -> region = [x00] /\ n = 0) /\
    (size = SIZE_MAX -> data = Some region /\ strlen region = Some n) /\
    (size <> 0 -> size <> SIZE_MAX -> data = Some region /\ n = size).
Proof.
  intros H. unfold sign_input in H. run H.
  - (* size = 0 *)
    match goal with Hz : (_ =? 0) = true |- _ => apply Z.eqb_eq in Hz; subst end.
    split; [reflexivity|]. exists [x00]. split; [reflexivity|].
    split; [auto|]. split; [discriminate | intros Hn; contradiction].
  - (* size = SIZE_MAX *)
    match goal with Hz : (_ =? SIZE_MAX) = true |- _ => apply Z.eqb_eq in Hz; subst end.
    split; [reflexivity|]. eexists. split; [reflexivity|].
    split; [discriminate|]. split; [auto | intros _ Hn; contradiction].
  - (* an explicit size *)
    match goal with Hz : (_ =? 0) = false |- _ => apply Z.eqb_neq in Hz end.
    match goal with Hz : (_ =? SIZE_MAX) = false |- _ => apply Z.eqb_neq in Hz end.
    split; [reflexivity|].
    destruct d as [region|]; [|discriminate].
    exists region. split; [reflexivity|].
    split; [intros; contradiction|]. split; [intros; contradiction | auto].
Qed.

End SignInput.

(** C8. What the provider receives from [digest_and_sign]. The operation
    is run on the provider [spy P], which is any provider [P] made to
    record the data pointer and the size of every [EVP_DigestSign] call,
    and which changes nothing else: without the record, the run is the run
    on [P]. In every run that returns, each of the signing calls (none, the
    size query alone, or the query and the signing call, and both of them
    in a successful run) has received one and the same non-null data
    pointer and size:
    - with the size [SIZE_MAX], the caller's data and the [strlen] of that
      NUL-terminated string;
    - with the size 0, a pointer to the empty string in place of the
      caller's pointer (NULL or not) and the size 0;
    - with any other size, the caller's data and size.
    So the provider never receives a NULL data pointer. *)
Theorem digest_and_sign_input (P : Provider) md privkey data size r0 s0
    (w : World (prov := spy P)) :
  erase_out
    (digest_and_sign (prov := spy P) md privkey data size (Loc r0) (Loc s0) w)
  = digest_and_sign (prov := P) md privkey data size (Loc r0) (Loc s0) (erase w) /\
  forall r o w',
    digest_and_sign (prov := spy P) md privkey data size (Loc r0) (Loc s0) w
      = Ret (r, o) w' ->
    exists region n received,
      seen w' = seen w ++ received /\
      (received = [] \/ received = [(Some region, n)] \/
       received = [(Some region, n); (Some region, n)]) /\
      (r = 0 -> received = [(Some region, n); (Some region, n)]) /\
      (size = 0 -> region = [x00] /\ n = 0) /\
      (size = SIZE_MAX -> data = Some region /\ strlen region = Some n) /\
      (size <> 0 -> size <> SIZE_MAX -> data = Some region /\ n = size).
Proof.
  split; [apply erase_digest_and_sign|].
  intros r o w' H. cbv beta zeta delta [digest_and_sign] in H. run H.
  match goal with Hi : sign_input _ _ _ = Ret _ _ |- _ =>
    apply sign_input_cases in Hi as (-> & region & -> & H0 & Hmax & Hsize) end.
  apply sign_with_seen in H as (received & Hseen & Hshape & Hok).
  eexists region, _, received.
  split; [exact Hseen|]. split; [exact Hshape|]. split; [exact Hok|].
  split; [exact H0|]. split; [exact Hmax | exact Hsize].
Qed.

(** ** Round trips of key components *)

Section RoundTrips.

Context {prov : Provider} {view : KeyView prov} {KC : KeyContract prov view}.

(** [BN_bn2bin] into a block allocated for [BN_num_bytes] bytes fills it
    with the minimal encoding. *)
Lemma bn2bin_into_Ret bn size (w : World) b w' :
  bn2bin_into bn (repeat x00 (Z.to_nat size)) size w = Ret b w' ->
  size = to_size_t (BN_num_bytes bn) ->
  b = be_minimal (bn_val bn) /\
  size = Z.of_nat (List.length (be_minimal (bn_val bn))).
Proof.
  intros H Hsize. unfold bn2bin_into in H.
  rewrite BN_bn2bin_val in H. rewrite BN_num_bytes_val in Hsize.
  set (d := be_minimal (bn_val bn)) in *.
  run H.
  match goal with Ha : (_ =? to_int _) = true |- _ => apply Z.eqb_eq in Ha end.
  pose proof (to_int_range (to_size_t (Z.of_nat (List.length d)))) as Hr.
  assert (Hs : to_size_t (Z.of_nat (List.length d)) = Z.of_nat (List.length d)).
  { apply to_size_t_small. unfold SIZE_MAX. lia. }
  split; [|exact Hs].
  rewrite Hs, Nat2Z.id.
  rewrite skipn_all2 by (rewrite repeat_length; lia).
  apply app_nil_r.
Qed.

Lemma rsa_n_e_out_values bn_n bn_e n0 ns0 e0 es0 (w : World) rn rns re res w' :
  rsa_n_e_out bn_n bn_e (Loc n0) (Loc ns0) (Loc e0) (Loc es0) w
    = Ret (0, (rn, rns, re, res)) w' ->
  rn = Loc (Some (be_minimal (bn_val bn_n))) /\
  rns = Loc (Z.of_nat (List.length (be_minimal (bn_val bn_n)))) /\
  re = Loc (Some (be_minimal (bn_val bn_e))) /\
  res = Loc (Z.of_nat (List.length (be_minimal (bn_val bn_e)))).
Proof.
  intros H. cbv beta zeta delta [rsa_n_e_out] in H. run H.
  all: try (failed; lia).
  repeat match goal with
  | Hm : malloc _ _ = Ret (Some _) _ |- _ => apply malloc_Some in Hm; subst
  end.
  repeat match goal with
  | Hb : bn2bin_into _ _ _ _ = Ret _ _ |- _ =>
      apply bn2bin_into_Ret in Hb as [? ?]; [|reflexivity]
  end.
  subst. repeat split; congruence.
Qed.

(** The key built by [rsa_pkey_from_n_e] holds the numbers the buffers
    encode. *)
Lemma rsa_from_key n e k0 (w : World) out w1 :
  rsa_pkey_from_n_e n e (Loc k0) w = Ret (0, out) w1 ->
  exists key, out = Loc (Some key) /\ pkey_rsa key = Some (be_value n, be_value e).
Proof.
  intros H. cbv beta zeta delta [rsa_pkey_from_n_e] in H. run H.
  all: try (failed; lia).
  all: calls.
  all: repeat match goal with
       | Hb : BN_bin2bn _ _ _ = (Some _, _, _) |- _ => apply BN_bin2bn_val in Hb
       end.
  - (* provider generation 3 *)
    match goal with
    | Hc : EVP_PKEY_CTX_new_id _ _ _ = _ |- _ => apply CTX_new_id_alg in Hc
    end.
    match goal with
    | Hi : EVP_PKEY_fromdata_init _ _ _ = _ |- _ =>
        apply fromdata_init_alg in Hi; [|nonzero]
    end.
    match goal with
    | Hn : OSSL_PARAM_BLD_new _ _ = _ |- _ => apply BLD_new_items in Hn
    end.
    repeat match goal with
    | Hp : OSSL_PARAM_BLD_push_BN _ _ _ _ _ = _ |- _ =>
        apply BLD_push_BN_items in Hp; [|nonzero]
    end.
    match goal with
    | Ht : OSSL_PARAM_BLD_to_param _ _ _ = _ |- _ => apply BLD_to_param_items in Ht
    end.
    match goal with
    | Hf : EVP_PKEY_fromdata _ _ _ _ _ _ = _ |- _ =>
        eapply fromdata_rsa in Hf as (key & -> & Hkey); [| nonzero | congruence | ]
    end.
    + exists key. split; [reflexivity|]. exact Hkey.
    + match goal with
      | H1 : param_items ?p = bld_items ?b2,
        H2 : bld_items ?b2 = bld_items ?b1 ++ _,
        H3 : bld_items ?b1 = bld_items ?b0 ++ _,
        H4 : bld_items ?b0 = [] |- param_items ?p = _ =>
          rewrite H1, H2, H3, H4
      end.
      repeat match goal with Hv : bn_val _ = _ |- _ => rewrite Hv; clear Hv end.
      reflexivity.
  - (* older generation *)
    match goal with
    | Hs : RSA_set0_key _ _ _ _ _ = _ |- _ => apply RSA_set0_key_n_e in Hs; [|nonzero]
    end.
    match goal with
    | Ha : EVP_PKEY_assign_RSA _ _ _ _ = _, Hs : rsa_n_e _ = Some _ |- _ =>
        eapply assign_RSA_key in Ha; [| nonzero | exact Hs]
    end.
    eexists. split; [reflexivity|].
    repeat match goal with Hv : bn_val _ = _ |- _ => rewrite Hv in *; clear Hv end.
    assumption.
Qed.

(** What [rsa_pkey_to_n_e] delivers for a key holding [vn] and [ve]. *)
Lemma rsa_to_values key vn ve n0 ns0 e0 es0 (w : World) rn rns re res w' :
  pkey_rsa key = Some (vn, ve) ->
  rsa_pkey_to_n_e key (Loc n0) (Loc ns0) (Loc e0) (Loc es0) w
    = Ret (0, (rn, rns, re, res)) w' ->
  rn = Loc (Some (be_minimal vn)) /\
  rns = Loc (Z.of_nat (List.length (be_minimal vn))) /\
  re = Loc (Some (be_minimal ve)) /\
  res = Loc (Z.of_nat (List.length (be_minimal ve))).
Proof.
  intros Hkey H. cbv beta zeta delta [rsa_pkey_to_n_e] in H. run H.
  all: try (failed; lia).
  all: calls.
  - match goal with
    | Hn : EVP_PKEY_get_bn_param _ OSSL_PKEY_PARAM_RSA_N _ _ _ = _ |- _ =>
        eapply get_bn_rsa_n in Hn as (bn_n & Hbn & Hvn); [| nonzero | exact Hkey]
    end.
    match goal with
    | He : EVP_PKEY_get_bn_param _ OSSL_PKEY_PARAM_RSA_E _ _ _ = _ |- _ =>
        eapply get_bn_rsa_e in He as (bn_e & Hbe & Hve); [| nonzero | exact Hkey]
    end.
    subst.
    repeat match goal with
    | Hs : Some _ = Some _ |- _ => inversion Hs; subst; clear Hs
    end.
    apply rsa_n_e_out_values in H. exact H.
  - match goal with
    | Hg : EVP_PKEY_get0_RSA _ _ _ = _ |- _ =>
        eapply get0_RSA_key in Hg; [| exact Hkey]
    end.
    match goal with
    | Hn : RSA_get0_n ?rsa = Some ?bn, He : RSA_get0_e ?rsa = Some ?be,
      Hr : rsa_n_e ?rsa = Some _ |- _ =>
        pose proof (RSA_get0_n_val _ _ _ _ Hn Hr) as Hvn;
        pose proof (RSA_get0_e_val _ _ _ _ He Hr) as Hve
    end.
    apply rsa_n_e_out_values in H. rewrite Hvn, Hve in H. exact H.
Qed.

(** C2. For a provider that keeps the contract: the key that
    [rsa_pkey_from_n_e] builds from the big-endian buffers [n] and [e] is
    one from which [rsa_pkey_to_n_e], when it succeeds, returns for each
    number its minimal big-endian encoding: a buffer that encodes the
    integer the input buffer encoded, without a leading zero byte,
    together with its length. *)
Theorem rsa_n_e_round_trip n e k0 (w : World) out w1 :
  rsa_pkey_from_n_e n e (Loc k0) w = Ret (0, out) w1 ->
  exists key,
    out = Loc (Some key) /\
    forall n0 ns0 e0 es0 (w2 : World) rn rns re res w3,
      rsa_pkey_to_n_e key (Loc n0) (Loc ns0) (Loc e0) (Loc es0) w2
        = Ret (0, (rn, rns, re, res)) w3 ->
      exists n' e',
        rn = Loc (Some n') /\ rns = Loc (Z.of_nat (List.length n')) /\
        re = Loc (Some e') /\ res = Loc (Z.of_nat (List.length e')) /\
        n' = be_minimal (be_value n) /\ e' = be_minimal (be_value e) /\
        be_value n' = be_value n /\ hd_error n' <> Some x00 /\
        be_value e' = be_value e /\ hd_error e' <> Some x00.
Proof.
  intros H. apply rsa_from_key in H as (key & -> & Hkey).
  exists key. split; [reflexivity|].
  intros n0 ns0 e0 es0 w2 rn rns re res w3 Hto.
  eapply rsa_to_values in Hto as (-> & -> & -> & ->); [|exact Hkey].
  eexists _, _. repeat split.
  - apply be_value_minimal.
  - apply be_minimal_no_leading_zero.
  - apply be_value_minimal.
  - apply be_minimal_no_leading_zero.
Qed.

Lemma ecc_x_y_out_values curve_id bn_x bn_y rc rx rxs ry rys (w : World) outs w' :
  ecc_x_y_out curve_id bn_x bn_y rc rx rxs ry rys w = Ret (0, outs) w' ->
  outs = (store_opt rc curve_id,
          store_opt rx (Some (be_minimal (bn_val bn_x))),
          store_opt rxs (Z.of_nat (List.length (be_minimal (bn_val bn_x)))),
          store_opt ry (Some (be_minimal (bn_val bn_y))),
          store_opt rys (Z.of_nat (List.length (be_minimal (bn_val bn_y))))).
Proof.
  intros H. cbv beta zeta delta [ecc_x_y_out] in H. run H.
  all: try (failed; lia).
  repeat match goal with
  | Hm : malloc _ _ = Ret (Some _) _ |- _ => apply malloc_Some in Hm; subst
  end.
  repeat match goal with
  | Hb : bn2bin_into _ _ _ _ = Ret _ _ |- _ =>
      apply bn2bin_into_Ret in Hb as [? ?]; [|reflexivity]
  end.
  subst. congruence.
Qed.

(** The key built by [ecc_pkey_from_curve_x_y] holds the curve and the
    point given. *)
Lemma ecc_from_key curve_id x y k0 (w : World) out w1 :
  ecc_pkey_from_curve_x_y curve_id x y (Loc k0) w = Ret (0, out) w1 ->
  ec_on_curve curve_id (be_value x) (be_value y) = true /\
  exists key,
    out = Loc (Some key) /\
    pkey_ec key = Some (curve_id, ec_canon curve_id (be_value x),
                        ec_canon curve_id (be_value y)).
Proof.
  intros H. cbv beta zeta delta [ecc_pkey_from_curve_x_y] in H. run H.
  all: try (failed; lia).
  all: calls.
  all: repeat match goal with
       | Hb : BN_bin2bn _ _ _ = (Some _, _, _) |- _ => apply BN_bin2bn_val in Hb
       end.
  all: match goal with
       | Hg : EC_GROUP_new_by_curve_name _ _ _ = _ |- _ =>
           pose proof (group_by_name_known _ _ _ _ _ _ Hg) as (name & Hname);
           apply group_by_name_nid in Hg
       end.
  all: match goal with
       | Hs : EC_POINT_set_affine_coordinates _ _ _ _ _ _ = _ |- _ =>
           apply set_affine_point in Hs as [Hon Hpt]; [|nonzero]
       end.
  all: repeat match goal with
       | Hv : bn_val _ = _ |- _ => rewrite Hv in *; clear Hv
       end.
  all: match goal with
       | Hg : group_nid _ = _ |- _ => rewrite Hg in *
       end.
  all: split; [exact Hon|].
  - (* provider generation 3 *)
    match goal with
    | Hc : EVP_PKEY_CTX_new_id _ _ _ = _ |- _ => apply CTX_new_id_alg in Hc
    end.
    match goal with
    | Hi : EVP_PKEY_fromdata_init _ _ _ = _ |- _ =>
        apply fromdata_init_alg in Hi; [|nonzero]
    end.
    match goal with
    | Hn : OSSL_PARAM_BLD_new _ _ = _ |- _ => apply BLD_new_items in Hn
    end.
    rewrite Hname in *.
    match goal with
    | Hp : OSSL_PARAM_BLD_push_utf8_string _ _ _ _ _ = _ |- _ =>
        apply BLD_push_utf8_items in Hp; [|nonzero]
    end.
    match goal with
    | Hb : EC_POINT_point2buf _ _ _ _ _ = (?len, _, _, _),
      Hnz : (?len =? 0) = false |- _ =>
        apply Z.eqb_neq in Hnz;
        destruct (point2buf_octets _ _ _ _ _ _ _ _ _ _ _ Hb Hnz eq_refl Hpt)
          as [Hbuf Hlen]
    end.
    subst.
    match goal with
    | Hp : OSSL_PARAM_BLD_push_octet_string _ _ _ _ _ _ = _ |- _ =>
        apply BLD_push_octet_items in Hp; [|nonzero]
    end.
    match goal with
    | Ht : OSSL_PARAM_BLD_to_param _ _ _ = _ |- _ => apply BLD_to_param_items in Ht
    end.
    match goal with
    | Hf : EVP_PKEY_fromdata _ _ _ _ _ _ = _ |- _ =>
        eapply fromdata_ec in Hf as (key & -> & Hkey);
          [| nonzero | congruence | exact Hname
           | apply ec_canon_idem | apply ec_canon_idem | ]
    end.
    + exists key. split; [reflexivity|]. exact Hkey.
    + match goal with
      | H1 : param_items ?p = bld_items ?b2,
        H2 : bld_items ?b2 = bld_items ?b1 ++ _,
        H3 : bld_items ?b1 = bld_items ?b0 ++ _,
        H4 : bld_items ?b0 = [] |- param_items ?p = _ =>
          rewrite H1, H2, H3, H4
      end.
      reflexivity.
  - (* older generation *)
    match goal with
    | Hs : EC_KEY_set_group _ _ _ _ = _ |- _ => apply set_group_key in Hs; [|nonzero]
    end.
    match goal with
    | Hs : EC_KEY_set_public_key _ _ _ _ = _ |- _ =>
        apply set_public_key_key in Hs as [Hnid Hxy]; [|nonzero]
    end.
    match goal with
    | Ha : EVP_PKEY_assign_EC_KEY _ ?ek _ _ = (?r, _, _, _),
      Hnz : (?r =? 0) = false |- _ =>
        apply Z.eqb_neq in Hnz;
        assert (Hn : eckey_nid ek = Some curve_id) by congruence;
        assert (Hp : eckey_xy ek = Some (ec_canon curve_id (be_value x),
                                         ec_canon curve_id (be_value y)))
          by congruence;
        pose proof (assign_EC_KEY_key _ _ _ _ _ _ _ _ _ _ Ha Hnz Hn Hp) as Hkey
    end.
    eexists. split; [reflexivity | exact Hkey].
Qed.

(** What [ecc_pkey_to_curve_x_y] delivers for a key holding the curve
    [nid] and the point ([vx], [vy]). *)
Lemma ecc_to_values key nid vx vy rc rx rxs ry rys (w : World) outs w' :
  pkey_ec key = Some (nid, vx, vy) ->
  ecc_pkey_to_curve_x_y key rc rx rxs ry rys w = Ret (0, outs) w' ->
  outs = (store_opt rc nid,
          store_opt rx (Some (be_minimal vx)),
          store_opt rxs (Z.of_nat (List.length (be_minimal vx))),
          store_opt ry (Some (be_minimal vy)),
          store_opt rys (Z.of_nat (List.length (be_minimal vy)))).
Proof.
  intros Hkey H. cbv beta zeta delta [ecc_pkey_to_curve_x_y] in H. run H.
  all: try (failed; lia).
  all: calls.
  - match goal with
    | Hn : EVP_PKEY_get_utf8_string_param _ _ (Some _) _ _ = _ |- _ =>
        eapply get_group_name in Hn; [| nonzero | exact Hkey];
        apply curve_name_nid in Hn
    end.
    match goal with
    | Hx : EVP_PKEY_get_bn_param _ OSSL_PKEY_PARAM_EC_PUB_X _ _ _ = _ |- _ =>
        eapply get_bn_ec_x in Hx as (bn_x & Hbx & Hvx); [| nonzero | exact Hkey]
    end.
    match goal with
    | Hy : EVP_PKEY_get_bn_param _ OSSL_PKEY_PARAM_EC_PUB_Y _ _ _ = _ |- _ =>
        eapply get_bn_ec_y in Hy as (bn_y & Hby & Hvy); [| nonzero | exact Hkey]
    end.
    subst.
    repeat match goal with
    | Hs : Some _ = Some _ |- _ => inversion Hs; subst; clear Hs
    end.
    apply ecc_x_y_out_values in H. rewrite H. reflexivity.
  - match goal with
    | Hg : EVP_PKEY_get0_EC_KEY _ _ _ = _ |- _ =>
        eapply get0_EC_KEY_key in Hg as [Hnid Hxy]; [| exact Hkey]
    end.
    match goal with
    | Hg : EC_KEY_get0_group _ = Some _ |- _ =>
        pose proof (get0_group_nid _ _ _ Hg Hnid) as Hgn
    end.
    match goal with
    | Hp : EC_KEY_get0_public_key _ = Some _ |- _ =>
        pose proof (get0_public_key_xy _ _ _ Hp Hxy) as Hpt
    end.
    match goal with
    | Ha : EC_POINT_get_affine_coordinates _ _ _ _ _ _ = _ |- _ =>
        eapply get_affine_xy in Ha as [Hvx Hvy]; [| nonzero | exact Hpt]
    end.
    apply ecc_x_y_out_values in H. rewrite H, Hvx, Hvy.
    rewrite group_curve_name, Hgn. reflexivity.
Qed.

Lemma ecc_from_returns curve_id x y k0 :
  returns (ecc_pkey_from_curve_x_y curve_id x y (Loc k0)).
Proof. cbv beta zeta delta [ecc_pkey_from_curve_x_y]. cbn [nonnull]. returning. Qed.

(** A point the provider does not accept: every path ends in the error
    drain, nothing is written. *)
Lemma ecc_from_off_curve curve_id x y k0 (w : World) r out w1 :
  ec_on_curve curve_id (be_value x) (be_value y) = false ->
  ecc_pkey_from_curve_x_y curve_id x y (Loc k0) w = Ret (r, out) w1 ->
  out = Loc k0 /\ r = (if hd false (heap w) then - ENOMEM else - EIO).
Proof.
  intros Hoff H. cbv beta zeta delta [ecc_pkey_from_curve_x_y] in H. run H.
  all: calls_heap.
  all: try match goal with
       | Hs : EC_POINT_set_affine_coordinates _ _ _ _ _ _ = (?r, _, _, _),
         Hnz : (?r =? 0) = false |- _ =>
           exfalso; apply Z.eqb_neq in Hnz;
           apply set_affine_point in Hs as [Hon _]; [|exact Hnz];
           repeat match goal with
           | Hb : BN_bin2bn _ _ _ = (Some _, _, _) |- _ =>
               apply BN_bin2bn_val in Hb; rewrite Hb in Hon
           end;
           match goal with
           | Hg : EC_GROUP_new_by_curve_name _ _ _ = _ |- _ =>
               apply group_by_name_nid in Hg; rewrite Hg in Hon
           end;
           congruence
       end.
  all: split; [congruence|].
  all: match goal with
       | Hl : log_openssl_errors _ _ _ = Ret _ _ |- _ =>
           apply log_openssl_errors_Ret in Hl; rewrite Hl
       end.
  all: repeat match goal with Hh : heap _ = heap _ |- _ => rewrite Hh; clear Hh end.
  all: reflexivity.
Qed.

(** C3 (as amended). For a provider that keeps the contract, a curve
    identifier and big-endian coordinates [x], [y]:
    - when [ecc_pkey_from_curve_x_y] succeeds, the provider knows the curve
      and has verified the point on it, and the key is one from which
      [ecc_pkey_to_curve_x_y], when it succeeds, delivers at every output
      pointer given the same curve identifier and, for each coordinate, the
      minimal big-endian encoding, with its length, of the representative
      the provider keeps of it; that is the coordinate given whenever the
      coordinate given is such a representative;
    - when the provider does not find the point on the curve,
      [ecc_pkey_from_curve_x_y] returns an error and writes no key handle:
      the error is [IoError], or [OutOfMemory] when the diagnostic buffer
      of the error drain cannot be allocated. *)
Theorem ecc_curve_x_y_round_trip curve_id x y k0 (w : World) :
  (forall out w1,
     ecc_pkey_from_curve_x_y curve_id x y (Loc k0) w = Ret (0, out) w1 ->
     ec_on_curve curve_id (be_value x) (be_value y) = true /\
     exists key,
       out = Loc (Some key) /\
       forall rc rx rxs ry rys (w2 : World) outs w3,
         ecc_pkey_to_curve_x_y key rc rx rxs ry rys w2 = Ret (0, outs) w3 ->
         exists x' y',
           outs = (store_opt rc curve_id,
                   store_opt rx (Some x'),
                   store_opt rxs (Z.of_nat (List.length x')),
                   store_opt ry (Some y'),
                   store_opt rys (Z.of_nat (List.length y'))) /\
           be_value x' = ec_canon curve_id (be_value x) /\
           hd_error x' <> Some x00 /\
           be_value y' = ec_canon curve_id (be_value y) /\
           hd_error y' <> Some x00 /\
           (ec_canon curve_id (be_value x) = be_value x ->
              x' = be_minimal (be_value x) /\ be_value x' = be_value x) /\
           (ec_canon curve_id (be_value y) = be_value y ->
              y' = be_minimal (be_value y) /\ be_value y' = be_value y)) /\
  (ec_on_curve curve_id (be_value x) (be_value y) = false ->
   exists r w1,
     ecc_pkey_from_curve_x_y curve_id x y (Loc k0) w = Ret (r, Loc k0) w1 /\
     r = (if hd false (heap w)
          then - errno_of OutOfMemory else - errno_of IoError)).
Proof.
  split.
  - intros out w1 H.
    destruct (ecc_from_key _ _ _ _ _ _ _ H) as (Hon & key & -> & Hkey).
    split; [exact Hon|].
    exists key. split; [reflexivity|].
    intros rc rx rxs ry rys w2 outs w3 Hto.
    eapply ecc_to_values in Hto; [|exact Hkey].
    eexists _, _. split; [exact Hto|].
    split; [apply be_value_minimal|].
    split; [apply be_minimal_no_leading_zero|].
    split; [apply be_value_minimal|].
    split; [apply be_minimal_no_leading_zero|].
    split; intros Hc; rewrite Hc; (split; [reflexivity | apply be_value_minimal]).
  - intros Hoff.
    destruct (ecc_from_returns curve_id x y k0 w) as ([r out] & w1 & Hrun).
    destruct (ecc_from_off_curve _ _ _ _ _ _ _ _ Hoff Hrun) as [Hout Hr].
    subst out. exists r, w1. split; [exact Hrun | exact Hr].
Qed.

End RoundTrips.

(** ** The reference provider keeps the contract *)

Lemma be_fixed_value len n : be_value (Ref.be_fixed len n) = n.
Proof.
  unfold Ref.be_fixed. rewrite be_value_app, be_value_zeros.
  apply be_value_minimal.
Qed.

Lemma be_fixed_length len n :
  (n < 256 ^ N.of_nat len)%N -> List.length (Ref.be_fixed len n) = len.
Proof.
  intros H. unfold Ref.be_fixed. rewrite length_app, repeat_length.
  pose proof (be_minimal_length n len H). lia.
Qed.

Lemma curve_by_nid_Some nid c :
  Ref.curve_by_nid nid = Some c -> c = Ref.prime256v1 /\ nid = 415.
Proof.
  unfold Ref.curve_by_nid, Ref.curves. cbn [find Ref.curve_nid Ref.prime256v1].
  destruct (Z.eqb_spec 415 nid); [|discriminate].
  intros H; inversion H; auto.
Qed.

Lemma canon_bound x : Ref.canon 415 x = x -> (x < 256 ^ N.of_nat 32)%N.
Proof.
  unfold Ref.canon.
  change (Ref.curve_by_nid 415) with (Some Ref.prime256v1). cbv beta iota.
  intros H. rewrite <- H.
  eapply N.lt_trans; [apply N.mod_lt; discriminate|]. reflexivity.
Qed.

(** Reading back the uncompressed encoding of a point. *)
Lemma point_of_octets_octets x y xy :
  Ref.canon 415 x = x -> Ref.canon 415 y = y ->
  Ref.point_of_octets Ref.prime256v1 (Ref.octets 415 x y) = Some xy ->
  xy = (x, y).
Proof.
  intros Hx Hy.
  pose proof (be_fixed_length 32 x (canon_bound x Hx)) as Hlx.
  pose proof (be_fixed_length 32 y (canon_bound y Hy)) as Hly.
  unfold Ref.octets. change (Ref.curve_by_nid 415) with (Some Ref.prime256v1).
  cbv beta iota. change (Ref.curve_len Ref.prime256v1) with 32%nat.
  unfold Ref.point_of_octets. change (Ref.curve_len Ref.prime256v1) with 32%nat.
  rewrite firstn_app, skipn_app, Hlx.
  change (32 - 32)%nat with 0%nat.
  rewrite (firstn_all2 (n := 32) (Ref.be_fixed 32 x)) by lia.
  rewrite (skipn_all2 (n := 32) (Ref.be_fixed 32 x)) by lia.
  cbn [firstn skipn]. rewrite app_nil_r.
  cbn [app]. rewrite !be_fixed_value.
  destruct (_ && _); [|discriminate].
  destruct (_ && _); [|discriminate].
  intros H; inversion H; reflexivity.
Qed.

Lemma attempt_inv {A} (failure : A) result s q a s' q' :
  Ref.attempt failure result s q = (a, s', q') ->
  result = Some a \/ a = failure.
Proof.
  unfold Ref.attempt.
  destruct s as [|e s0]; cbn.
  - destruct result; intros H; inversion H; auto.
  - destruct (e =? 0); [destruct result|]; intros H; inversion H; auto.
Qed.

(** A law of the contract, for a call that reported success. *)
Ltac ref_law H :=
  cbn in H; apply attempt_inv in H as [H|H];
  [ | solve [ discriminate H
            | inversion H; subst; congruence
            | inversion H; subst; lia ] ].

Lemma Ref_contract (major : Z) :
  KeyContract (Ref.provider major) (Ref.view major).
Proof.
  constructor; cbn.
  - (* BN_bin2bn_val *)
    intros bs s q b s' q' H. ref_law H. congruence.
  - (* BN_num_bytes_val *)
    reflexivity.
  - (* BN_bn2bin_val *)
    reflexivity.
  - (* BLD_new_items *)
    intros s q b s' q' H. ref_law H. congruence.
  - (* BLD_push_BN_items *)
    intros b k bn s q r b' s' q' H Hr. ref_law H. congruence.
  - (* BLD_push_utf8_items *)
    intros b k v s q r b' s' q' H Hr. ref_law H. congruence.
  - (* BLD_push_octet_items *)
    intros b k v s q r b' s' q' H Hr. ref_law H.
    rewrite Nat2Z.id, firstn_all in H. congruence.
  - (* BLD_to_param_items *)
    intros b s q p s' q' H. ref_law H. congruence.
  - (* CTX_new_id_alg *)
    intros id s q c s' q' H. ref_law H.
    destruct (_ || _); inversion H; reflexivity.
  - (* fromdata_init_alg *)
    intros c s q r c' s' q' H Hr. ref_law H.
    destruct c; inversion H; reflexivity.
  - (* fromdata_rsa *)
    intros c sel p n e s q r k s' q' H Hr Halg Hitems. ref_law H.
    destruct c as [id|]; [|discriminate]. cbn in Halg. subst id.
    cbn in Hitems. rewrite Hitems in H.
    change (Ref.key_of_items EVP_PKEY_RSA
              [(OSSL_PKEY_PARAM_RSA_N, PBN n); (OSSL_PKEY_PARAM_RSA_E, PBN e)])
      with (Some (Ref.KeyRSA n e)) in H.
    cbn in H. inversion H; subst.
    eexists. split; reflexivity.
  - (* fromdata_ec *)
    intros c sel p nid name x y s q r k s' q' H Hr Halg Hname Hx Hy Hitems.
    ref_law H.
    destruct c as [id|]; [|discriminate]. cbn in Halg. subst id.
    cbn in Hname, Hitems, Hx, Hy.
    destruct (Ref.curve_by_nid nid) as [c0|] eqn:Hc; [|discriminate].
    apply curve_by_nid_Some in Hc as [-> ->].
    cbn in Hname. inversion Hname; subst name. clear Hname.
    rewrite Hitems in H.
    change (Ref.key_of_items EVP_PKEY_EC
              [(OSSL_PKEY_PARAM_GROUP_NAME, PUtf8 "prime256v1");
               (OSSL_PKEY_PARAM_PUB_KEY, POctet (Ref.octets 415 x y))])
      with (match Ref.point_of_octets Ref.prime256v1 (Ref.octets 415 x y) with
            | Some (x0, y0) => Some (Ref.KeyEC 415 x0 y0)
            | None => None
            end) in H.
    destruct (Ref.point_of_octets Ref.prime256v1 (Ref.octets 415 x y))
      as [xy|] eqn:Hpt; [|discriminate].
    apply point_of_octets_octets in Hpt; [|assumption|assumption]. subst xy.
    cbn in H. inversion H; subst. eexists. split; reflexivity.
  - (* get_bn_rsa_n *)
    intros key n e s q r b s' q' H Hr Hkey. ref_law H.
    destruct key; try discriminate. cbn in Hkey. inversion Hkey; subst.
    cbn in H. inversion H; subst. eexists. split; reflexivity.
  - (* get_bn_rsa_e *)
    intros key n e s q r b s' q' H Hr Hkey. ref_law H.
    destruct key; try discriminate. cbn in Hkey. inversion Hkey; subst.
    cbn in H. inversion H; subst. eexists. split; reflexivity.
  - (* get_bn_ec_x *)
    intros key nid x y s q r b s' q' H Hr Hkey. ref_law H.
    destruct key; try discriminate. cbn in Hkey. inversion Hkey; subst.
    cbn in H. inversion H; subst. eexists. split; reflexivity.
  - (* get_bn_ec_y *)
    intros key nid x y s q r b s' q' H Hr Hkey. ref_law H.
    destruct key; try discriminate. cbn in Hkey. inversion Hkey; subst.
    cbn in H. inversion H; subst. eexists. split; reflexivity.
  - (* get_group_name *)
    intros key nid x y cap s q r name len s' q' H Hr Hkey. ref_law H.
    destruct key; try discriminate. cbn in Hkey. inversion Hkey; subst.
    cbn in H |- *.
    destruct (Ref.curve_by_nid nid) as [c0|]; [|discriminate]. cbn in H |- *.
    destruct (_ <? _); inversion H; reflexivity.
  - (* RSA_set0_key_n_e *)
    intros rsa bn_n bn_e s q r rsa' s' q' H Hr. ref_law H. inversion H; reflexivity.
  - (* assign_RSA_key *)
    intros pkey rsa ne s q r pkey' s' q' H Hr Hrsa. ref_law H.
    cbn in Hrsa. subst rsa. destruct ne. inversion H; reflexivity.
  - (* get0_RSA_key *)
    intros key ne s q rsa s' q' H Hkey. ref_law H.
    destruct key; try discriminate. cbn in Hkey. inversion Hkey; subst.
    inversion H; reflexivity.
  - (* RSA_get0_n_val *)
    intros rsa n e bn Hn Hr. cbn in *. subst rsa. cbn in Hn. congruence.
  - (* RSA_get0_e_val *)
    intros rsa n e bn Hn Hr. cbn in *. subst rsa. cbn in Hn. congruence.
  - (* group_by_name_nid *)
    intros nid s q g s' q' H. ref_law H.
    destruct (Ref.curve_by_nid nid) as [c0|] eqn:Hc; [|discriminate].
    apply curve_by_nid_Some in Hc as [-> ->]. cbn in H. inversion H; reflexivity.
  - (* group_by_name_known *)
    intros nid s q g s' q' H. ref_law H. cbn.
    destruct (Ref.curve_by_nid nid) as [c0|]; [|discriminate].
    eexists; reflexivity.
  - (* curve_name_nid *)
    intros nid name H. cbn in H.
    destruct (Ref.curve_by_nid nid) as [c0|] eqn:Hc; [|discriminate].
    apply curve_by_nid_Some in Hc as [-> ->]. cbn in H. inversion H; subst.
    reflexivity.
  - (* group_curve_name *)
    reflexivity.
  - (* ec_canon_idem *)
    intros nid x. unfold Ref.canon.
    destruct (Ref.curve_by_nid nid); [|reflexivity].
    apply N.Div0.mod_mod.
  - (* set_affine_point *)
    intros g pt bx by_ s q r pt' s' q' H Hr. ref_law H.
    destruct (Ref.on_curve g bx by_) eqn:Hon; [|discriminate].
    inversion H; subst. split; reflexivity.
  - (* point2buf_octets *)
    intros g pt form s q len buf x y s' q' H Hlen Hform Hpt. ref_law H.
    cbn in Hpt. rewrite Hpt in H. subst form. cbn in H.
    inversion H; subst. split; reflexivity.
  - (* set_group_key *)
    intros ek g s q r ek' s' q' H Hr. ref_law H. inversion H; reflexivity.
  - (* set_public_key_key *)
    intros ek pt s q r ek' s' q' H Hr. ref_law H. inversion H; split; reflexivity.
  - (* assign_EC_KEY_key *)
    intros pkey ek nid xy s q r pkey' s' q' H Hr Hn Hxy. ref_law H.
    destruct ek as [on oxy]. cbn in Hn, Hxy. subst. destruct xy.
    inversion H; reflexivity.
  - (* get0_EC_KEY_key *)
    intros key nid x y s q ek s' q' H Hkey. ref_law H.
    destruct key; try discriminate. cbn in Hkey. inversion Hkey; subst.
    inversion H; split; reflexivity.
  - (* get0_group_nid *)
    intros ek g nid Hg Hn. cbn in *. congruence.
  - (* get0_public_key_xy *)
    intros ek pt xy Hp Hxy. cbn in *.
    destruct ek as [[nid|] [xy0|]]; try discriminate.
    cbn in Hxy. inversion Hp; subst. exact Hxy.
  - (* get_affine_xy *)
    intros g pt bx by_ x y s q r bx' by' s' q' H Hr Hpt. ref_law H.
    cbn in Hpt. rewrite Hpt in H. inversion H; split; reflexivity.
Qed.

(** * Further properties of the layer *)

(** ** Logging and allocation along a run *)

Section Reports.

Context {prov : Provider}.

Lemma hushed_refl (w : World) : hushed w w.
Proof. split; [reflexivity|]. exists 0%nat. reflexivity. Qed.

Lemma hushed_trans (w1 w2 w3 : World) : hushed w1 w2 -> hushed w2 w3 -> hushed w1 w3.
Proof.
  intros [Hj1 [n1 Hh1]] [Hj2 [n2 Hh2]]. split; [congruence|].
  exists (n2 + n1)%nat. rewrite Hh2, Hh1. apply skipn_skipn.
Qed.

Lemma logged_after (w w1 w' : World) r : hushed w w1 -> logged r w1 w' -> logged r w w'.
Proof.
  intros [Hj _] (l & e & Hl & He). exists l, e. split; [congruence | exact He].
Qed.

Lemma report_after codes (w w1 : World) r w' :
  hushed w w1 -> report codes w1 r w' -> report codes w r w'.
Proof.
  intros Hh [[Hr Hq]|(Hr & Hin & Hl)].
  - left. split; [exact Hr|]. eapply hushed_trans; eauto.
  - right. split; [exact Hr|]. split; [exact Hin|]. eapply logged_after; eauto.
Qed.

Lemma report_incl codes codes' (w : World) r w' :
  report codes w r w' -> incl codes codes' -> report codes' w r w'.
Proof.
  intros [H|(Hr & Hin & Hl)] Hi; [left; exact H|].
  right. split; [exact Hr|]. split; [apply Hi; exact Hin | exact Hl].
Qed.

Lemma report_hushed codes (w : World) r w' :
  report codes w r w' -> 0 <= r -> r = 0 /\ hushed w w'.
Proof. intros [H|(Hr & _)] Hp; [exact H | lia]. Qed.

Lemma steady_skipn (w w' : World) n :
  heap w' = skipn n (heap w) -> steady w -> steady w'.
Proof.
  unfold steady. intros -> H. rewrite <- (firstn_skipn n (heap w)) in H.
  apply Forall_app in H. tauto.
Qed.

Lemma hushed_steady (w w' : World) : hushed w w' -> steady w -> steady w'.
Proof. intros [_ [n Hn]]. eapply steady_skipn; eauto. Qed.

Lemma steady_hd (w : World) : steady w -> hd false (heap w) = false.
Proof. unfold steady. destruct (heap w); [reflexivity|]. intros H. inversion H; auto. Qed.

Lemma call_hushed {A} (op : ossl_call ossl_state A) (w : World) a w' :
  call op w = Ret a w' -> hushed w w'.
Proof.
  intros H. apply call_Ret in H as (s & q & _ & ->).
  split; [reflexivity|]. exists 0%nat. reflexivity.
Qed.

Lemma malloc_hushed size (w : World) b w' :
  malloc size w = Ret b w' -> hushed w w'.
Proof.
  intros H. apply malloc_Ret in H as (_ & _ & _ & _ & Hj & Hh).
  split; [exact Hj|]. exists 1%nat. rewrite Hh. destruct (heap w); reflexivity.
Qed.

Lemma malloc_steady size (w : World) b w' :
  malloc size w = Ret b w' -> steady w -> b <> None.
Proof.
  intros H Hs. apply malloc_Ret in H as (_ & Hn & _). intros E.
  apply Hn in E. rewrite (steady_hd _ Hs) in E. discriminate.
Qed.

Lemma md_fetch_hushed alg (w : World) md w' : md_fetch alg w = Ret md w' -> hushed w w'.
Proof.
  unfold md_fetch. destruct (3 <=? OPENSSL_VERSION_MAJOR); apply call_hushed.
Qed.

Lemma update_all_hushed {C} (update : C -> bytes -> ossl_call ossl_state (Z * C))
    data ctx (w : World) x w' :
  update_all update ctx data w = Ret x w' -> hushed w w'.
Proof.
  revert ctx w. induction data as [|d rest IH]; intros ctx w H; simpl in H.
  - unfold ret in H. inversion H; subst. apply hushed_refl.
  - run H.
    + match goal with Hc : call _ _ = Ret _ _ |- _ => apply call_hushed in Hc; exact Hc end.
    + match goal with Hc : call _ _ = Ret _ _ |- _ => apply call_hushed in Hc end.
      eapply hushed_trans; eauto.
Qed.

Lemma fmemopen_hushed buf (w : World) f w' : fmemopen buf w = Ret f w' -> hushed w w'.
Proof.
  intros H. unfold fmemopen in H. run H.
  all: match goal with Hm : malloc _ _ = Ret _ _ |- _ => apply malloc_hushed in Hm; exact Hm end.
Qed.

Lemma fmemopen_steady buf (w : World) f w' :
  fmemopen buf w = Ret f w' -> steady w -> f <> None.
Proof.
  intros H Hs. unfold fmemopen in H. run H; [discriminate|].
  match goal with Hm : malloc _ _ = Ret _ _ |- _ =>
    apply malloc_steady in Hm; [congruence | exact Hs] end.
Qed.

Lemma bn2bin_into_world bn buf size (w : World) b w' :
  bn2bin_into bn buf size w = Ret b w' -> w' = w /\ List.length b = List.length buf.
Proof.
  intros H. unfold bn2bin_into in H. destruct (BN_bn2bin bn) as [r written].
  run H. auto.
Qed.

(** The journal of a drain. *)
Lemma drain_queue_journal q max fmt args R jr :
  (fst (fst (drain_queue q max fmt args R jr)) = R /\
   snd (drain_queue q max fmt args R jr) = jr) \/
  (fst (fst (drain_queue q max fmt args R jr)) = - EIO /\
   exists l e, snd (drain_queue q max fmt args R jr) = jr ++ l ++ [e] /\
               log_errno e = EIO).
Proof.
  revert R jr. induction q as [|E q IH]; intros R jr; simpl; auto.
  destruct (E =? 0); simpl; auto.
  set (e0 := LogEntry LOG_DEBUG EIO (fmt ++ ": %s")%string
               (args ++ [StrArg (ERR_error_string_n E max)])).
  right.
  destruct (IH (- EIO) (jr ++ [e0])) as [[H1 H2]|(H1 & l & e & H2 & He)];
    subst e0; simpl in H1, H2; rewrite H1, H2.
  - split; [reflexivity|]. eexists [], _. split; reflexivity.
  - split; [reflexivity|]. eexists (_ :: l), e. rewrite <- app_assoc.
    split; [reflexivity|exact He].
Qed.

Lemma log_debug_errno_report codes e fmt args (w : World) r w' :
  log_debug_errno e fmt args w = Ret r w' -> 0 < e -> In e codes ->
  report codes w r w'.
Proof.
  intros H He Hin. apply log_debug_errno_Ret in H as (-> & _ & _ & _ & Hj).
  right. split; [lia|]. split; [rewrite Z.opp_involutive; exact Hin|].
  exists [], (LogEntry LOG_DEBUG e fmt args).
  split; [exact Hj | simpl; rewrite Z.opp_involutive; reflexivity].
Qed.

Lemma log_oom_debug_report codes (w : World) r w' :
  log_oom_debug w = Ret r w' -> In ENOMEM codes -> report codes w r w'.
Proof.
  intros H Hin. unfold log_oom_debug in H.
  eapply log_debug_errno_report; eauto. reflexivity.
Qed.

Lemma drain_Ret buf max fmt args (w : World) R w' :
  __log_openssl_errors buf max fmt args w = Ret R w' ->
  (R = 0 /\ hushed w w') \/ (R = - EIO /\ logged R w w').
Proof.
  unfold __log_openssl_errors. intros H.
  pose proof (drain_queue_journal (err_queue w) max fmt args 0 (journal w)) as Hj.
  destruct (drain_queue (err_queue w) max fmt args 0 (journal w)) as [[R0 q] jr].
  simpl in Hj. inversion H; subst; clear H.
  destruct Hj as [[-> ->]|(-> & l & e & -> & He)].
  - left. split; [reflexivity|]. split; [reflexivity|]. exists 0%nat. reflexivity.
  - right. split; [reflexivity|]. exists l, e. split; [reflexivity|].
    rewrite He. reflexivity.
Qed.

Lemma log_openssl_errors_report codes fmt args (w : World) r w' :
  log_openssl_errors fmt args w = Ret r w' -> In EIO codes -> In ENOMEM codes ->
  report codes w r w'.
Proof.
  intros H Hio Hoom. unfold log_openssl_errors in H. run H.
  all: match goal with Hm : malloc _ _ = Ret _ _ |- _ =>
         apply malloc_hushed in Hm; eapply report_after; [exact Hm|] end.
  - match goal with Hd : __log_openssl_errors _ _ _ _ _ = Ret _ _ |- _ =>
      apply drain_Ret in Hd as [[-> Hd]|[-> Hd]]; [|discriminate] end.
    eapply report_after; [eassumption|].
    eapply log_debug_errno_report; [eassumption|reflexivity|exact Hio].
  - match goal with Hd : __log_openssl_errors _ _ _ _ _ = Ret _ _ |- _ =>
      apply drain_Ret in Hd as [[-> Hd]|[-> Hd]]; [discriminate|];
      right; split; [reflexivity|]; split; [exact Hio | exact Hd] end.
  - apply log_oom_debug_report; assumption.
Qed.

Lemma log_openssl_errors_steady fmt args (w : World) r w' :
  log_openssl_errors fmt args w = Ret r w' -> steady w -> r = - EIO.
Proof.
  intros H Hs. apply log_openssl_errors_Ret in H. rewrite (steady_hd _ Hs) in H. exact H.
Qed.

Lemma read_buf_Ret (p : option bytes) size (w : World) b w' :
  read_buf p size w = Ret b w' -> w' = w /\ Z.of_nat (List.length b) = Z.max 0 size.
Proof.
  unfold read_buf. destruct (Z.eqb_spec size 0) as [->|Hn].
  - unfold ret. intros E; inversion E; subst. auto.
  - destruct p as [blk|]; [|discriminate].
    destruct (Nat.leb_spec (Z.to_nat size) (List.length blk)) as [Hle|Hgt];
      [|discriminate].
    unfold ret. intros E; inversion E; subst. split; [reflexivity|].
    rewrite length_firstn. lia.
Qed.

End Reports.

(** The goal [report codes w r w'], moved along the steps taken from [w]. *)
Ltac advance :=
  repeat match goal with
  | |- report _ ?w _ _ =>
      match goal with
      | H : call _ w = Ret _ _ |- _ => apply call_hushed in H
      | H : malloc _ w = Ret _ _ |- _ => apply malloc_hushed in H
      | H : md_fetch _ w = Ret _ _ |- _ => apply md_fetch_hushed in H
      | H : update_all _ _ _ w = Ret _ _ |- _ => apply update_all_hushed in H
      | H : fmemopen _ w = Ret _ _ |- _ => apply fmemopen_hushed in H
      | H : bn2bin_into _ _ _ w = Ret _ _ |- _ => apply bn2bin_into_world in H as [-> _]
      | H : sign_input _ _ w = Ret _ _ |- _ => apply sign_input_Ret in H as [-> _]
      | H : read_buf _ _ w = Ret _ _ |- _ => apply read_buf_Ret in H as [-> _]
      | H : report _ w ?r _, Hlt : (?r <? 0) = false |- _ =>
          apply report_hushed in H as [_ H]; [|apply Z.ltb_ge; exact Hlt]
      | H : hushed w ?w1 |- _ => apply (report_after _ w w1 _ _ H); clear H
      end
  end.

(** The end of a path: success, or the logging call that gives the result. *)
Ltac conclude :=
  first
    [ left; split; [reflexivity | apply hushed_refl]
    | eapply log_openssl_errors_report; [eassumption | simpl; tauto | simpl; tauto]
    | eapply log_oom_debug_report; [eassumption | simpl; tauto]
    | eapply log_debug_errno_report; [eassumption | reflexivity | simpl; tauto]
    | eapply report_incl; [eassumption | intros ? ?; simpl in *; tauto] ].

(** With [steady w], the steps taken from [w]: no allocation fails. *)
Ltac steadily :=
  repeat match goal with
  | Hs : steady ?w |- _ =>
      match goal with
      | H : malloc _ w = Ret None _ |- _ =>
          exfalso; exact (malloc_steady _ _ _ _ H Hs eq_refl)
      | H : fmemopen _ w = Ret None _ |- _ =>
          exfalso; exact (fmemopen_steady _ _ _ _ H Hs eq_refl)
      | H : call _ w = Ret _ _ |- _ =>
          apply call_hushed in H; apply (hushed_steady _ _ H) in Hs; clear H
      | H : malloc _ w = Ret _ _ |- _ =>
          apply malloc_hushed in H; apply (hushed_steady _ _ H) in Hs; clear H
      | H : md_fetch _ w = Ret _ _ |- _ =>
          apply md_fetch_hushed in H; apply (hushed_steady _ _ H) in Hs; clear H
      | H : update_all _ _ _ w = Ret _ _ |- _ =>
          apply update_all_hushed in H; apply (hushed_steady _ _ H) in Hs; clear H
      | H : fmemopen _ w = Ret _ _ |- _ =>
          apply fmemopen_hushed in H; apply (hushed_steady _ _ H) in Hs; clear H
      | H : bn2bin_into _ _ _ w = Ret _ _ |- _ => apply bn2bin_into_world in H as [-> _]
      | H : sign_input _ _ w = Ret _ _ |- _ => apply sign_input_Ret in H as [-> _]
      | H : read_buf _ _ w = Ret _ _ |- _ => apply read_buf_Ret in H as [-> _]
      | H : report _ w ?r _, Hlt : (?r <? 0) = false |- _ =>
          apply report_hushed in H as [_ H]; [|apply Z.ltb_ge; exact Hlt];
          apply (hushed_steady _ _ H) in Hs; clear H
      | H : log_openssl_errors _ _ w = Ret _ _ |- _ =>
          apply log_openssl_errors_steady in H; [|exact Hs]; clear Hs
      end
  end.

(** A result that is not [-ENOMEM]. *)
Ltac not_oom :=
  try (auto; fail);
  try match goal with
  | H : log_debug_errno _ _ _ _ = Ret _ _ |- _ => apply log_debug_errno_Ret in H as [H _]
  end;
  subst; unfold EIO, ENOMEM, EOPNOTSUPP, EBADMSG; lia.

(** What a called function of the layer has reported. *)
Ltac nested lem :=
  try match goal with
  | H : _ = Ret (_, _) _ |- _ =>
      let H' := fresh "Hn" in apply lem in H as [H H']
  end.

Ltac reporting_with f pre :=
  let H := fresh "H" in
  let Hs := fresh "Hs" in
  intros H; cbv beta zeta delta [f] in H; run H; pre;
  (split; [advance; try conclude | intros Hs; steadily; try not_oom]).

Ltac reporting f := reporting_with f idtac.

Section Reporting.

Context {prov : Provider}.

Lemma pem_report pem ret_ (w : World) r o w' :
  openssl_pkey_from_pem pem ret_ w = Ret (r, o) w' ->
  report [EIO; ENOMEM] w r w' /\ (steady w -> r <> - ENOMEM).
Proof. reporting @openssl_pkey_from_pem. Qed.

Lemma digest_size_report alg p (w : World) r o w' :
  openssl_digest_size alg p w = Ret (r, o) w' ->
  report [EOPNOTSUPP; EIO; ENOMEM] w r w' /\ (steady w -> r <> - ENOMEM).
Proof. reporting @openssl_digest_size. Qed.

Lemma rsa_from_report n e ret_ (w : World) r o w' :
  rsa_pkey_from_n_e n e ret_ w = Ret (r, o) w' ->
  report [EIO; ENOMEM] w r w' /\ (steady w -> r <> - ENOMEM).
Proof. reporting @rsa_pkey_from_n_e. Qed.

Lemma ecc_from_report c x y ret_ (w : World) r o w' :
  ecc_pkey_from_curve_x_y c x y ret_ w = Ret (r, o) w' ->
  report [EIO; ENOMEM] w r w' /\ (steady w -> r <> - ENOMEM).
Proof. reporting @ecc_pkey_from_curve_x_y. Qed.

Lemma fingerprint_report pk md ret_ rs (w : World) r o w' :
  pubkey_fingerprint pk md ret_ rs w = Ret (r, o) w' ->
  report [EIO; ENOMEM] w r w' /\ (steady w -> r <> - ENOMEM).
Proof. reporting @pubkey_fingerprint. Qed.

Lemma sign_with_report md pk data size ret_ rs (w : World) r o w' :
  sign_with md pk data size ret_ rs w = Ret (r, o) w' ->
  report [EIO; ENOMEM] w r w' /\ (steady w -> r <> - ENOMEM).
Proof. reporting @sign_with. Qed.

Lemma hmac_finish_report sz final rd rs (w : World) r o w' :
  hmac_finish sz final rd rs w = Ret (r, o) w' ->
  report [EIO; ENOMEM] w r w' /\ (steady w -> r <> - ENOMEM).
Proof. reporting @hmac_finish. Qed.

Lemma rsa_n_e_out_report bn_n bn_e rn rns re res (w : World) r o w' :
  rsa_n_e_out bn_n bn_e rn rns re res w = Ret (r, o) w' ->
  report [EIO; ENOMEM] w r w' /\ (steady w -> r <> - ENOMEM).
Proof. reporting @rsa_n_e_out. Qed.

Lemma ecc_x_y_out_report c bx by_ rc rx rxs ry rys (w : World) r o w' :
  ecc_x_y_out c bx by_ rc rx rxs ry rys w = Ret (r, o) w' ->
  report [EIO; ENOMEM] w r w' /\ (steady w -> r <> - ENOMEM).
Proof. reporting @ecc_x_y_out. Qed.

Lemma digest_many_report alg data rd rs (w : World) r o w' :
  openssl_digest_many alg data rd rs w = Ret (r, o) w' ->
  report [EOPNOTSUPP; EIO; ENOMEM] w r w' /\ (steady w -> r <> - ENOMEM).
Proof. reporting_with @openssl_digest_many ltac:(nested digest_size_report). Qed.

Lemma hmac_many_report alg key data rd rs (w : World) r o w' :
  openssl_hmac_many alg key data rd rs w = Ret (r, o) w' ->
  report [EOPNOTSUPP; EIO; ENOMEM] w r w' /\ (steady w -> r <> - ENOMEM).
Proof. reporting_with @openssl_hmac_many ltac:(nested hmac_finish_report). Qed.

Lemma rsa_to_report pkey rn rns re res (w : World) r o w' :
  rsa_pkey_to_n_e pkey rn rns re res w = Ret (r, o) w' ->
  report [EIO; ENOMEM] w r w' /\ (steady w -> r <> - ENOMEM).
Proof. reporting_with @rsa_pkey_to_n_e ltac:(nested rsa_n_e_out_report). Qed.

Lemma ecc_to_report pkey rc rx rxs ry rys (w : World) r o w' :
  ecc_pkey_to_curve_x_y pkey rc rx rxs ry rys w = Ret (r, o) w' ->
  report [EIO; ENOMEM] w r w' /\ (steady w -> r <> - ENOMEM).
Proof. reporting_with @ecc_pkey_to_curve_x_y ltac:(nested ecc_x_y_out_report). Qed.

Lemma sign_report md pk data size ret_ rs (w : World) r o w' :
  digest_and_sign md pk data size ret_ rs w = Ret (r, o) w' ->
  report [EIO; ENOMEM] w r w' /\ (steady w -> r <> - ENOMEM).
Proof. reporting_with @digest_and_sign ltac:(nested sign_with_report). Qed.

(** [rsa_encrypt_bytes] returns a bare [-ENOMEM] when its buffer cannot be
    allocated. *)
Lemma rsa_encrypt_report pkey key rk rs (w : World) r o w' :
  rsa_encrypt_bytes pkey key rk rs w = Ret (r, o) w' ->
  (report [EIO; ENOMEM] w r w' \/ (r = - ENOMEM /\ hushed w w')) /\
  (steady w -> r <> - ENOMEM).
Proof.
  intros H. cbv beta zeta delta [rsa_encrypt_bytes] in H. run H.
  all: split; [|intros Hs; steadily; try not_oom].
  all: try (left; advance; conclude).
  right. split; [reflexivity|].
  match goal with |- hushed ?a ?b =>
    enough (Hrep : report [EIO; ENOMEM] a 0 b)
      by (apply report_hushed in Hrep; [tauto | lia])
  end.
  advance. conclude.
Qed.

Lemma log_debug_Ret fmt args (w : World) u w' :
  log_debug fmt args w = Ret u w' ->
  journal w' = journal w ++ [LogEntry LOG_DEBUG 0 fmt args].
Proof.
  intros H. unfold log_debug in H. run H.
  match goal with Hl : log_debug_errno _ _ _ _ = Ret _ _ |- _ =>
    apply log_debug_errno_Ret in Hl; tauto end.
Qed.

(** [rsa_pkey_to_suitable_key_size] logs the bit count before it decides. *)
Lemma suitable_key_size_report pkey p (w : World) r o w' :
  rsa_pkey_to_suitable_key_size pkey p w = Ret (r, o) w' ->
  (r = 0 /\
   journal w' = journal w ++
     [LogEntry LOG_DEBUG 0 "Bits in RSA key: %i" [IntArg (EVP_PKEY_bits pkey)]]) \/
  ((r = - EBADMSG \/ r = - EIO) /\ logged r w w').
Proof.
  intros H. cbv beta zeta delta [rsa_pkey_to_suitable_key_size] in H. run H.
  all: try match goal with Hl : log_debug _ _ _ = Ret _ _ |- _ =>
             apply log_debug_Ret in Hl end.
  - right. apply log_debug_errno_Ret in H as (-> & _ & _ & _ & Hj).
    split; [auto|]. eexists [], _. split; [exact Hj | reflexivity].
  - right. apply log_debug_errno_Ret in H as (-> & _ & _ & _ & Hj).
    split; [auto|]. eexists [_], _. split.
    + rewrite Hj. match goal with Hl : journal _ = _ |- _ => rewrite Hl end.
      rewrite <- app_assoc. reflexivity.
    + reflexivity.
  - left. split; [reflexivity | assumption].
Qed.

End Reporting.

Section ReportingGeneration.

Context {prov : Provider} {gen : KeygenProvider prov} {certs : X509Provider prov}.

Lemma rsa_new_report bits ret_ (w : World) r o w' :
  rsa_pkey_new bits ret_ w = Ret (r, o) w' ->
  report [EIO; ENOMEM] w r w' /\ (steady w -> r <> - ENOMEM).
Proof. reporting @rsa_pkey_new. Qed.

Lemma ecc_new_report curve_id ret_ (w : World) r o w' :
  ecc_pkey_new curve_id ret_ w = Ret (r, o) w' ->
  report [EIO; ENOMEM] w r w' /\ (steady w -> r <> - ENOMEM).
Proof. reporting @ecc_pkey_new. Qed.

Lemma x509_report have sha cert buffer (w : World) r o w' :
  x509_fingerprint have sha cert buffer w = Ret (r, o) w' ->
  report [EOPNOTSUPP; EIO; ENOMEM] w r w' /\ (steady w -> r <> - ENOMEM).
Proof. reporting @x509_fingerprint. Qed.

End ReportingGeneration.

(** ** The diagnostics of a drain *)

Section Drain.

Context {prov : Provider}.

Lemma drain_queue_all q max fmt args R jr :
  Forall (fun E => E <> 0) q ->
  drain_queue q max fmt args R jr =
    (match q with [] => R | _ => - EIO end, [],
     jr ++ map (fun E => LogEntry LOG_DEBUG EIO (fmt ++ ": %s")%string
                           (args ++ [StrArg (ERR_error_string_n E max)])) q).
Proof.
  revert R jr. induction q as [|E q IH]; intros R jr Hq.
  - simpl. rewrite app_nil_r. reflexivity.
  - inversion Hq; subst. cbn [drain_queue map].
    destruct (Z.eqb_spec E 0) as [|_]; [contradiction|].
    rewrite IH by assumption. rewrite <- app_assoc. cbn [app].
    destruct q; reflexivity.
Qed.

(** X1. The diagnostics of one drain. When the buffer is allocated and the
    queue holds the error codes [q] (none of them the code 0),
    [log_openssl_errors] logs one entry for each code, oldest first, made of
    the caller's message and the provider's text for the code, or the one
    entry "No openssl errors." when the queue is empty; it empties the
    queue, leaves the provider state alone and returns [-EIO]. *)
Theorem log_openssl_errors_journal fmt args (w : World) :
  hd false (heap w) = false ->
  Forall (fun E => E <> 0) (err_queue w) ->
  log_openssl_errors fmt args w =
    Ret (- EIO)
      (mkWorld (ossl w) []
         (journal w ++ drain_entries fmt args (err_queue w))
         (tl (heap w))).
Proof.
  intros Hh Hq. destruct w as [s q j h]. simpl in Hh, Hq |- *.
  unfold log_openssl_errors, bind, malloc, __log_openssl_errors.
  destruct h as [|[|] h]; [|discriminate|]; simpl.
  all: rewrite (drain_queue_all _ _ _ _ _ _ Hq).
  all: unfold drain_entries; destruct q; simpl; rewrite ?app_nil_r; reflexivity.
Qed.

End Drain.

(** ** Result codes and diagnostics of the operations *)

Section Discipline.

Context {prov : Provider} {gen : KeygenProvider prov} {certs : X509Provider prov}.

Section Reported.

Context {O : Type} (codes : list Z) (m : M (Z * O)).
Hypothesis Hm : forall (w : World) r o w',
  m w = Ret (r, o) w' -> report codes w r w' /\ (steady w -> r <> - ENOMEM).

Lemma reported_codes : results_in codes m.
Proof.
  intros w r o w' H. apply Hm in H as [[[-> _]|(_ & Hin & _)] _]; auto.
Qed.

Lemma reported_failure : logs_failure m.
Proof.
  intros w r o w' H Hr. apply Hm in H as [[[-> _]|(_ & _ & Hl)] _];
    [contradiction | exact Hl].
Qed.

Lemma reported_success : silent_on_success m.
Proof.
  intros w r o w' H ->. apply Hm in H as [[[_ [Hj _]]|(Hr & _)] _]; [exact Hj | lia].
Qed.

Lemma reported_oom : oom_only_on_failed_allocation m.
Proof. intros w r o w' H. apply Hm in H as [_ H]. exact H. Qed.

End Reported.

(** The theorems of this section are about fifteen operations:
    [openssl_pkey_from_pem], [openssl_digest_size], [openssl_digest_many],
    [openssl_hmac_many], [rsa_encrypt_bytes],
    [rsa_pkey_to_suitable_key_size], [rsa_pkey_from_n_e],
    [rsa_pkey_to_n_e], [rsa_pkey_new], [ecc_pkey_from_curve_x_y],
    [ecc_pkey_to_curve_x_y], [ecc_pkey_new], [pubkey_fingerprint],
    [digest_and_sign] and [x509_fingerprint]. [string_hashsum] (lines
    741-766) is not among them: it is built from [openssl_digest] and
    [hexmem], which other files define, and the theorems say nothing of
    it. *)

(** The operations whose paths are all of the two kinds of [report]. *)
Ltac by_report lem :=
  intros; eapply lem; intros ? ? ? ?;
  first
    [ apply pem_report | apply digest_size_report | apply digest_many_report
    | apply hmac_many_report | apply rsa_from_report | apply rsa_to_report
    | apply rsa_new_report | apply ecc_from_report | apply ecc_to_report
    | apply ecc_new_report | apply fingerprint_report | apply sign_report
    | apply x509_report ].

(** X2. The result codes. Each of the fifteen operations listed above
    returns 0 or a negated errno, and no other value: [EIO] or [ENOMEM]
    from fourteen of them, [EOPNOTSUPP] besides from the three digest
    operations and from [x509_fingerprint], and [EBADMSG] or [EIO] and
    nothing else from [rsa_pkey_to_suitable_key_size]. *)
Theorem result_codes :
  (forall pem ret_,
     results_in [EIO; ENOMEM] (openssl_pkey_from_pem pem ret_)) /\
  (forall digest_alg ret_digest_size,
     results_in [EOPNOTSUPP; EIO; ENOMEM]
       (openssl_digest_size digest_alg ret_digest_size)) /\
  (forall digest_alg data ret_digest ret_digest_size,
     results_in [EOPNOTSUPP; EIO; ENOMEM]
       (openssl_digest_many digest_alg data ret_digest ret_digest_size)) /\
  (forall digest_alg key data ret_digest ret_digest_size,
     results_in [EOPNOTSUPP; EIO; ENOMEM]
       (openssl_hmac_many digest_alg key data ret_digest ret_digest_size)) /\
  (forall pkey decrypted_key ret_encrypt_key ret_encrypt_key_size,
     results_in [EIO; ENOMEM]
       (rsa_encrypt_bytes pkey decrypted_key ret_encrypt_key ret_encrypt_key_size)) /\
  (forall pkey ret_suitable_key_size,
     results_in [EBADMSG; EIO]
       (rsa_pkey_to_suitable_key_size pkey ret_suitable_key_size)) /\
  (forall n e ret_,
     results_in [EIO; ENOMEM] (rsa_pkey_from_n_e n e ret_)) /\
  (forall pkey ret_n ret_n_size ret_e ret_e_size,
     results_in [EIO; ENOMEM]
       (rsa_pkey_to_n_e pkey ret_n ret_n_size ret_e ret_e_size)) /\
  (forall bits ret_,
     results_in [EIO; ENOMEM] (rsa_pkey_new bits ret_)) /\
  (forall curve_id x y ret_,
     results_in [EIO; ENOMEM] (ecc_pkey_from_curve_x_y curve_id x y ret_)) /\
  (forall pkey ret_curve_id ret_x ret_x_size ret_y ret_y_size,
     results_in [EIO; ENOMEM]
       (ecc_pkey_to_curve_x_y pkey ret_curve_id ret_x ret_x_size ret_y ret_y_size)) /\
  (forall curve_id ret_,
     results_in [EIO; ENOMEM] (ecc_pkey_new curve_id ret_)) /\
  (forall pk md ret_ ret_size,
     results_in [EIO; ENOMEM] (pubkey_fingerprint pk md ret_ ret_size)) /\
  (forall md privkey data size ret_ ret_size,
     results_in [EIO; ENOMEM] (digest_and_sign md privkey data size ret_ ret_size)) /\
  (forall HAVE_OPENSSL sha256_direct cert buffer,
     results_in [EOPNOTSUPP; EIO; ENOMEM]
       (x509_fingerprint HAVE_OPENSSL sha256_direct cert buffer)).
Proof.
  repeat match goal with |- _ /\ _ => split end.
  all: try (by_report (@reported_codes)).
  - intros pkey key rk rs w r o w' H.
    apply rsa_encrypt_report in H as [[[[-> _]|(_ & Hin & _)]|[-> _]] _]; auto.
    right. rewrite Z.opp_involutive. simpl. auto.
  - intros pkey p w r o w' H.
    apply suitable_key_size_report in H as [[-> _]|[[-> | ->] _]]; auto.
    all: right; rewrite Z.opp_involutive; simpl; auto.
Qed.

(** X3. A failure is logged. Whenever one of the fifteen operations
    listed above returns an error it has logged at least one diagnostic
    since the call, and the last one carries the errno returned. The one
    exception among them is [rsa_encrypt_bytes], which returns a bare
    [-ENOMEM], with no diagnostic, when its output buffer cannot be
    allocated. *)
Theorem failure_is_logged :
  (forall pem ret_, logs_failure (openssl_pkey_from_pem pem ret_)) /\
  (forall digest_alg ret_digest_size,
     logs_failure (openssl_digest_size digest_alg ret_digest_size)) /\
  (forall digest_alg data ret_digest ret_digest_size,
     logs_failure (openssl_digest_many digest_alg data ret_digest ret_digest_size)) /\
  (forall digest_alg key data ret_digest ret_digest_size,
     logs_failure (openssl_hmac_many digest_alg key data ret_digest ret_digest_size)) /\
  (forall pkey decrypted_key ret_encrypt_key ret_encrypt_key_size (w : World) r o w',
     rsa_encrypt_bytes pkey decrypted_key ret_encrypt_key ret_encrypt_key_size w
       = Ret (r, o) w' ->
     r <> 0 ->
     logged r w w' \/ (r = - ENOMEM /\ journal w' = journal w)) /\
  (forall pkey ret_suitable_key_size,
     logs_failure (rsa_pkey_to_suitable_key_size pkey ret_suitable_key_size)) /\
  (forall n e ret_, logs_failure (rsa_pkey_from_n_e n e ret_)) /\
  (forall pkey ret_n ret_n_size ret_e ret_e_size,
     logs_failure (rsa_pkey_to_n_e pkey ret_n ret_n_size ret_e ret_e_size)) /\
  (forall bits ret_, logs_failure (rsa_pkey_new bits ret_)) /\
  (forall curve_id x y ret_,
     logs_failure (ecc_pkey_from_curve_x_y curve_id x y ret_)) /\
  (forall pkey ret_curve_id ret_x ret_x_size ret_y ret_y_size,
     logs_failure
       (ecc_pkey_to_curve_x_y pkey ret_curve_id ret_x ret_x_size ret_y ret_y_size)) /\
  (forall curve_id ret_, logs_failure (ecc_pkey_new curve_id ret_)) /\
  (forall pk md ret_ ret_size,
     logs_failure (pubkey_fingerprint pk md ret_ ret_size)) /\
  (forall md privkey data size ret_ ret_size,
     logs_failure (digest_and_sign md privkey data size ret_ ret_size)) /\
  (forall HAVE_OPENSSL sha256_direct cert buffer,
     logs_failure (x509_fingerprint HAVE_OPENSSL sha256_direct cert buffer)).
Proof.
  repeat match goal with |- _ /\ _ => split end.
  all: try (by_report (@reported_failure)).
  - intros pkey key rk rs w r o w' H Hr.
    apply rsa_encrypt_report in H as [[[[-> _]|(_ & _ & Hl)]|[-> [Hj _]]] _]; auto.
    contradiction.
  - intros pkey p w r o w' H Hr.
    apply suitable_key_size_report in H as [[-> _]|[_ Hl]]; [contradiction | exact Hl].
Qed.

(** X4. Success is silent. One of the fifteen operations listed above
    that succeeds has logged nothing. The one exception among them is
    [rsa_pkey_to_suitable_key_size], which logs the bit count of the key;
    on success that is its one entry. *)
Theorem success_is_silent :
  (forall pem ret_, silent_on_success (openssl_pkey_from_pem pem ret_)) /\
  (forall digest_alg ret_digest_size,
     silent_on_success (openssl_digest_size digest_alg ret_digest_size)) /\
  (forall digest_alg data ret_digest ret_digest_size,
     silent_on_success
       (openssl_digest_many digest_alg data ret_digest ret_digest_size)) /\
  (forall digest_alg key data ret_digest ret_digest_size,
     silent_on_success
       (openssl_hmac_many digest_alg key data ret_digest ret_digest_size)) /\
  (forall pkey decrypted_key ret_encrypt_key ret_encrypt_key_size,
     silent_on_success
       (rsa_encrypt_bytes pkey decrypted_key ret_encrypt_key ret_encrypt_key_size)) /\
  (forall pkey ret_suitable_key_size (w : World) r o w',
     rsa_pkey_to_suitable_key_size pkey ret_suitable_key_size w = Ret (r, o) w' ->
     r = 0 ->
     journal w' = journal w ++
       [LogEntry LOG_DEBUG 0 "Bits in RSA key: %i" [IntArg (EVP_PKEY_bits pkey)]]) /\
  (forall n e ret_, silent_on_success (rsa_pkey_from_n_e n e ret_)) /\
  (forall pkey ret_n ret_n_size ret_e ret_e_size,
     silent_on_success (rsa_pkey_to_n_e pkey ret_n ret_n_size ret_e ret_e_size)) /\
  (forall bits ret_, silent_on_success (rsa_pkey_new bits ret_)) /\
  (forall curve_id x y ret_,
     silent_on_success (ecc_pkey_from_curve_x_y curve_id x y ret_)) /\
  (forall pkey ret_curve_id ret_x ret_x_size ret_y ret_y_size,
     silent_on_success
       (ecc_pkey_to_curve_x_y pkey ret_curve_id ret_x ret_x_size ret_y ret_y_size)) /\
  (forall curve_id ret_, silent_on_success (ecc_pkey_new curve_id ret_)) /\
  (forall pk md ret_ ret_size,
     silent_on_success (pubkey_fingerprint pk md ret_ ret_size)) /\
  (forall md privkey data size ret_ ret_size,
     silent_on_success (digest_and_sign md privkey data size ret_ ret_size)) /\
  (forall HAVE_OPENSSL sha256_direct cert buffer,
     silent_on_success (x509_fingerprint HAVE_OPENSSL sha256_direct cert buffer)).
Proof.
  repeat match goal with |- _ /\ _ => split end.
  all: try (by_report (@reported_success)).
  - intros pkey key rk rs w r o w' H ->.
    apply rsa_encrypt_report in H as [[[[_ [Hj _]]|(Hr & _)]|[Hr _]] _];
      [exact Hj | lia | discriminate].
  - intros pkey p w r o w' H ->.
    apply suitable_key_size_report in H as [[_ Hj]|[[Hr | Hr] _]];
      [exact Hj | discriminate | discriminate].
Qed.

(** X5. Out-of-memory needs a failed allocation: in a run in which no
    allocation fails, none of the fifteen operations listed above returns
    [-ENOMEM]. *)
Theorem out_of_memory_needs_failed_allocation :
  (forall pem ret_,
     oom_only_on_failed_allocation (openssl_pkey_from_pem pem ret_)) /\
  (forall digest_alg ret_digest_size,
     oom_only_on_failed_allocation (openssl_digest_size digest_alg ret_digest_size)) /\
  (forall digest_alg data ret_digest ret_digest_size,
     oom_only_on_failed_allocation
       (openssl_digest_many digest_alg data ret_digest ret_digest_size)) /\
  (forall digest_alg key data ret_digest ret_digest_size,
     oom_only_on_failed_allocation
       (openssl_hmac_many digest_alg key data ret_digest ret_digest_size)) /\
  (forall pkey decrypted_key ret_encrypt_key ret_encrypt_key_size,
     oom_only_on_failed_allocation
       (rsa_encrypt_bytes pkey decrypted_key ret_encrypt_key ret_encrypt_key_size)) /\
  (forall pkey ret_suitable_key_size,
     oom_only_on_failed_allocation
       (rsa_pkey_to_suitable_key_size pkey ret_suitable_key_size)) /\
  (forall n e ret_,
     oom_only_on_failed_allocation (rsa_pkey_from_n_e n e ret_)) /\
  (forall pkey ret_n ret_n_size ret_e ret_e_size,
     oom_only_on_failed_allocation
       (rsa_pkey_to_n_e pkey ret_n ret_n_size ret_e ret_e_size)) /\
  (forall bits ret_, oom_only_on_failed_allocation (rsa_pkey_new bits ret_)) /\
  (forall curve_id x y ret_,
     oom_only_on_failed_allocation (ecc_pkey_from_curve_x_y curve_id x y ret_)) /\
  (forall pkey ret_curve_id ret_x ret_x_size ret_y ret_y_size,
     oom_only_on_failed_allocation
       (ecc_pkey_to_curve_x_y pkey ret_curve_id ret_x ret_x_size ret_y ret_y_size)) /\
  (forall curve_id ret_, oom_only_on_failed_allocation (ecc_pkey_new curve_id ret_)) /\
  (forall pk md ret_ ret_size,
     oom_only_on_failed_allocation (pubkey_fingerprint pk md ret_ ret_size)) /\
  (forall md privkey data size ret_ ret_size,
     oom_only_on_failed_allocation
       (digest_and_sign md privkey data size ret_ ret_size)) /\
  (forall HAVE_OPENSSL sha256_direct cert buffer,
     oom_only_on_failed_allocation
       (x509_fingerprint HAVE_OPENSSL sha256_direct cert buffer)).
Proof.
  repeat match goal with |- _ /\ _ => split end.
  all: try (by_report (@reported_oom)).
  - intros pkey key rk rs w r o w' H. apply rsa_encrypt_report in H as [_ H]. exact H.
  - intros pkey p w r o w' H _.
    apply suitable_key_size_report in H as [[-> _]|[[-> | ->] _]];
      unfold EBADMSG, EIO, ENOMEM; lia.
Qed.

End Discipline.

(** ** Unsupported digest algorithms *)

Section Unsupported.

Context {prov : Provider}.

Lemma report_not_unsupported (w : World) r w' :
  report [EIO; ENOMEM] w r w' -> r <> - EOPNOTSUPP.
Proof.
  intros [[-> _]|(_ & Hin & _)]; [discriminate|].
  simpl in Hin. unfold EIO, ENOMEM, EOPNOTSUPP in *. lia.
Qed.

(** The code of the logging call that ends a failing path. *)
Ltac coded :=
  match goal with
  | H : log_openssl_errors _ _ _ = Ret _ _ |- _ =>
      apply (log_openssl_errors_report [EIO; ENOMEM]) in H; [|simpl; tauto|simpl; tauto];
      apply report_not_unsupported in H
  | H : log_oom_debug _ = Ret _ _ |- _ =>
      apply log_oom_debug_Ret in H; unfold ENOMEM in H
  end.

Lemma hmac_many_unsupported alg key data rd rs (w : World) r o w' :
  openssl_hmac_many alg key data rd rs w = Ret (r, o) w' ->
  (r = - EOPNOTSUPP <-> exists w1, md_fetch alg w = Ret None w1) /\
  (r = - EOPNOTSUPP -> journal w' = journal w ++ [unsupported_entry alg]).
Proof.
  intros H. cbv beta zeta delta [openssl_hmac_many] in H. run H.
  all: try match goal with Hf : md_fetch _ _ = Ret None _ |- _ =>
         apply log_debug_errno_Ret in H as (-> & _ & _ & _ & Hj);
         pose proof (md_fetch_hushed _ _ _ _ Hf) as [Hq _];
         (split; [split; eauto|]); intros _; rewrite Hj, Hq; reflexivity end.
  all: try match goal with H : hmac_finish _ _ _ _ _ = Ret _ _ |- _ =>
         apply hmac_finish_report in H as [H _]; apply report_not_unsupported in H end.
  all: try coded.
  all: split; [split; [intros E; unfold EOPNOTSUPP in *; try lia; try contradiction
                      | intros (? & E); congruence]
              | intros E; unfold EOPNOTSUPP in *; try lia; try contradiction].
Qed.

Lemma digest_size_unsupported alg p (w : World) r o w' :
  openssl_digest_size alg p w = Ret (r, o) w' ->
  (r = - EOPNOTSUPP <-> exists w1, md_fetch alg w = Ret None w1) /\
  (r = - EOPNOTSUPP -> journal w' = journal w ++ [unsupported_entry alg]).
Proof.
  intros H. cbv beta zeta delta [openssl_digest_size] in H. run H.
  all: try match goal with Hf : md_fetch _ _ = Ret None _ |- _ =>
         apply log_debug_errno_Ret in H as (-> & _ & _ & _ & Hj);
         pose proof (md_fetch_hushed _ _ _ _ Hf) as [Hq _];
         (split; [split; eauto|]); intros _; rewrite Hj, Hq; reflexivity end.
  all: try coded.
  all: split; [split; [intros E; unfold EOPNOTSUPP in *; try lia; try contradiction
                      | intros (? & E); congruence]
              | intros E; unfold EOPNOTSUPP in *; try lia; try contradiction].
Qed.

(** Two records of the same deterministic run agree. *)
Ltac same_run :=
  repeat match goal with
  | H1 : ?t = Ret _ _, H2 : ?t = Ret _ _ |- _ =>
      rewrite H1 in H2; inversion H2; subst; clear H2
  end.

Lemma digest_many_unsupported alg data rd rs (w : World) r o w' :
  openssl_digest_many alg data rd rs w = Ret (r, o) w' ->
  (r = - EOPNOTSUPP <->
     (exists w1, md_fetch alg w = Ret None w1) \/
     (exists w0 w1, reaches_size_query alg data w w0 /\
                    md_fetch alg w0 = Ret None w1)) /\
  (r = - EOPNOTSUPP -> journal w' = journal w ++ [unsupported_entry alg]).
Proof.
  intros H. cbv beta zeta delta [openssl_digest_many] in H. run H.
  all: try match goal with Hf : md_fetch _ _ = Ret None _ |- _ =>
         apply log_debug_errno_Ret in H as (-> & _ & _ & _ & Hj);
         pose proof (md_fetch_hushed _ _ _ _ Hf) as [Hq _];
         (split; [split; eauto|]); intros _; rewrite Hj, Hq; reflexivity end.
  all: split;
    [split;
       [| intros [(? & E) | (? & ? & (? & ? & ? & ? & ? & ? & ? & ? &
                                    E1 & E2 & E3 & Hr & E4) & E5)];
          [congruence|]; same_run]|].
  all: try (exfalso;
            match goal with Hb : (?z =? 0) = true, Hr' : ?z <> 0 |- _ =>
              apply Z.eqb_eq in Hb; contradiction end).
  all: try (match goal with
            | Hd : openssl_digest_size _ _ _ = Ret _ _,
              E5 : md_fetch _ _ = Ret None _ |- _ =>
                apply digest_size_unsupported in Hd as [[_ Hd] _];
                specialize (Hd (ex_intro _ _ E5))
            end;
            subst; first [reflexivity | discriminate]).
  all: try (coded; intros E; unfold EOPNOTSUPP in *; try lia; contradiction).
  all: try discriminate.
  - (* the size query failed: its resolution of the name did *)
    intros E. right.
    apply digest_size_unsupported in Hm4 as [[Hd _] _].
    destruct (Hd E) as (w9 & Hf).
    exists w3, w9. split; [|exact Hf].
    destruct b; [|discriminate].
    exists e, w0, e0, w1, z, e1, w2, e2.
    apply Z.eqb_neq in Heqb. auto.
  - intros E.
    apply digest_size_unsupported in Hm4 as [_ Hj]. rewrite (Hj E).
    repeat match goal with
    | Hc : call _ _ = Ret _ _ |- _ => apply call_hushed in Hc as [Hc _]
    | Hc : md_fetch _ _ = Ret _ _ |- _ => apply md_fetch_hushed in Hc as [Hc _]
    | Hc : update_all _ _ _ _ = Ret _ _ |- _ => apply update_all_hushed in Hc as [Hc _]
    end.
    congruence.
Qed.

(** X6. Unsupported digest algorithms. [openssl_hmac_many] returns
    [-EOPNOTSUPP] exactly when the provider cannot resolve the algorithm
    name. [openssl_digest_many] resolves the name twice, at its own start
    and again for the digest size, and returns [-EOPNOTSUPP] exactly when
    one of the two resolutions of this run fails: the first, in the world
    the operation is called in, or the second, in the world the run has
    reached after the context was created and initialised and every update
    succeeded. With this result the one diagnostic logged names the
    algorithm. *)
Theorem unsupported_digest :
  (forall digest_alg key data ret_digest ret_digest_size (w : World) r o w',
     openssl_hmac_many digest_alg key data ret_digest ret_digest_size w
       = Ret (r, o) w' ->
     (r = - EOPNOTSUPP <-> exists w1, md_fetch digest_alg w = Ret None w1) /\
     (r = - EOPNOTSUPP -> journal w' = journal w ++ [unsupported_entry digest_alg])) /\
  (forall digest_alg data ret_digest ret_digest_size (w : World) r o w',
     openssl_digest_many digest_alg data ret_digest ret_digest_size w
       = Ret (r, o) w' ->
     (r = - EOPNOTSUPP <->
        (exists w1, md_fetch digest_alg w = Ret None w1) \/
        (exists w0 w1, reaches_size_query digest_alg data w w0 /\
                       md_fetch digest_alg w0 = Ret None w1)) /\
     (r = - EOPNOTSUPP -> journal w' = journal w ++ [unsupported_entry digest_alg])).
Proof.
  split; intros.
  - eapply hmac_many_unsupported; eassumption.
  - eapply digest_many_unsupported; eassumption.
Qed.

End Unsupported.

(** ** Sizes *)

Section Sizes.

Context {prov : Provider}.

Lemma half_key_size b :
  - 2 ^ 31 <= b <= 2 ^ 31 - 1 ->
  (- 16 < b < 16 -> to_size_t (Z.quot (Z.quot b 8) 2) = 0) /\
  (16 <= b -> to_size_t (Z.quot (Z.quot b 8) 2) = b / 16 /\ 1 <= b / 16) /\
  (b <= - 16 -> to_size_t (Z.quot (Z.quot b 8) 2) = 2 ^ 64 - (- b) / 16 /\
                1 <= 2 ^ 64 - (- b) / 16).
Proof.
  intros Hb. rewrite Z.quot_quot by lia. change (8 * 2) with 16.
  unfold to_size_t. split; [|split]; intros H.
  - assert (E : Z.quot b 16 = 0) by (apply Z.quot_small_iff; lia).
    rewrite E. reflexivity.
  - rewrite Z.quot_div_nonneg by lia.
    assert (1 <= b / 16) by (apply Z.div_le_lower_bound; lia).
    assert (b / 16 < 2 ^ 31) by (apply Z.div_lt_upper_bound; lia).
    split; [apply Z.mod_small; lia | lia].
  - assert (E : Z.quot b 16 = - ((- b) / 16)).
    { rewrite <- (Z.opp_involutive b) at 1. rewrite Z.quot_opp_l by lia.
      rewrite Z.quot_div_nonneg by lia. reflexivity. }
    rewrite E.
    assert (1 <= (- b) / 16) by (apply Z.div_le_lower_bound; lia).
    assert ((- b) / 16 < 2 ^ 31) by (apply Z.div_lt_upper_bound; lia).
    split; [|lia]. symmetry.
    apply (Z.mod_unique_pos _ _ (- 1)); lia.
Qed.

Lemma suitable_key_size_run pkey v (w : World) :
  EVP_PKEY_base_id pkey = EVP_PKEY_RSA ->
  exists w1 w2,
    rsa_pkey_to_suitable_key_size pkey (Loc v) w =
    if to_size_t (Z.quot (Z.quot (EVP_PKEY_bits pkey) 8) 2) <? 1
    then Ret (- EIO, Loc v) w2
    else Ret (0, Loc (to_size_t (Z.quot (Z.quot (EVP_PKEY_bits pkey) 8) 2))) w1.
Proof.
  intros Hid. unfold rsa_pkey_to_suitable_key_size, bind. simpl.
  rewrite Hid, Z.eqb_refl. simpl.
  unfold log_debug, bind, log_debug_errno, ret. simpl.
  destruct (to_size_t (Z.quot (Z.quot (EVP_PKEY_bits pkey) 8) 2) <? 1).
  - unfold leave, bind, log_debug_errno, ret. simpl. exists w. eexists. reflexivity.
  - eexists. exists w. reflexivity.
Qed.

(** X7. The suitable key size over the whole [int] range of the bit
    count of an RSA key. With fewer than 16 bits in absolute value the
    operation fails with [-EIO] and writes nothing; from 16 bits on it
    succeeds with the sixteenth of the bit count; and a bit count of -16 or
    less is not rejected: the negative quotient wraps around in [size_t]
    and is stored. *)
Theorem rsa_pkey_to_suitable_key_size_range pkey v (w : World) :
  EVP_PKEY_base_id pkey = EVP_PKEY_RSA ->
  INT_MIN <= EVP_PKEY_bits pkey <= INT_MAX ->
  exists r out w',
    rsa_pkey_to_suitable_key_size pkey (Loc v) w = Ret (r, out) w' /\
    (- 16 < EVP_PKEY_bits pkey < 16 -> r = - EIO /\ out = Loc v) /\
    (16 <= EVP_PKEY_bits pkey -> r = 0 /\ out = Loc (EVP_PKEY_bits pkey / 16)) /\
    (EVP_PKEY_bits pkey <= - 16 ->
       r = 0 /\ out = Loc (2 ^ 64 - (- EVP_PKEY_bits pkey) / 16)).
Proof.
  intros Hid Hrange.
  destruct (half_key_size (EVP_PKEY_bits pkey)) as (Hsmall & Hpos & Hneg).
  { unfold INT_MIN, INT_MAX in Hrange. lia. }
  destruct (suitable_key_size_run pkey v w Hid) as (w1 & w2 & ->).
  destruct (Z.ltb_spec (to_size_t (Z.quot (Z.quot (EVP_PKEY_bits pkey) 8) 2)) 1)
    as [Hlt|Hge].
  - eexists _, _, _. split; [reflexivity|].
    split; [auto|]. split; intros Hb.
    + destruct (Hpos Hb) as [E ?]. rewrite E in Hlt. lia.
    + destruct (Hneg Hb) as [E ?]. rewrite E in Hlt. lia.
  - eexists _, _, _. split; [reflexivity|].
    split; [|split]; intros Hb.
    + rewrite (Hsmall Hb) in Hge. lia.
    + destruct (Hpos Hb) as [E ?]. rewrite E. auto.
    + destruct (Hneg Hb) as [E ?]. rewrite E. auto.
Qed.

End Sizes.

Section Buffers.

Context {prov : Provider}.

Lemma bn2bin_into_length bn size (w0 w : World) blk b w1 w' :
  malloc size w0 = Ret (Some blk) w1 -> 0 <= size ->
  bn2bin_into bn blk size w = Ret b w' ->
  Z.of_nat (List.length b) = size.
Proof.
  intros Hm Hs H. apply malloc_length in Hm; [|exact Hs].
  apply bn2bin_into_world in H as [_ Hl]. congruence.
Qed.

Lemma rsa_n_e_out_sizes bn_n bn_e rn rns re res (w : World) o w' :
  rsa_n_e_out bn_n bn_e rn rns re res w = Ret (0, o) w' ->
  exists n e,
    o = (Loc (Some n), Loc (Z.of_nat (List.length n)),
         Loc (Some e), Loc (Z.of_nat (List.length e))).
Proof.
  intros H. cbv beta zeta delta [rsa_n_e_out] in H. run H.
  all: try (failed; lia).
  repeat match goal with
  | Hm : malloc ?size _ = Ret (Some ?blk) _, Hb : bn2bin_into _ ?blk ?size _ = Ret _ _ |- _ =>
      apply (bn2bin_into_length _ _ _ _ _ _ _ _ Hm (proj1 (to_size_t_range _))) in Hb
  end.
  repeat match goal with Hl : Z.of_nat _ = _ |- _ => rewrite <- Hl; clear Hl end.
  eexists _, _. reflexivity.
Qed.

Lemma ecc_x_y_out_sizes c bx by_ rc rx rxs ry rys (w : World) o w' :
  ecc_x_y_out c bx by_ rc rx rxs ry rys w = Ret (0, o) w' ->
  exists x y,
    o = (store_opt rc c,
         store_opt rx (Some x), store_opt rxs (Z.of_nat (List.length x)),
         store_opt ry (Some y), store_opt rys (Z.of_nat (List.length y))).
Proof.
  intros H. cbv beta zeta delta [ecc_x_y_out] in H. run H.
  all: try (failed; lia).
  repeat match goal with
  | Hm : malloc ?size _ = Ret (Some ?blk) _, Hb : bn2bin_into _ ?blk ?size _ = Ret _ _ |- _ =>
      apply (bn2bin_into_length _ _ _ _ _ _ _ _ Hm (proj1 (to_size_t_range _))) in Hb
  end.
  repeat match goal with Hl : Z.of_nat _ = _ |- _ => rewrite <- Hl; clear Hl end.
  eexists _, _. reflexivity.
Qed.

(** X8. The sizes reported with key components. Whenever [rsa_pkey_to_n_e]
    succeeds, each of the two buffers it stores is non-null and the size
    stored with it is the length of the buffer; whenever
    [ecc_pkey_to_curve_x_y] succeeds, the same holds of the coordinates at
    the pointers that are given, and the curve id delivered is not
    [NID_undef]. This holds for every provider. *)
Theorem key_component_sizes :
  (forall pkey rn rns re res (w : World) r o w',
     rsa_pkey_to_n_e pkey rn rns re res w = Ret (r, o) w' -> r = 0 ->
     exists n e,
       o = (Loc (Some n), Loc (Z.of_nat (List.length n)),
            Loc (Some e), Loc (Z.of_nat (List.length e)))) /\
  (forall pkey rc rx rxs ry rys (w : World) r o w',
     ecc_pkey_to_curve_x_y pkey rc rx rxs ry rys w = Ret (r, o) w' -> r = 0 ->
     exists c x y,
       c <> NID_undef /\
       o = (store_opt rc c,
            store_opt rx (Some x), store_opt rxs (Z.of_nat (List.length x)),
            store_opt ry (Some y), store_opt rys (Z.of_nat (List.length y)))).
Proof.
  split.
  - intros pkey rn rns re res w r o w' H ->.
    cbv beta zeta delta [rsa_pkey_to_n_e] in H. run H.
    all: try (failed; lia).
    all: eapply rsa_n_e_out_sizes; eassumption.
  - intros pkey rc rx rxs ry rys w r o w' H ->.
    cbv beta zeta delta [ecc_pkey_to_curve_x_y] in H. run H.
    all: try (failed; lia).
    all: apply ecc_x_y_out_sizes in H as (x & y & ->).
    all: eexists _, x, y; split; [|reflexivity].
    all: match goal with Hn : (_ =? NID_undef) = false |- _ =>
           apply Z.eqb_neq in Hn; exact Hn end.
Qed.

(** X9. The size of a fingerprint. Whenever [pubkey_fingerprint] succeeds,
    the size it stores is the size [EVP_MD_size] gives for the digest,
    which is positive, and the buffer it stores is non-null and of that
    length. With a digest whose size is not positive it never succeeds. *)
Theorem pubkey_fingerprint_size pk md ret_ ret_size (w : World) r o w' :
  pubkey_fingerprint pk md ret_ ret_size w = Ret (r, o) w' -> r = 0 ->
  0 < EVP_MD_size md /\
  exists h,
    o = (Loc (Some h), Loc (to_size_t (EVP_MD_size md))) /\
    Z.of_nat (List.length h) = to_size_t (EVP_MD_size md).
Proof.
  intros H ->. cbv beta zeta delta [pubkey_fingerprint] in H. run H.
  all: try (failed; lia).
  match goal with Hp : (0 <? _) = true |- _ => apply Z.ltb_lt in Hp end.
  split; [assumption|].
  match goal with Hm : malloc (to_size_t (EVP_MD_size md)) _ = Ret (Some _) _ |- _ =>
    apply malloc_length in Hm; [|apply to_size_t_range] end.
  eexists. split; [reflexivity|]. congruence.
Qed.

End Buffers.

(** ** The update loop, and the operations without a buffer *)

Section Loop.

Context {prov : Provider}.


End Loop.

Section Remaining.

Context {prov : Provider} {gen : KeygenProvider prov} {certs : X509Provider prov}.

Lemma digest_size_unwritten alg p :
  unwritten_on_error p (openssl_digest_size alg p).
Proof. unwritten @openssl_digest_size. Qed.

Lemma suitable_key_size_unwritten pkey p :
  unwritten_on_error p (rsa_pkey_to_suitable_key_size pkey p).
Proof. unwritten @rsa_pkey_to_suitable_key_size. Qed.

Lemma rsa_new_unwritten bits ret_ :
  unwritten_on_error ret_ (rsa_pkey_new bits ret_).
Proof. unwritten @rsa_pkey_new. Qed.

Lemma ecc_new_unwritten curve_id ret_ :
  unwritten_on_error ret_ (ecc_pkey_new curve_id ret_).
Proof. unwritten @ecc_pkey_new. Qed.

Lemma x509_unwritten have sha cert buffer :
  unwritten_on_error buffer (x509_fingerprint have sha cert buffer).
Proof. unwritten @x509_fingerprint. Qed.

(** X11. The operations with an output that C9 does not list write it on
    the success path only: whenever [openssl_digest_size],
    [rsa_pkey_to_suitable_key_size], [rsa_pkey_new], [ecc_pkey_new] or
    [x509_fingerprint] returns an error, the output location (for the
    fingerprint, the caller's buffer) is as it was before the call. *)
Theorem outputs_unwritten_on_error_others :
  (forall digest_alg ret_digest_size,
     unwritten_on_error ret_digest_size
       (openssl_digest_size digest_alg ret_digest_size)) /\
  (forall pkey ret_suitable_key_size,
     unwritten_on_error ret_suitable_key_size
       (rsa_pkey_to_suitable_key_size pkey ret_suitable_key_size)) /\
  (forall bits ret_, unwritten_on_error ret_ (rsa_pkey_new bits ret_)) /\
  (forall curve_id ret_, unwritten_on_error ret_ (ecc_pkey_new curve_id ret_)) /\
  (forall HAVE_OPENSSL sha256_direct cert buffer,
     unwritten_on_error buffer
       (x509_fingerprint HAVE_OPENSSL sha256_direct cert buffer)).
Proof.
  repeat split; intros.
  - apply digest_size_unwritten.
  - apply suitable_key_size_unwritten.
  - apply rsa_new_unwritten.
  - apply ecc_new_unwritten.
  - apply x509_unwritten.
Qed.

Lemma returns_malloc size : returns (malloc size).
Proof.
  intros w. unfold malloc. destruct (heap w) as [|[|] h]; eauto.
Qed.

Lemma returns_log_debug_errno e fmt args : returns (log_debug_errno e fmt args).
Proof. intros w. unfold log_debug_errno. eauto. Qed.

Ltac runs_through :=
  repeat first
    [ apply returns_ret
    | apply returns_call
    | apply returns_store
    | apply returns_assert
    | apply returns_leave
    | apply returns_log_openssl_errors
    | apply returns_log_debug_errno
    | apply returns_malloc
    | apply returns_bind; [|intros ?]
    | match goal with
      | |- returns (if ?c then _ else _) => destruct c
      | |- returns (match ?x with _ => _ end) => destruct x
      end ].

(** X12. Called with every pointer argument non-null, the inputs and the
    result pointer, these operations return whatever the provider answers:
    no assertion can fail then and nothing undefined happens. The input
    pointers the code asserts ([pem], line 36; [digest_alg], line 58;
    [pkey], line 283; [n] and [e], lines 311-312; [x] and [y], lines
    457-458) are non-null here by the type of the argument; with one of
    them NULL the code aborts at its assertion, and the theorem says
    nothing of such a call. (The operations that fill a buffer are not of
    this kind: they assert what the provider reports of its size.) *)
Theorem never_aborts :
  (forall fmt args, returns (log_openssl_errors fmt args)) /\
  (forall pem k, returns (openssl_pkey_from_pem pem (Loc k))) /\
  (forall digest_alg v, returns (openssl_digest_size digest_alg (Loc v))) /\
  (forall pkey v, returns (rsa_pkey_to_suitable_key_size pkey (Loc v))) /\
  (forall n e k, returns (rsa_pkey_from_n_e n e (Loc k))) /\
  (forall bits k, returns (rsa_pkey_new bits (Loc k))) /\
  (forall curve_id x y k, returns (ecc_pkey_from_curve_x_y curve_id x y (Loc k))) /\
  (forall curve_id k, returns (ecc_pkey_new curve_id (Loc k))).
Proof.
  repeat split; intros.
  - apply returns_log_openssl_errors.
  - unfold openssl_pkey_from_pem, fmemopen, log_oom_debug. simpl. runs_through.
  - unfold openssl_digest_size, md_fetch. simpl. runs_through.
  - unfold rsa_pkey_to_suitable_key_size, log_debug. simpl. runs_through.
  - unfold rsa_pkey_from_n_e. simpl. runs_through.
  - unfold rsa_pkey_new. simpl. runs_through.
  - unfold ecc_pkey_from_curve_x_y. simpl. runs_through.
  - unfold ecc_pkey_new. simpl. runs_through.
Qed.

End Remaining.

(** ** Key generation and key components *)

Section Narrowing.

Context {prov : Provider} {gen : KeygenProvider prov}.

Lemma effect_bind {A B} (m : M A) (k1 k2 : A -> M B) (w : World) :
  (forall a w1, m w = Ret a w1 -> effect (k1 a w1) = effect (k2 a w1)) ->
  effect (bind m k1 w) = effect (bind m k2 w).
Proof.
  intros H. unfold bind. destruct (m w) as [a w1|]; [|reflexivity].
  apply H. reflexivity.
Qed.

(** The result and the queue left by a drain do not depend on the
    message. *)
Lemma drain_queue_effect q max fmt args fmt' args' R jr jr' :
  fst (drain_queue q max fmt args R jr) = fst (drain_queue q max fmt' args' R jr').
Proof.
  revert R jr jr'. induction q as [|E q IH]; intros R jr jr'; simpl; [reflexivity|].
  destruct (E =? 0); [reflexivity|]. apply IH.
Qed.

Lemma log_openssl_errors_effect {O} (outs : O) fmt args fmt' args' (w : World) :
  effect (leave outs (log_openssl_errors fmt args) w) =
  effect (leave outs (log_openssl_errors fmt' args') w).
Proof.
  unfold leave, log_openssl_errors, bind.
  destruct (malloc 512 w) as [[buf|] w1|]; [| |reflexivity].
  - unfold __log_openssl_errors.
    pose proof (drain_queue_effect (err_queue w1) 512 fmt args fmt' args' 0
                  (journal w1) (journal w1)) as Hd.
    destruct (drain_queue (err_queue w1) 512 fmt args 0 (journal w1)) as [[R q] jr].
    destruct (drain_queue (err_queue w1) 512 fmt' args' 0 (journal w1)) as [[R' q'] jr'].
    simpl in Hd. inversion Hd; subst.
    destruct (R' =? 0); reflexivity.
  - reflexivity.
Qed.

(** X13. [rsa_pkey_new] narrows its [size_t] bit count to [int] for the
    provider: two bit counts that agree as [int] (such as 2048 and
    2^32 + 2048) give the same result, the same key, the same provider
    state, error queue and allocator; only the text of a diagnostic can
    differ. *)
Theorem rsa_pkey_new_int_bits bits bits' ret_ (w : World) :
  to_int bits = to_int bits' ->
  effect (rsa_pkey_new bits ret_ w) = effect (rsa_pkey_new bits' ret_ w).
Proof.
  intros Hb. unfold rsa_pkey_new. rewrite Hb.
  repeat first
    [ reflexivity
    | apply log_openssl_errors_effect
    | apply effect_bind; intros ? ? _
    | match goal with
      | |- effect ((if ?c then _ else _) _) = effect ((if ?c then _ else _) _) =>
          destruct c
      | |- effect ((match ?x with _ => _ end) _) = effect ((match ?x with _ => _ end) _) =>
          destruct x
      end ].
Qed.

End Narrowing.

Section Components.

Context {prov : Provider} {view : KeyView prov} {KC : KeyContract prov view}.

(** X14. The key [rsa_pkey_from_n_e] builds holds the numbers its two
    buffers encode big-endian; leading zero bytes of either buffer (an
    exponent given on a fixed width, say) make no difference. For a
    provider that keeps the contract. *)
Theorem rsa_pkey_from_n_e_value n e zn ze k0 (w : World) out w1 :
  rsa_pkey_from_n_e (repeat x00 zn ++ n) (repeat x00 ze ++ e) (Loc k0) w
    = Ret (0, out) w1 ->
  exists key,
    out = Loc (Some key) /\ pkey_rsa key = Some (be_value n, be_value e).
Proof.
  intros H. apply rsa_from_key in H as (key & -> & Hkey).
  exists key. split; [reflexivity|].
  rewrite be_value_app, be_value_app in Hkey.
  rewrite !be_value_zeros in Hkey. exact Hkey.
Qed.

(** X15. Whatever the origin of an RSA key that holds the modulus [vn]
    and the exponent [ve], a successful [rsa_pkey_to_n_e] returns buffers
    that encode [vn] and [ve] big-endian without a leading zero byte, each
    with its length as the size. For a provider that keeps the
    contract. *)
Theorem rsa_pkey_to_n_e_minimal key vn ve n0 ns0 e0 es0 (w : World) rn rns re res w' :
  pkey_rsa key = Some (vn, ve) ->
  rsa_pkey_to_n_e key (Loc n0) (Loc ns0) (Loc e0) (Loc es0) w
    = Ret (0, (rn, rns, re, res)) w' ->
  exists n e,
    rn = Loc (Some n) /\ rns = Loc (Z.of_nat (List.length n)) /\
    re = Loc (Some e) /\ res = Loc (Z.of_nat (List.length e)) /\
    be_value n = vn /\ hd_error n <> Some x00 /\
    be_value e = ve /\ hd_error e <> Some x00.
Proof.
  intros Hkey H. eapply rsa_to_values in H as (-> & -> & -> & ->); [|exact Hkey].
  eexists _, _. repeat split.
  - apply be_value_minimal.
  - apply be_minimal_no_leading_zero.
  - apply be_value_minimal.
  - apply be_minimal_no_leading_zero.
Qed.

(** X16. Whatever the origin of an elliptic-curve key that holds the
    curve [nid] and the point [(vx, vy)], a successful
    [ecc_pkey_to_curve_x_y] delivers, at the pointers that are given, the
    curve id [nid] and buffers that encode [vx] and [vy] big-endian without
    a leading zero byte, each with its length as the size. For a provider
    that keeps the contract. *)
Theorem ecc_pkey_to_curve_x_y_minimal key nid vx vy rc rx rxs ry rys (w : World)
    outs w' :
  pkey_ec key = Some (nid, vx, vy) ->
  ecc_pkey_to_curve_x_y key rc rx rxs ry rys w = Ret (0, outs) w' ->
  exists x y,
    outs = (store_opt rc nid,
            store_opt rx (Some x), store_opt rxs (Z.of_nat (List.length x)),
            store_opt ry (Some y), store_opt rys (Z.of_nat (List.length y))) /\
    be_value x = vx /\ hd_error x <> Some x00 /\
    be_value y = vy /\ hd_error y <> Some x00.
Proof.
  intros Hkey H. eapply ecc_to_values in H; [|exact Hkey]. subst outs.
  eexists _, _. split; [reflexivity|]. repeat split.
  - apply be_value_minimal.
  - apply be_minimal_no_leading_zero.
  - apply be_value_minimal.
  - apply be_minimal_no_leading_zero.
Qed.

End Components.


(** * Runs on the reference provider *)

Section Reference.

Let P3 : Provider := Ref.provider 3.
Let P1 : Provider := Ref.provider 1.

(** A world of [P3] in full. *)
Let world3 (plan errors : list Z) (jr : list log_entry) (alloc : list bool)
  : World (prov := P3) := mkWorld (prov := P3) plan errors jr alloc.

Let oom_entry : log_entry := LogEntry LOG_DEBUG ENOMEM "Out of memory." [].

(** The digest of the empty input, with and without the size pointer. *)
Lemma openssl_digest_many_size_witness :
  exists buf size,
    Loc (Some (Ref.mix [] 32)) = Loc (Some buf) /\
    Z.of_nat (List.length buf) = size /\
    Loc 32 = store_opt (Loc 0) size /\
    exists w1 w2, forall v,
      openssl_digest_size (prov := P3) "sha256" (Loc v) w1 = Ret (0, Loc size) w2.
Proof.
  apply (openssl_digest_many_size (prov := P3) "sha256" [] (Loc None) (Loc 0)
           (Ref.world 3 [] [] []) 0
           (Loc (Some (Ref.mix [] 32))) (Loc 32) (Ref.world 3 [] [] []));
    reflexivity.
Defined.

Example digest_many_without_size :
  openssl_digest_many (prov := P3) "sha256" [[x61]; []; [x62; x63]] (Loc None) NULL
    (Ref.world 3 [] [] [])
  = Ret (0, (Loc (Some (Ref.mix [x61; x62; x63] 32)), NULL)) (Ref.world 3 [] [] []).
Proof. reflexivity. Qed.

(** An HMAC with the empty key, on both provider generations. *)
Lemma openssl_hmac_many_success_witness :
  exists buf size,
    Loc (Some (Ref.mix [x68; x69] 20)) = Loc (Some buf) /\
    0 < size /\
    Z.of_nat (List.length buf) = size /\
    Loc 20 = store_opt (Loc 0) size.
Proof.
  apply (openssl_hmac_many_success (prov := P3) "sha1" [] [[x68; x69]]
           (Loc None) (Loc 0) (Ref.world 3 [] [] []) 0
           (Loc (Some (Ref.mix [x68; x69] 20))) (Loc 20) (Ref.world 3 [] [] []));
    reflexivity.
Defined.

Example hmac_many_older_generation :
  openssl_hmac_many (prov := P1) "sha1" [] [[x68; x69]] (Loc None) NULL
    (Ref.world 1 [] [] [])
  = Ret (0, (Loc (Some (Ref.mix [x68; x69] 20)), NULL)) (Ref.world 1 [] [] []).
Proof. reflexivity. Qed.

(** A 2048-bit and an 8-bit RSA key, and a key that is not RSA. *)
Lemma rsa_pkey_to_suitable_key_size_witness :
  exists r out w',
    rsa_pkey_to_suitable_key_size (prov := P3) (Ref.KeyRSA (2 ^ 2047) 65537)
      (Loc 0) (Ref.world 3 [] [] []) = Ret (r, out) w' /\
    r = 0 /\ out = Loc 128.
Proof.
  destruct (rsa_pkey_to_suitable_key_size_results (prov := P3)
              (Ref.KeyRSA (2 ^ 2047) 65537) 0 (Ref.world 3 [] [] []))
    as (r & out & w' & Hrun & _ & Hrsa).
  exists r, out, w'. split; [exact Hrun|].
  assert (Hrange : 0 <= 2048 <= INT_MAX) by (unfold INT_MAX; lia).
  destruct (Hrsa eq_refl 2048 eq_refl Hrange) as (_ & _ & H2048).
  apply H2048. reflexivity.
Defined.

Example suitable_key_size_short_key :
  rsa_pkey_to_suitable_key_size (prov := P3) (Ref.KeyRSA 255 3) (Loc 0)
    (Ref.world 3 [] [] [])
  = Ret (- EIO, Loc 0)
      (world3 [] []
         [LogEntry LOG_DEBUG 0 "Bits in RSA key: %i" [IntArg 8];
          LogEntry LOG_DEBUG EIO "Uh, RSA key size too short?" []] []).
Proof. reflexivity. Qed.

Example suitable_key_size_wrong_key :
  rsa_pkey_to_suitable_key_size (prov := P3)
    (Ref.KeyEC 415 Ref.prime256v1_Gx Ref.prime256v1_Gy) (Loc 0)
    (Ref.world 3 [] [] [])
  = Ret (- EBADMSG, Loc 0)
      (world3 [] []
         [LogEntry LOG_DEBUG EBADMSG
            "X.509 certificate does not refer to RSA key." []] []).
Proof. reflexivity. Qed.

(** The modulus 3233 with a leading zero byte and the exponent 65537 on
    four bytes: the key is built, the components are read back, and they
    are the minimal encodings. *)
Lemma rsa_n_e_round_trip_witness :
  rsa_pkey_from_n_e (prov := P3) [x00; x0c; xa1] [x00; x01; x00; x01] (Loc None)
    (Ref.world 3 [] [] [])
  = Ret (0, Loc (Some (Ref.KeyRSA 3233 65537))) (Ref.world 3 [] [] []) /\
  rsa_pkey_to_n_e (prov := P3) (Ref.KeyRSA 3233 65537)
    (Loc None) (Loc 0) (Loc None) (Loc 0) (Ref.world 3 [] [] [])
  = Ret (0, (Loc (Some [x0c; xa1]), Loc 2, Loc (Some [x01; x00; x01]), Loc 3))
        (Ref.world 3 [] [] []) /\
  exists n' e',
    Loc (Some [x0c; xa1]) = Loc (Some n') /\
    Loc 2 = Loc (Z.of_nat (List.length n')) /\
    Loc (Some [x01; x00; x01]) = Loc (Some e') /\
    Loc 3 = Loc (Z.of_nat (List.length e')) /\
    n' = be_minimal (be_value [x00; x0c; xa1]) /\
    e' = be_minimal (be_value [x00; x01; x00; x01]) /\
    be_value n' = be_value [x00; x0c; xa1] /\ hd_error n' <> Some x00 /\
    be_value e' = be_value [x00; x01; x00; x01] /\ hd_error e' <> Some x00.
Proof.
  assert (Hfrom :
    rsa_pkey_from_n_e (prov := P3) [x00; x0c; xa1] [x00; x01; x00; x01] (Loc None)
      (Ref.world 3 [] [] [])
    = Ret (0, Loc (Some (Ref.KeyRSA 3233 65537))) (Ref.world 3 [] [] []))
    by reflexivity.
  assert (Hto :
    rsa_pkey_to_n_e (prov := P3) (Ref.KeyRSA 3233 65537)
      (Loc None) (Loc 0) (Loc None) (Loc 0) (Ref.world 3 [] [] [])
    = Ret (0, (Loc (Some [x0c; xa1]), Loc 2, Loc (Some [x01; x00; x01]), Loc 3))
          (Ref.world 3 [] [] []))
    by reflexivity.
  split; [exact Hfrom|]. split; [exact Hto|].
  destruct (rsa_n_e_round_trip (prov := P3) (view := Ref.view 3)
              (KC := Ref_contract 3) [x00; x0c; xa1] [x00; x01; x00; x01] None
              (Ref.world 3 [] [] []) _ _ Hfrom) as (key & Hkey & Hback).
  injection Hkey as <-.
  exact (Hback _ _ _ _ _ _ _ _ _ _ Hto).
Defined.

Example rsa_to_n_e_run :
  rsa_pkey_to_n_e (prov := P3) (Ref.KeyRSA 3233 65537)
    (Loc None) (Loc 0) (Loc None) (Loc 0) (Ref.world 3 [] [] [])
  = Ret (0, (Loc (Some [x0c; xa1]), Loc 2, Loc (Some [x01; x00; x01]), Loc 3))
        (Ref.world 3 [] [] []).
Proof. reflexivity. Qed.

Example rsa_round_trip_older_generation :
  rsa_pkey_from_n_e (prov := P1) [x00; x0c; xa1] [x00; x01; x00; x01] (Loc None)
    (Ref.world 1 [] [] [])
  = Ret (0, Loc (Some (Ref.KeyRSA 3233 65537))) (Ref.world 1 [] [] []) /\
  rsa_pkey_to_n_e (prov := P1) (Ref.KeyRSA 3233 65537)
    (Loc None) (Loc 0) (Loc None) (Loc 0) (Ref.world 1 [] [] [])
  = Ret (0, (Loc (Some [x0c; xa1]), Loc 2, Loc (Some [x01; x00; x01]), Loc 3))
        (Ref.world 1 [] [] []).
Proof. split; reflexivity. Qed.

(** The base point of prime256v1: the key is built, the curve and the
    coordinates are read back, and they are the ones given. The point
    (1, 1) is not on the curve. *)
Lemma ecc_curve_x_y_round_trip_witness :
  ecc_pkey_from_curve_x_y (prov := P3) 415
    (be_minimal Ref.prime256v1_Gx) (be_minimal Ref.prime256v1_Gy) (Loc None)
    (Ref.world 3 [] [] [])
  = Ret (0, Loc (Some (Ref.KeyEC 415 Ref.prime256v1_Gx Ref.prime256v1_Gy)))
        (Ref.world 3 [] [] []) /\
  ecc_pkey_to_curve_x_y (prov := P3)
    (Ref.KeyEC 415 Ref.prime256v1_Gx Ref.prime256v1_Gy)
    (Loc 0) (Loc None) (Loc 0) (Loc None) (Loc 0) (Ref.world 3 [] [] [])
  = Ret (0, (Loc 415,
             Loc (Some (be_minimal Ref.prime256v1_Gx)), Loc 32,
             Loc (Some (be_minimal Ref.prime256v1_Gy)), Loc 32))
        (Ref.world 3 [] [] []) /\
  (exists x' y',
     (Loc 415,
      Loc (Some (be_minimal Ref.prime256v1_Gx)), Loc 32,
      Loc (Some (be_minimal Ref.prime256v1_Gy)), Loc 32)
     = (Loc 415, Loc (Some x'), Loc (Z.of_nat (List.length x')),
        Loc (Some y'), Loc (Z.of_nat (List.length y'))) /\
     be_value x' = Ref.prime256v1_Gx /\ hd_error x' <> Some x00 /\
     be_value y' = Ref.prime256v1_Gy /\ hd_error y' <> Some x00) /\
  (exists r w1,
     ecc_pkey_from_curve_x_y (prov := P3) 415 [x01] [x01] (Loc None)
       (Ref.world 3 [] [] []) = Ret (r, Loc None) w1 /\
     r = - errno_of IoError).
Proof.
  assert (Hfrom :
    ecc_pkey_from_curve_x_y (prov := P3) 415
      (be_minimal Ref.prime256v1_Gx) (be_minimal Ref.prime256v1_Gy) (Loc None)
      (Ref.world 3 [] [] [])
    = Ret (0, Loc (Some (Ref.KeyEC 415 Ref.prime256v1_Gx Ref.prime256v1_Gy)))
          (Ref.world 3 [] [] []))
    by reflexivity.
  assert (Hto :
    ecc_pkey_to_curve_x_y (prov := P3)
      (Ref.KeyEC 415 Ref.prime256v1_Gx Ref.prime256v1_Gy)
      (Loc 0) (Loc None) (Loc 0) (Loc None) (Loc 0) (Ref.world 3 [] [] [])
    = Ret (0, (Loc 415,
               Loc (Some (be_minimal Ref.prime256v1_Gx)), Loc 32,
               Loc (Some (be_minimal Ref.prime256v1_Gy)), Loc 32))
          (Ref.world 3 [] [] []))
    by reflexivity.
  split; [exact Hfrom|]. split; [exact Hto|]. split.
  - destruct (proj1 (ecc_curve_x_y_round_trip (prov := P3) (view := Ref.view 3)
                       (KC := Ref_contract 3) 415
                       (be_minimal Ref.prime256v1_Gx) (be_minimal Ref.prime256v1_Gy)
                       None (Ref.world 3 [] [] [])) _ _ Hfrom)
      as (_ & key & Hkey & Hback).
    injection Hkey as <-.
    destruct (Hback _ _ _ _ _ _ _ _ Hto)
      as (x' & y' & Houts & Hx & Hx0 & Hy & Hy0 & _).
    exists x', y'.
    split; [exact Houts|].
    split; [rewrite Hx; reflexivity|].
    split; [exact Hx0|].
    split; [rewrite Hy; reflexivity | exact Hy0].
  - apply (proj2 (ecc_curve_x_y_round_trip (prov := P3) (view := Ref.view 3)
                    (KC := Ref_contract 3) 415
                    [x01] [x01] None (Ref.world 3 [] [] []))).
    reflexivity.
Defined.

Example ecc_to_curve_x_y_some_outputs :
  ecc_pkey_to_curve_x_y (prov := P3) (Ref.KeyEC 415 5 6)
    (Loc 0) NULL (Loc 0) (Loc None) NULL (Ref.world 3 [] [] [])
  = Ret (0, (Loc 415, NULL, Loc 1, Loc (Some [x06]), NULL)) (Ref.world 3 [] [] []).
Proof. reflexivity. Qed.

Example ecc_round_trip_older_generation :
  ecc_pkey_from_curve_x_y (prov := P1) 415
    (be_minimal Ref.prime256v1_Gx) (be_minimal Ref.prime256v1_Gy) (Loc None)
    (Ref.world 1 [] [] [])
  = Ret (0, Loc (Some (Ref.KeyEC 415 Ref.prime256v1_Gx Ref.prime256v1_Gy)))
        (Ref.world 1 [] [] []) /\
  ecc_pkey_to_curve_x_y (prov := P1)
    (Ref.KeyEC 415 Ref.prime256v1_Gx Ref.prime256v1_Gy)
    (Loc 0) (Loc None) (Loc 0) (Loc None) (Loc 0) (Ref.world 1 [] [] [])
  = Ret (0, (Loc 415,
             Loc (Some (be_minimal Ref.prime256v1_Gx)), Loc 32,
             Loc (Some (be_minimal Ref.prime256v1_Gy)), Loc 32))
        (Ref.world 1 [] [] []).
Proof. split; reflexivity. Qed.

(** Failing runs: an unknown digest, a provider failure in the middle of
    an encryption, a failed allocation while reading a key back. *)
Lemma outputs_unwritten_on_error_witness :
  (Loc None, Loc 7) = (Loc (@None bytes), Loc 7) /\
  (Loc (Some [x2a]), Loc 1) = (Loc (Some [x2a]), Loc 1) /\
  (Loc None, Loc 0, Loc None, Loc 0) = (Loc (@None bytes), Loc 0, Loc (@None bytes), Loc 0).
Proof.
  destruct (outputs_unwritten_on_error (prov := P3))
    as (_ & Hdigest & _ & Hencrypt & _ & Hto & _).
  split; [|split].
  - apply (Hdigest "whirlpool" [] (Loc None) (Loc 7) (Ref.world 3 [] [] [])
             (- EOPNOTSUPP) (Loc None, Loc 7)
             (world3 [] [ Ref.ERR_REASON ]
                [LogEntry LOG_DEBUG EOPNOTSUPP
                   "Digest algorithm '%s' not supported." [StrArg "whirlpool"]] []));
      [reflexivity | discriminate].
  - apply (Hencrypt (Ref.KeyRSA (2 ^ 255) 65537) [x01] (Loc (Some [x2a])) (Loc 1)
             (Ref.world 3 [0; 0; 9] [] [])
             (- EIO) (Loc (Some [x2a]), Loc 1)
             (world3 [] []
                [LogEntry LOG_DEBUG EIO "Failed to configure PKCS#1 padding: %s"
                   [StrArg "error:9"]] []));
      [reflexivity | discriminate].
  - apply (Hto (Ref.KeyRSA 3233 65537) (Loc None) (Loc 0) (Loc None) (Loc 0)
             (Ref.world 3 [] [] [false; true])
             (- ENOMEM) (Loc None, Loc 0, Loc None, Loc 0)
             (world3 [] [] [oom_entry] []));
      [reflexivity | discriminate].
Defined.

(** Signing a NUL-terminated string and an empty input. *)
Example digest_and_sign_string :
  digest_and_sign (prov := P3) (Some "sha256")
    (Ref.KeyEC 415 Ref.prime256v1_Gx Ref.prime256v1_Gy)
    (Some [x68; x69; x00; x21]) SIZE_MAX (Loc None) (Loc 0) (Ref.world 3 [] [] [])
  = Ret (0, (Loc (Some (Ref.mix [x68; x69] 64)), Loc 64)) (Ref.world 3 [] [] []).
Proof. reflexivity. Qed.

Example digest_and_sign_empty :
  digest_and_sign (prov := P3) (Some "sha256")
    (Ref.KeyEC 415 Ref.prime256v1_Gx Ref.prime256v1_Gy)
    None 0 (Loc None) (Loc 0) (Ref.world 3 [] [] [])
  = Ret (0, (Loc (Some (Ref.mix [] 64)), Loc 64)) (Ref.world 3 [] [] []).
Proof. reflexivity. Qed.

(** What the recording provider has received after signing: with no data
    and size zero, twice the pointer to the empty string with length 0;
    with a NUL-terminated string and [SIZE_MAX], twice the caller's pointer
    with the length of the string. *)
Lemma digest_and_sign_input_witness :
  digest_and_sign (prov := spy P3) (Some "sha256")
    (Ref.KeyEC 415 Ref.prime256v1_Gx Ref.prime256v1_Gy)
    None 0 (Loc None) (Loc 0) (mkWorld (prov := spy P3) ([], []) [] [] [])
  = Ret (0, (Loc (Some (Ref.mix [] 64)), Loc 64))
        (mkWorld (prov := spy P3) ([], [(Some [x00], 0); (Some [x00], 0)]) [] [] []) /\
  exists region n received,
    [(Some [x00], 0); (Some [x00], 0)] = [] ++ received /\
    (received = [] \/ received = [(Some region, n)] \/
     received = [(Some region, n); (Some region, n)]) /\
    (0 = 0 -> received = [(Some region, n); (Some region, n)]) /\
    (0 = 0 -> region = [x00] /\ n = 0) /\
    (0 = SIZE_MAX -> @None bytes = Some region /\ strlen region = Some n) /\
    (0 <> 0 -> 0 <> SIZE_MAX -> @None bytes = Some region /\ n = 0).
Proof.
  assert (Hrun :
    digest_and_sign (prov := spy P3) (Some "sha256")
      (Ref.KeyEC 415 Ref.prime256v1_Gx Ref.prime256v1_Gy)
      None 0 (Loc None) (Loc 0) (mkWorld (prov := spy P3) ([], []) [] [] [])
    = Ret (0, (Loc (Some (Ref.mix [] 64)), Loc 64))
          (mkWorld (prov := spy P3) ([], [(Some [x00], 0); (Some [x00], 0)]) [] [] []))
    by reflexivity.
  split; [exact Hrun|].
  exact (proj2 (digest_and_sign_input P3 (Some "sha256")
                  (Ref.KeyEC 415 Ref.prime256v1_Gx Ref.prime256v1_Gy)
                  None 0 None 0 (mkWorld (prov := spy P3) ([], []) [] [] []))
           _ _ _ Hrun).
Defined.

Example digest_and_sign_string_received :
  digest_and_sign (prov := spy P3) (Some "sha256")
    (Ref.KeyEC 415 Ref.prime256v1_Gx Ref.prime256v1_Gy)
    (Some [x68; x69; x00; x21]) SIZE_MAX (Loc None) (Loc 0)
    (mkWorld (prov := spy P3) ([], []) [] [] [])
  = Ret (0, (Loc (Some (Ref.mix [x68; x69] 64)), Loc 64))
        (mkWorld (prov := spy P3)
           ([], [(Some [x68; x69; x00; x21], 2); (Some [x68; x69; x00; x21], 2)])
           [] [] []).
Proof. reflexivity. Qed.

(** A provider failure at the first signing call: one record, no second
    call. *)
Example digest_and_sign_first_call_fails :
  exists r out jr,
    digest_and_sign (prov := spy P3) (Some "sha256")
      (Ref.KeyEC 415 Ref.prime256v1_Gx Ref.prime256v1_Gy)
      (Some [x68; x69]) 2 (Loc None) (Loc 0)
      (mkWorld (prov := spy P3) ([0; 0; 5], []) [] [] [])
    = Ret (r, out)
          (mkWorld (prov := spy P3) ([], [(Some [x68; x69], 2)]) [] jr []) /\
    r = - EIO /\ out = (Loc None, Loc 0).
Proof. eexists _, _, _. split; [reflexivity|]. split; reflexivity. Qed.

(** ** Where the specification as stated fails

    In each run the diagnostic buffer of the error drain cannot be
    allocated, and the result is [-ENOMEM] where the specification says
    [IoError]. *)

(** C4 as stated fails: with a queued error and no memory for the buffer,
    the drain returns [-ENOMEM], which is not the I/O error code. *)
Lemma log_openssl_errors_counterexample :
  log_openssl_errors (prov := P3) "Failed to parse PEM" [] (Ref.world 3 [] [7] [true])
    = Ret (- ENOMEM) (world3 [] [7] [oom_entry] []) /\
  - ENOMEM <> - errno_of IoError.
Proof. split; [reflexivity | discriminate]. Qed.

(** C5 as stated fails: "shake128" resolves, its reported size is zero, and
    with no memory for the buffer the result is [-ENOMEM], not [IoError]. *)
Lemma openssl_digest_size_counterexample :
  md_fetch (prov := P3) "shake128" (Ref.world 3 [] [] [true])
    = Ret (Some "shake128") (Ref.world 3 [] [] [true]) /\
  md_size (prov := P3) "shake128" = 0 /\
  openssl_digest_size (prov := P3) "shake128" (Loc 0) (Ref.world 3 [] [] [true])
    = Ret (- ENOMEM, Loc 0) (world3 [] [] [oom_entry] []) /\
  - ENOMEM <> - errno_of IoError.
Proof. repeat split; try reflexivity. discriminate. Qed.

(** C3 as stated fails twice. The point (1, 1) is not on prime256v1, and
    with no memory for the buffer the result is [-ENOMEM], not [IoError].
    And the x coordinate of the base point plus the field prime is accepted
    with the base point's y: the provider verifies the point, the key holds
    the base point, and the x coordinate read back is not the one given. *)
Lemma ecc_pkey_from_curve_x_y_counterexample :
  (Ref.on_curve 415 (be_value [x01]) (be_value [x01]) = false /\
   ecc_pkey_from_curve_x_y (prov := P3) 415 [x01] [x01] (Loc None)
     (Ref.world 3 [] [] [true])
     = Ret (- ENOMEM, Loc None) (world3 [] [ Ref.ERR_REASON ] [oom_entry] []) /\
   - ENOMEM <> - errno_of IoError) /\
  (let x := be_minimal (Ref.prime256v1_Gx + Ref.curve_p Ref.prime256v1)%N in
   let y := be_minimal Ref.prime256v1_Gy in
   Ref.on_curve 415 (be_value x) (be_value y) = true /\
   ecc_pkey_from_curve_x_y (prov := P3) 415 x y (Loc None) (Ref.world 3 [] [] [])
     = Ret (0, Loc (Some (Ref.KeyEC 415 Ref.prime256v1_Gx Ref.prime256v1_Gy)))
           (Ref.world 3 [] [] []) /\
   ecc_pkey_to_curve_x_y (prov := P3)
     (Ref.KeyEC 415 Ref.prime256v1_Gx Ref.prime256v1_Gy)
     (Loc 0) (Loc None) (Loc 0) (Loc None) (Loc 0) (Ref.world 3 [] [] [])
     = Ret (0, (Loc 415,
                Loc (Some (be_minimal Ref.prime256v1_Gx)), Loc 32,
                Loc (Some (be_minimal Ref.prime256v1_Gy)), Loc 32))
           (Ref.world 3 [] [] []) /\
   be_value (be_minimal Ref.prime256v1_Gx) <> be_value x /\
   be_minimal Ref.prime256v1_Gx <> be_minimal (be_value x)).
Proof.
  split.
  - repeat split; try reflexivity. discriminate.
  - cbv zeta. repeat split; try reflexivity.
    + vm_compute. discriminate.
    + vm_compute. discriminate.
Qed.

End Reference.

(** ** Further runs on the reference provider *)

Section ReferenceRuns.

Let P3 : Provider := Ref.provider 3.
Let G3 : KeygenProvider P3 := RefGen.keygen 3.
Let C3 : X509Provider P3 := RefGen.certs 3.

Let world3 (plan errors : list Z) (jr : list log_entry) (alloc : list bool)
  : World (prov := P3) := mkWorld (prov := P3) plan errors jr alloc.

(** Two queued errors are logged in order and popped. *)
Lemma log_openssl_errors_journal_witness :
  log_openssl_errors (prov := P3) "Failed to parse PEM" [] (Ref.world 3 [] [7; 9] [])
  = Ret (- EIO)
      (world3 [] []
         [LogEntry LOG_DEBUG EIO "Failed to parse PEM: %s" [StrArg "error:7"];
          LogEntry LOG_DEBUG EIO "Failed to parse PEM: %s" [StrArg "error:9"]] []).
Proof.
  apply (log_openssl_errors_journal (prov := P3) "Failed to parse PEM" []
           (Ref.world 3 [] [7; 9] [])).
  - reflexivity.
  - repeat constructor; discriminate.
Defined.

(** A key of 12 bits is too short. *)
Lemma rsa_pkey_to_suitable_key_size_range_witness :
  exists r out w',
    rsa_pkey_to_suitable_key_size (prov := P3) (Ref.KeyRSA 3233 65537) (Loc 0)
      (Ref.world 3 [] [] []) = Ret (r, out) w' /\
    (- 16 < EVP_PKEY_bits (Provider := P3) (Ref.KeyRSA 3233 65537) < 16 ->
       r = - EIO /\ out = Loc 0) /\
    (16 <= EVP_PKEY_bits (Provider := P3) (Ref.KeyRSA 3233 65537) ->
       r = 0 /\
       out = Loc (EVP_PKEY_bits (Provider := P3) (Ref.KeyRSA 3233 65537) / 16)) /\
    (EVP_PKEY_bits (Provider := P3) (Ref.KeyRSA 3233 65537) <= - 16 ->
       r = 0 /\
       out = Loc (2 ^ 64
                  - (- EVP_PKEY_bits (Provider := P3) (Ref.KeyRSA 3233 65537)) / 16)).
Proof.
  apply (rsa_pkey_to_suitable_key_size_range (prov := P3) (Ref.KeyRSA 3233 65537) 0
           (Ref.world 3 [] [] [])).
  - reflexivity.
  - change (INT_MIN <= 12 <= INT_MAX). unfold INT_MIN, INT_MAX. lia.
Defined.

Example suitable_key_size_of_generated_key :
  rsa_pkey_new (prov := P3) (gen := G3) 2048 (Loc None) (Ref.world 3 [] [] [])
  = Ret (0, Loc (Some (Ref.KeyRSA (2 ^ 2047 + 1) 65537))) (Ref.world 3 [] [] []) /\
  rsa_pkey_to_suitable_key_size (prov := P3) (Ref.KeyRSA (2 ^ 2047 + 1) 65537) (Loc 0)
    (Ref.world 3 [] [] [])
  = Ret (0, Loc 128)
      (world3 [] [] [LogEntry LOG_DEBUG 0 "Bits in RSA key: %i" [IntArg 2048]] []).
Proof. split; reflexivity. Qed.

(** The SHA-256 fingerprint of an RSA key. *)
Lemma pubkey_fingerprint_size_witness :
  0 < EVP_MD_size (Provider := P3) "sha256" /\
  exists h,
    (Loc (Some (Ref.mix [x0c; xa1; x01; x00; x01] 32)), Loc 32)
      = (Loc (Some h), Loc (to_size_t (EVP_MD_size (Provider := P3) "sha256"))) /\
    Z.of_nat (List.length h) = to_size_t (EVP_MD_size (Provider := P3) "sha256").
Proof.
  apply (pubkey_fingerprint_size (prov := P3) (Ref.KeyRSA 3233 65537) "sha256"
           (Loc None) (Loc 0) (Ref.world 3 [] [] []) 0
           (Loc (Some (Ref.mix [x0c; xa1; x01; x00; x01] 32)), Loc 32)
           (Ref.world 3 [] [] []));
    reflexivity.
Defined.

(** 2048 bits, and 2048 bits with bit 32 set. *)
Lemma rsa_pkey_new_int_bits_witness :
  effect (rsa_pkey_new (prov := P3) (gen := G3) 2048 (Loc None)
            (Ref.world 3 [] [] [])) =
  effect (rsa_pkey_new (prov := P3) (gen := G3) (2 ^ 32 + 2048) (Loc None)
            (Ref.world 3 [] [] [])).
Proof.
  apply (rsa_pkey_new_int_bits (prov := P3) (gen := G3) 2048 (2 ^ 32 + 2048)
           (Loc None) (Ref.world 3 [] [] [])).
  reflexivity.
Defined.

Example rsa_pkey_new_rejected_bits :
  rsa_pkey_new (prov := P3) (gen := G3) 100 (Loc None) (Ref.world 3 [] [] [])
  = Ret (- EIO, Loc None)
      (world3 [] []
         [LogEntry LOG_DEBUG EIO "Failed to set RSA bits to %zu: %s"
            [IntArg 100; StrArg "error:101"]] []).
Proof. reflexivity. Qed.

Example ecc_pkey_new_runs :
  ecc_pkey_new (prov := P3) (gen := G3) 415 (Loc None) (Ref.world 3 [] [] [])
  = Ret (0, Loc (Some (Ref.KeyEC 415 Ref.prime256v1_Gx Ref.prime256v1_Gy)))
      (Ref.world 3 [] [] []) /\
  ecc_pkey_new (prov := P3) (gen := G3) 714 (Loc None) (Ref.world 3 [] [] [true])
  = Ret (- ENOMEM, Loc None)
      (world3 [] [ Ref.ERR_REASON ]
         [LogEntry LOG_DEBUG ENOMEM "Out of memory." []] []).
Proof. split; reflexivity. Qed.

Example x509_fingerprint_runs :
  x509_fingerprint (prov := P3) (certs := C3) true RefGen.sha256_direct [x30; x82]
    (repeat x00 32) (Ref.world 3 [] [] [])
  = Ret (0, Ref.mix [x30; x82] 32) (Ref.world 3 [] [] []) /\
  x509_fingerprint (prov := P3) (certs := C3) true RefGen.sha256_direct []
    (repeat xff 32) (Ref.world 3 [] [] [])
  = Ret (- EIO, repeat xff 32)
      (world3 [] []
         [LogEntry LOG_DEBUG EIO
            "Unable to convert PEM certificate to DER format: %s"
            [StrArg "error:101"]] []) /\
  x509_fingerprint (prov := P3) (certs := C3) false RefGen.sha256_direct [x30]
    (repeat xff 32) (Ref.world 3 [] [] [])
  = Ret (- EOPNOTSUPP, repeat xff 32)
      (world3 [] []
         [LogEntry LOG_DEBUG EOPNOTSUPP
            "openssl is not supported, cannot calculate X509 fingerprint: %m" []] []).
Proof. repeat split; reflexivity. Qed.

(** The update loop stops at the second descriptor, which the provider
    rejects. *)
Example update_all_stops :
  update_all (prov := P3) EVP_DigestUpdate (Ref.MdCtx (Some "sha256") [] [] 0)
    [[x61]; [x62]; [x63]] (Ref.world 3 [0; 5] [] [])
  = Ret (false, Ref.MdCtx (Some "sha256") [] [x61] 0) (world3 [] [5] [] []).
Proof. reflexivity. Qed.

(** [rsa_encrypt_bytes] without memory for the ciphertext. *)
Example rsa_encrypt_bytes_bare_enomem :
  rsa_encrypt_bytes (prov := P3) (Ref.KeyRSA (2 ^ 255) 65537) [x01] (Loc None) (Loc 0)
    (Ref.world 3 [] [] [true])
  = Ret (- ENOMEM, (Loc None, Loc 0)) (Ref.world 3 [] [] []).
Proof. reflexivity. Qed.

(** The modulus 3233 and the exponent 65537, each with a leading zero
    byte. *)
Lemma rsa_pkey_from_n_e_value_witness :
  exists key : EVP_PKEY (Provider := P3),
    Loc (Some (Ref.KeyRSA 3233 65537)) = Loc (Some key) /\
    pkey_rsa (KeyView := Ref.view 3) key
      = Some (be_value [x0c; xa1], be_value [x01; x00; x01]).
Proof.
  apply (rsa_pkey_from_n_e_value (prov := P3) (view := Ref.view 3)
           (KC := Ref_contract 3) [x0c; xa1] [x01; x00; x01] 1 1 None
           (Ref.world 3 [] [] []) (Loc (Some (Ref.KeyRSA 3233 65537)))
           (Ref.world 3 [] [] [])).
  reflexivity.
Defined.

Lemma rsa_pkey_to_n_e_minimal_witness :
  exists n e,
    Loc (Some [x0c; xa1]) = Loc (Some n) /\ Loc 2 = Loc (Z.of_nat (List.length n)) /\
    Loc (Some [x01; x00; x01]) = Loc (Some e) /\
    Loc 3 = Loc (Z.of_nat (List.length e)) /\
    be_value n = 3233%N /\ hd_error n <> Some x00 /\
    be_value e = 65537%N /\ hd_error e <> Some x00.
Proof.
  apply (rsa_pkey_to_n_e_minimal (prov := P3) (view := Ref.view 3)
           (KC := Ref_contract 3) (Ref.KeyRSA 3233 65537) 3233%N 65537%N
           None 0 None 0 (Ref.world 3 [] [] [])
           (Loc (Some [x0c; xa1])) (Loc 2) (Loc (Some [x01; x00; x01])) (Loc 3)
           (Ref.world 3 [] [] []));
    reflexivity.
Defined.

(** The key of the base point of prime256v1, with three of the five
    pointers given. *)
Lemma ecc_pkey_to_curve_x_y_minimal_witness :
  exists x y,
    (Loc 415, NULL, Loc 32, Loc (Some (be_minimal Ref.prime256v1_Gy)), NULL)
      = (store_opt (Loc 0) 415,
         store_opt NULL (Some x), store_opt (Loc 0) (Z.of_nat (List.length x)),
         store_opt (Loc None) (Some y), store_opt NULL (Z.of_nat (List.length y))) /\
    be_value x = Ref.prime256v1_Gx /\ hd_error x <> Some x00 /\
    be_value y = Ref.prime256v1_Gy /\ hd_error y <> Some x00.
Proof.
  apply (ecc_pkey_to_curve_x_y_minimal (prov := P3) (view := Ref.view 3)
           (KC := Ref_contract 3)
           (Ref.KeyEC 415 Ref.prime256v1_Gx Ref.prime256v1_Gy)
           415 Ref.prime256v1_Gx Ref.prime256v1_Gy
           (Loc 0) NULL (Loc 0) (Loc None) NULL (Ref.world 3 [] [] [])
           (Loc 415, NULL, Loc 32, Loc (Some (be_minimal Ref.prime256v1_Gy)), NULL)
           (Ref.world 3 [] [] []));
    reflexivity.
Defined.

(** The name resolves at the start of [openssl_digest_many] and not when
    the digest size is asked for: the result is [-EOPNOTSUPP], by the second
    resolution of this run. *)
Lemma unsupported_digest_witness :
  openssl_digest_many (prov := P3) "sha256" [[x61]] (Loc None) (Loc 0)
    (Ref.world 3 [0; 0; 0; 0; 5] [] [])
  = Ret (- EOPNOTSUPP, (Loc None, Loc 0))
        (world3 [] [5] [unsupported_entry "sha256"] []) /\
  md_fetch (prov := P3) "sha256" (Ref.world 3 [0; 0; 0; 0; 5] [] [])
  = Ret (Some "sha256") (Ref.world 3 [0; 0; 0; 5] [] []) /\
  ((exists w1,
      md_fetch (prov := P3) "sha256" (Ref.world 3 [0; 0; 0; 0; 5] [] [])
        = Ret None w1) \/
   (exists w0 w1,
      reaches_size_query (prov := P3) "sha256" [[x61]]
        (Ref.world 3 [0; 0; 0; 0; 5] [] []) w0 /\
      md_fetch (prov := P3) "sha256" w0 = Ret None w1)).
Proof.
  assert (Hrun :
    openssl_digest_many (prov := P3) "sha256" [[x61]] (Loc None) (Loc 0)
      (Ref.world 3 [0; 0; 0; 0; 5] [] [])
    = Ret (- EOPNOTSUPP, (Loc None, Loc 0))
          (world3 [] [5] [unsupported_entry "sha256"] []))
    by reflexivity.
  split; [exact Hrun|]. split; [reflexivity|].
  exact (proj1 (proj1 (proj2 (unsupported_digest (prov := P3)) _ _ _ _ _ _ _ _ Hrun))
           eq_refl).
Defined.

End ReferenceRuns.
